(** * walletApp: a household-expense ledger (src/wallet/wallet.py)

    A shallow embedding of the Python program and of the parts of the
    Python runtime it relies on (str, int(), float(), datetime.strptime,
    the csv module, text files), followed by theorems about its
    behaviour.

    Conventions.
    - A Python [str] is a list of Unicode code points ([pystr]).
    - A Python [int] is a [Z]; a Python [float] is an IEEE-754 binary64
      value ([float], defined below on exact integers).
    - Code that may raise returns a [result]; an exception is its class
      together with its message.
    - Console input is the list of lines still to be typed; [input()]
      pops the first one and raises [EOFError] when none is left. *)

From Stdlib Require Import String Ascii ZArith NArith List Bool Lia Permutation.
Import ListNotations.

Set Implicit Arguments.

(** ** Strings *)

Abbreviation char := N (only parsing).
Abbreviation pystr := (list N) (only parsing).

Fixpoint pystr_eqb (a b : pystr) : bool :=
  match a, b with
  | [], [] => true
  | x :: a', y :: b' => (x =? y)%N && pystr_eqb a' b'
  | _, _ => false
  end.

(** String literals are written in UTF-8 in this file and decoded to
    code points by [u8]. *)
Fixpoint utf8_decode (bs : list N) : pystr :=
  match bs with
  | [] => []
  | b0 :: r0 =>
    if (b0 <? 0x80)%N then b0 :: utf8_decode r0
    else match r0 with
    | [] => []
    | b1 :: r1 =>
      if (b0 <? 0xE0)%N
      then ((b0 - 0xC0) * 0x40 + (b1 - 0x80))%N :: utf8_decode r1
      else match r1 with
      | [] => []
      | b2 :: r2 =>
        if (b0 <? 0xF0)%N
        then ((b0 - 0xE0) * 0x1000 + (b1 - 0x80) * 0x40 + (b2 - 0x80))%N
             :: utf8_decode r2
        else match r2 with
        | [] => []
        | b3 :: r3 =>
          ((b0 - 0xF0) * 0x40000 + (b1 - 0x80) * 0x1000
           + (b2 - 0x80) * 0x40 + (b3 - 0x80))%N :: utf8_decode r3
        end
      end
    end
  end.

Definition u8 (s : string) : pystr :=
  utf8_decode (map N_of_ascii (list_ascii_of_string s)).

(** Characters the program and the runtime single out. *)
Definition ch_tab : char := 9%N.
Definition ch_lf : char := 10%N.
Definition ch_cr : char := 13%N.
Definition ch_space : char := 32%N.
Definition ch_quote : char := 34%N.
Definition ch_plus : char := 43%N.
Definition ch_comma : char := 44%N.
Definition ch_minus : char := 45%N.
Definition ch_dot : char := 46%N.
Definition ch_slash : char := 47%N.
Definition ch_zero : char := 48%N.
Definition ch_qmark : char := 63%N.
Definition ch_underscore : char := 95%N.

(** ** Exceptions and results *)

Inductive exn_class :=
| ValueError | OverflowError | TypeError | KeyError | IndexError
| FileNotFoundError | EOFError | UnicodeEncodeError | UnicodeDecodeError
| CsvError | LibraryError (name : pystr).

Record exn := mkExn { exn_cls : exn_class; exn_msg : pystr }.

Definition exn_class_eqb (a b : exn_class) : bool :=
  match a, b with
  | ValueError, ValueError | OverflowError, OverflowError
  | TypeError, TypeError | KeyError, KeyError | IndexError, IndexError
  | FileNotFoundError, FileNotFoundError | EOFError, EOFError
  | UnicodeEncodeError, UnicodeEncodeError
  | UnicodeDecodeError, UnicodeDecodeError | CsvError, CsvError => true
  | LibraryError n, LibraryError m => pystr_eqb n m
  | _, _ => false
  end.

(** [except ValueError:] also catches the subclasses of ValueError: the
    two UnicodeErrors. *)
Definition isinstance_ValueError (e : exn) : bool :=
  match exn_cls e with
  | ValueError | UnicodeEncodeError | UnicodeDecodeError => true
  | _ => false
  end.

Definition isinstance_FileNotFoundError (e : exn) : bool :=
  match exn_cls e with
  | FileNotFoundError => true
  | _ => false
  end.

Inductive result (A : Type) :=
| Return (a : A)
| Raise (e : exn).
Arguments Return {A} a.
Arguments Raise {A} e.

Definition bind {A B} (m : result A) (k : A -> result B) : result B :=
  match m with
  | Return a => k a
  | Raise e => Raise e
  end.

Declare Scope py_scope.
Delimit Scope py_scope with py.
Notation "x <- m ;; k" := (bind m (fun x => k))
  (at level 61, m at next level, right associativity) : py_scope.
Open Scope py_scope.

Definition raise {A} (c : exn_class) (msg : string) : result A :=
  Raise (mkExn c (u8 msg)).

Definition raises {A} (r : result A) (c : exn_class) : Prop :=
  exists e, r = Raise e /\ exn_cls e = c.

(** ** Unicode character properties used by the runtime *)

(** The code points of the zero digits of the Unicode decimal digits
    (general category Nd, Unicode 14.0 as shipped with CPython 3.11);
    each is followed by the digits one to nine. *)
Definition decimal_zeros : list N :=
  [0x30; 0x660; 0x6F0; 0x7C0; 0x966; 0x9E6; 0xA66; 0xAE6; 0xB66; 0xBE6;
   0xC66; 0xCE6; 0xD66; 0xDE6; 0xE50; 0xED0; 0xF20; 0x1040; 0x1090;
   0x17E0; 0x1810; 0x1946; 0x19D0; 0x1A80; 0x1A90; 0x1B50; 0x1BB0;
   0x1C40; 0x1C50; 0xA620; 0xA8D0; 0xA900; 0xA9D0; 0xA9F0; 0xAA50;
   0xABF0; 0xFF10; 0x104A0; 0x10D30; 0x11066; 0x110F0; 0x11136; 0x111D0;
   0x112F0; 0x11450; 0x114D0; 0x11650; 0x116C0; 0x11730; 0x118E0;
   0x11950; 0x11C50; 0x11D50; 0x11DA0; 0x16A60; 0x16AC0; 0x16B50;
   0x1D7CE; 0x1D7D8; 0x1D7E2; 0x1D7EC; 0x1D7F6; 0x1E140; 0x1E2F0;
   0x1E950; 0x1FBF0]%N.

(** [Py_UNICODE_TODECIMAL]: the value of a decimal digit character. *)
Definition unicode_decimal (c : char) : option Z :=
  match find (fun z => (z <=? c)%N && (c <? z + 10)%N) decimal_zeros with
  | Some z => Some (Z.of_N (c - z))
  | None => None
  end.

(** [Py_UNICODE_ISDECIMAL], which is also what [\d] matches in [re]. *)
Definition unicode_isdecimal (c : char) : bool :=
  match unicode_decimal c with Some _ => true | None => false end.

(** [Py_UNICODE_ISSPACE]. *)
Definition unicode_isspace (c : char) : bool :=
  existsb (N.eqb c)
    [0x9; 0xA; 0xB; 0xC; 0xD; 0x1C; 0x1D; 0x1E; 0x1F; 0x20; 0x85; 0xA0;
     0x1680; 0x2000; 0x2001; 0x2002; 0x2003; 0x2004; 0x2005; 0x2006;
     0x2007; 0x2008; 0x2009; 0x200A; 0x2028; 0x2029; 0x202F; 0x205F;
     0x3000]%N.

(** [Py_ISSPACE] of the C layer: ASCII white space only. *)
Definition c_isspace (c : char) : bool :=
  ((9 <=? c) && (c <=? 13) || (c =? 32))%N.

(** The ASCII digits. *)
Definition ascii_digit (c : char) : option Z :=
  if ((48 <=? c) && (c <=? 57))%N then Some (Z.of_N (c - 48)) else None.

Definition is_ascii_digit (c : char) : bool :=
  match ascii_digit c with Some _ => true | None => false end.

(** [_PyUnicode_TransformDecimalAndSpaceToASCII]: what [int()] and
    [float()] do to a str before parsing it. An ASCII-only string is
    returned as it is; otherwise characters below 127 are kept, spaces
    become [' '], decimal digits become ASCII digits, and the first
    other character becomes ['?'] and ends the buffer. *)
Fixpoint transform_loop (s : pystr) : pystr :=
  match s with
  | [] => []
  | ch :: r =>
    if (ch <? 127)%N then ch :: transform_loop r
    else if unicode_isspace ch then ch_space :: transform_loop r
    else match unicode_decimal ch with
         | Some d => (ch_zero + Z.to_N d)%N :: transform_loop r
         | None => [ch_qmark]
         end
  end.

Definition transform_decimal_and_space (s : pystr) : pystr :=
  if forallb (fun c => (c <? 128)%N) s then s else transform_loop s.

Fixpoint skip_c_spaces (s : pystr) : pystr :=
  match s with
  | c :: r => if c_isspace c then skip_c_spaces r else s
  | [] => []
  end.

(** ** int(str) and str(int) *)

(** [sys.get_int_max_str_digits()]. *)
Definition int_max_str_digits : nat := 4300.

(** The digit scan of [PyLong_FromString] for base 10: digits with
    single underscores between them. Returns the value, the number of
    digits and the unread rest; [None] on a doubled or trailing
    underscore. *)
Fixpoint scan_digits (s : pystr) (prev_us : bool) (acc : Z) (n : nat)
  : option (Z * nat * pystr) :=
  match s with
  | c :: r =>
    if (c =? ch_underscore)%N
    then if prev_us then None else scan_digits r true acc n
    else match ascii_digit c with
         | Some d => scan_digits r false (10 * acc + d) (S n)
         | None => if prev_us then None else Some (acc, n, s)
         end
  | [] => if prev_us then None else Some (acc, n, [])
  end.

Definition split_sign (s : pystr) : bool * pystr :=
  match s with
  | c :: r =>
    if (c =? ch_plus)%N then (false, r)
    else if (c =? ch_minus)%N then (true, r)
    else (false, s)
  | [] => (false, [])
  end.

Definition starts_with_underscore (s : pystr) : bool :=
  match s with
  | c :: _ => (c =? ch_underscore)%N
  | [] => false
  end.

(** [PyLong_FromString] with base 10, on the buffer made by the
    transformation above. *)
Definition PyLong_FromString (buffer : pystr) : result Z :=
  let (negative, body) := split_sign (skip_c_spaces buffer) in
  if starts_with_underscore body
  then raise ValueError "invalid literal for int() with base 10"
  else
    match scan_digits body false 0 0 with
    | None => raise ValueError "invalid literal for int() with base 10"
    | Some (v, digits, rest) =>
      if (int_max_str_digits <? digits)%nat
      then raise ValueError "Exceeds the limit (4300 digits) for integer string conversion"
      else if (digits =? 0)%nat
      then raise ValueError "invalid literal for int() with base 10"
      else match skip_c_spaces rest with
           | [] => Return (if negative then - v else v)%Z
           | _ :: _ => raise ValueError "invalid literal for int() with base 10"
           end
    end.

(** [int(text)] for a str argument ([PyLong_FromUnicodeObject]). *)
Definition py_int (text : pystr) : result Z :=
  PyLong_FromString (transform_decimal_and_space text).

(** The decimal digits of a non-negative integer, most significant
    first, pushed in front of [acc]. *)
Fixpoint dec_digits (fuel : nat) (n : Z) (acc : pystr) : pystr :=
  match fuel with
  | O => acc
  | S f =>
    let acc' := (ch_zero + Z.to_N (n mod 10))%N :: acc in
    if (n <? 10)%Z then acc' else dec_digits f (n / 10) acc'
  end.

Definition str_of_nonneg (n : Z) : pystr :=
  dec_digits (S (Z.to_nat (Z.log2 n))) n [].

(** [str(i)] for an int [i]; it raises ValueError when the result would
    have more than 4300 digits. *)
Definition str_of_Z (z : Z) : pystr :=
  if (z <? 0)%Z then ch_minus :: str_of_nonneg (- z) else str_of_nonneg z.

Definition py_str_int (z : Z) : result pystr :=
  if (int_max_str_digits <? length (str_of_nonneg (Z.abs z)))%nat
  then raise ValueError "Exceeds the limit (4300 digits) for integer string conversion"
  else Return (str_of_Z z).

(** ** Attempts *)

(** One pass through the body of a [while True: try: ... except
    ValueError: print(notice)] loop on the line the user typed. *)
Inductive attempt (A : Type) :=
| Accepted (a : A)
| Rejected (notice : pystr)
| Escaped (e : exn).
Arguments Accepted {A} a.
Arguments Rejected {A} notice.
Arguments Escaped {A} e.

(** ** input_category *)

Definition input_category_attempt (categories : list pystr) (text : pystr)
  : attempt pystr :=
  match py_int text with
  | Return i =>
    let category_index := (i - 1)%Z in
    if ((0 <=? category_index) && (category_index <? Z.of_nat (length categories)))%Z
    then match nth_error categories (Z.to_nat category_index) with
         | Some category => Accepted category
         | None => Escaped (mkExn IndexError (u8 "list index out of range"))
         end
    else Rejected (u8 "番号が無効です。もう一度入力してください。")
  | Raise e =>
    if isinstance_ValueError e
    then Rejected (u8 "数字で入力してください。")
    else Escaped e
  end.

(** ** datetime.strptime(date, "%Y/%m/%d") *)

(** The fragment of regular expressions that [_strptime] builds for
    this format. *)
Inductive regex :=
| Chr (c : char)              (* a literal character *)
| Rng (lo hi : char)          (* a class [lo-hi] *)
| Dgt                         (* \d : any Unicode decimal digit *)
| Cat (r1 r2 : regex)
| Alt (r1 r2 : regex).

(** Backtracking matcher of [re]: alternatives are tried from left to
    right, and the first way of matching [r] on a prefix of [s] for
    which the rest of the pattern (the continuation [k], given the text
    matched and the text left) succeeds is the one taken. *)
Fixpoint re_match {A} (r : regex) (s : pystr)
  (k : pystr -> pystr -> option A) : option A :=
  match r with
  | Chr c =>
    match s with
    | x :: s' => if (x =? c)%N then k [x] s' else None
    | [] => None
    end
  | Rng lo hi =>
    match s with
    | x :: s' => if ((lo <=? x) && (x <=? hi))%N then k [x] s' else None
    | [] => None
    end
  | Dgt =>
    match s with
    | x :: s' => if unicode_isdecimal x then k [x] s' else None
    | [] => None
    end
  | Cat r1 r2 =>
    re_match r1 s (fun m1 s1 => re_match r2 s1 (fun m2 s2 => k (m1 ++ m2) s2))
  | Alt r1 r2 =>
    match re_match r1 s k with
    | Some x => Some x
    | None => re_match r2 s k
    end
  end.

Definition d0 : char := 48%N.
Definition d1 : char := 49%N.
Definition d2 : char := 50%N.
Definition d3 : char := 51%N.
Definition d9 : char := 57%N.

(** [%Y] is [\d\d\d\d]. *)
Definition re_Y : regex := Cat Dgt (Cat Dgt (Cat Dgt Dgt)).

(** [%m] is [1[0-2]|0[1-9]|[1-9]]. *)
Definition re_m : regex :=
  Alt (Cat (Chr d1) (Rng d0 d2))
 (Alt (Cat (Chr d0) (Rng d1 d9))
      (Rng d1 d9)).

(** [%d] is [3[0-1]|[1-2]\d|0[1-9]|[1-9]| [1-9]]. *)
Definition re_d : regex :=
  Alt (Cat (Chr d3) (Rng d0 d1))
 (Alt (Cat (Rng d1 d2) Dgt)
 (Alt (Cat (Chr d0) (Rng d1 d9))
 (Alt (Rng d1 d9)
      (Cat (Chr ch_space) (Rng d1 d9))))).

(** [format_regex.match(data_string)] for the pattern
    [(?P<Y>...)/(?P<m>...)/(?P<d>...)]: the three groups and the text
    after the match. *)
Definition match_Ymd (data_string : pystr)
  : option (pystr * pystr * pystr * pystr) :=
  re_match re_Y data_string (fun gY s1 =>
  re_match (Chr ch_slash) s1 (fun _ s2 =>
  re_match re_m s2 (fun gm s3 =>
  re_match (Chr ch_slash) s3 (fun _ s4 =>
  re_match re_d s4 (fun gd s5 =>
  Some (gY, gm, gd, s5)))))).

Definition is_leap (year : Z) : bool :=
  ((year mod 4 =? 0) && (negb (year mod 100 =? 0) || (year mod 400 =? 0)))%Z.

Definition days_in_month (year month : Z) : Z :=
  if (month =? 2)%Z then (if is_leap year then 29 else 28)%Z
  else if ((month =? 4) || (month =? 6) || (month =? 9) || (month =? 11))%Z
  then 30%Z else 31%Z.

(** The checks of the [date] constructor; MINYEAR is 1 and MAXYEAR is
    9999. *)
Definition check_date_fields (year month day : Z) : result unit :=
  if negb ((1 <=? year) && (year <=? 9999))%Z
  then raise ValueError "year is out of range"
  else if negb ((1 <=? month) && (month <=? 12))%Z
  then raise ValueError "month must be in 1..12"
  else if negb ((1 <=? day) && (day <=? days_in_month year month))%Z
  then raise ValueError "day is out of range for month"
  else Return tt.

Definition strptime_Ymd (data_string : pystr) : result (Z * Z * Z) :=
  match match_Ymd data_string with
  | None => raise ValueError "time data does not match format"
  | Some (gY, gm, gd, rest) =>
    match rest with
    | _ :: _ => raise ValueError "unconverted data remains"
    | [] =>
      year <- py_int gY ;;
      month <- py_int gm ;;
      day <- py_int gd ;;
      _ <- check_date_fields year month day ;;
      Return (year, month, day)
    end
  end.

(** ** input_date *)

Definition input_date_attempt (date : pystr) : attempt pystr :=
  match strptime_Ymd date with
  | Return _ => Accepted date
  | Raise e =>
    if isinstance_ValueError e
    then Rejected (u8 "日付はYYYY/MM/DDの形で入力してください")
    else Escaped e
  end.

(** ** Floating point

    A finite binary64 value is a multiple of [2^-1074] with at most 53
    significant bits and magnitude below [2^1024]. [Finite neg k]
    stands for [(-1)^neg * k * 2^-1074], so that sums of finite values
    are sums of integers. *)

Inductive float :=
| Finite (neg : bool) (k : Z)
| Inf (neg : bool)
| NaN.

Definition unit_exp : Z := 1074.
Definition one_in_units : Z := 2 ^ unit_exp.
Definition overflow_threshold : Z := 2 ^ (1024 + unit_exp).

(** The integer nearest to [p/q], ties to even ([0 <= p], [0 < q]). *)
Definition rne_div (p q : Z) : Z :=
  let a := (p / q)%Z in
  let r := (p mod q)%Z in
  if (2 * r <? q)%Z then a
  else if (q <? 2 * r)%Z then (a + 1)%Z
  else if Z.even a then a else (a + 1)%Z.

(** The integer with at most 53 significant bits nearest to [p/q], ties
    to even. *)
Definition round53 (p q : Z) : Z :=
  let s := Z.max 0 (Z.log2 (p / q) - 52) in
  (rne_div p (q * 2 ^ s) * 2 ^ s)%Z.

(** Rounding of the non-negative rational [p/q], counted in units of
    [2^-1074], to binary64; results of [2^1024] and above are
    infinite. *)
Definition float_of_ratio (neg : bool) (p q : Z) : float :=
  let k := round53 p q in
  if (overflow_threshold <=? k)%Z then Inf neg else Finite neg k.

(** The binary64 value nearest to [(-1)^neg * m * 10^e]. *)
Definition float_of_decimal (neg : bool) (m e : Z) : float :=
  if (0 <=? e)%Z
  then float_of_ratio neg (m * 10 ^ e * one_in_units) 1
  else float_of_ratio neg (m * one_in_units) (10 ^ (- e)).

(** [float(i)] for an int. *)
Definition float_of_int (i : Z) : result float :=
  match float_of_ratio (i <? 0)%Z (Z.abs i * one_in_units) 1 with
  | Inf _ => raise OverflowError "int too large to convert to float"
  | f => Return f
  end.

(** [int(x)] for a float: truncation toward zero. *)
Definition int_of_float (x : float) : result Z :=
  match x with
  | Finite neg k =>
    let t := (k / one_in_units)%Z in
    Return (if neg then - t else t)%Z
  | Inf _ => raise OverflowError "cannot convert float infinity to integer"
  | NaN => raise ValueError "cannot convert float NaN to integer"
  end.

(** [x + y] on floats. *)
Definition float_add (x y : float) : float :=
  match x, y with
  | NaN, _ | _, NaN => NaN
  | Inf a, Inf b => if Bool.eqb a b then Inf a else NaN
  | Inf a, Finite _ _ => Inf a
  | Finite _ _, Inf b => Inf b
  | Finite a ka, Finite b kb =>
    let s := ((if a then - ka else ka) + (if b then - kb else kb))%Z in
    if (s =? 0)%Z then Finite (a && b) 0
    else float_of_ratio (s <? 0)%Z (Z.abs s) 1
  end.

(** The exact value of a finite float in units of [2^-1074]. *)
Definition units_of_float (x : float) : option Z :=
  match x with
  | Finite neg k => Some (if neg then - k else k)%Z
  | _ => None
  end.

(** *** float(str) *)

(** [_Py_string_to_number_with_underscores]: an underscore must stand
    between two digits; the underscores are then dropped. *)
Fixpoint strip_underscores (s : pystr) (prev : option char) : option pystr :=
  match s with
  | [] =>
    match prev with
    | Some p => if (p =? ch_underscore)%N then None else Some []
    | None => Some []
    end
  | c :: r =>
    let prev_digit := match prev with Some p => is_ascii_digit p | None => false end in
    let prev_us := match prev with Some p => (p =? ch_underscore)%N | None => false end in
    if (c =? ch_underscore)%N
    then if prev_digit then strip_underscores r (Some c) else None
    else if prev_us && negb (is_ascii_digit c) then None
    else match strip_underscores r (Some c) with
         | Some r' => Some (c :: r')
         | None => None
         end
  end.

(** A run of ASCII digits: the value accumulated on [acc], how many
    digits were read, and the rest. *)
Fixpoint span_digits (s : pystr) (acc : Z) (n : Z) : Z * Z * pystr :=
  match s with
  | c :: r =>
    match ascii_digit c with
    | Some d => span_digits r (10 * acc + d)%Z (n + 1)%Z
    | None => (acc, n, s)
    end
  | [] => (acc, n, [])
  end.

Definition is_e (c : char) : bool := ((c =? 101) || (c =? 69))%N.

(** The decimal grammar of [_Py_dg_strtod]: an optional sign, digits
    with an optional point (at least one digit in all), and an optional
    exponent, which is read only when it has a digit. Returns the sign,
    the digits as an integer [m], the power of ten [e] and the unread
    rest; the number read is [m * 10^e]. *)
Definition parse_decimal (s : pystr) : option (bool * Z * Z * pystr) :=
  let (neg, s1) := split_sign s in
  let '(ip, ni, s2) := span_digits s1 0 0 in
  let '(m, nf, s3) :=
    match s2 with
    | c :: s2' => if (c =? ch_dot)%N then span_digits s2' ip 0 else (ip, 0%Z, s2)
    | [] => (ip, 0%Z, s2)
    end in
  if (ni + nf =? 0)%Z then None
  else
    match s3 with
    | c :: s4 =>
      if is_e c then
        let (eneg, s5) := split_sign s4 in
        let '(ev, ne, s6) := span_digits s5 0 0 in
        if (ne =? 0)%Z then Some (neg, m, (- nf)%Z, s3)
        else Some (neg, m, ((if eneg then - ev else ev) - nf)%Z, s6)
      else Some (neg, m, (- nf)%Z, s3)
    | [] => Some (neg, m, (- nf)%Z, s3)
    end.

Definition lower (c : char) : char :=
  if ((65 <=? c) && (c <=? 90))%N then (c + 32)%N else c.

(** [case_insensitive_match]: [word] is in lower case. *)
Fixpoint match_word (word s : pystr) : option pystr :=
  match word with
  | [] => Some s
  | w :: word' =>
    match s with
    | c :: r => if (lower c =? w)%N then match_word word' r else None
    | [] => None
    end
  end.

(** [_Py_parse_inf_or_nan]. *)
Definition parse_inf_or_nan (s : pystr) : option (float * pystr) :=
  let (neg, s1) := split_sign s in
  match match_word (u8 "inf") s1 with
  | Some s2 =>
    match match_word (u8 "inity") s2 with
    | Some s3 => Some (Inf neg, s3)
    | None => Some (Inf neg, s2)
    end
  | None =>
    match match_word (u8 "nan") s1 with
    | Some s2 => Some (NaN, s2)
    | None => None
    end
  end.

Definition strip_trailing_c_spaces (s : pystr) : pystr :=
  rev (skip_c_spaces (rev s)).

Definition float_error : result float :=
  raise ValueError "could not convert string to float".

(** [float_from_string_inner], after the underscores are dealt with. *)
Definition float_from_string (buffer : pystr) : result float :=
  match strip_underscores buffer None with
  | None => float_error
  | Some b =>
    match strip_trailing_c_spaces (skip_c_spaces b) with
    | [] => float_error
    | (_ :: _) as body =>
      match parse_decimal body with
      | Some (neg, m, e, []) => Return (float_of_decimal neg m e)
      | Some (_, _, _, _ :: _) => float_error
      | None =>
        match parse_inf_or_nan body with
        | Some (x, []) => Return x
        | _ => float_error
        end
      end
    end
  end.

(** [float(text)] for a str argument ([PyFloat_FromString]). *)
Definition py_float (text : pystr) : result float :=
  float_from_string (transform_decimal_and_space text).

(** ** input_amount *)

Definition input_amount_attempt (text : pystr) : attempt Z :=
  match (x <- py_float text ;; int_of_float x) with
  | Return amount => Accepted amount
  | Raise e =>
    if isinstance_ValueError e
    then Rejected (u8 "金額は数字で入力してください。")
    else Escaped e
  end.

(** ** Records of the ledger *)

(** The values found under the keys of a transaction dict: a str or
    None for the date and the category (None only when a CSV row is
    short), an int or a float for the amount. *)
Inductive strval :=
| Str (s : pystr)
| PyNone.

Inductive number :=
| Int (i : Z)
| Float (x : float).

(** The dict [{"日付": date, "カテゴリ": category, "金額": amount}]. *)
Record transaction := mkTransaction {
  date : strval;
  category : strval;
  amount : number
}.

Definition key_date : pystr := u8 "日付".
Definition key_category : pystr := u8 "カテゴリ".
Definition key_amount : pystr := u8 "金額".
Definition fieldnames : list pystr := [key_date; key_category; key_amount].

Definition strval_eqb (a b : strval) : bool :=
  match a, b with
  | Str s, Str t => pystr_eqb s t
  | PyNone, PyNone => true
  | _, _ => false
  end.

(** [float(v)] for a number. *)
Definition float_of_number (v : number) : result float :=
  match v with
  | Int i => float_of_int i
  | Float x => Return x
  end.

(** [a == b] between numbers: an int and a float are compared by their
    exact values. *)
Definition number_eqb (a b : number) : bool :=
  let units v :=
    match v with
    | Int i => Some (i * one_in_units)%Z
    | Float x => units_of_float x
    end in
  match units a, units b with
  | Some u, Some v => (u =? v)%Z
  | _, _ =>
    match a, b with
    | Float (Inf s), Float (Inf t) => Bool.eqb s t
    | _, _ => false
    end
  end.

(** ** The console *)

(** What the program writes: a line of text, a line made of a prefix
    followed by [str(e)] of an exception, the prompt of an [input()]
    call, the table handed to [tabulate] and the bar chart handed to
    matplotlib. *)
Inductive item :=
| Print (text : pystr)
| PrintExn (prefix : pystr) (e : exn)
| Prompt (text : pystr)
| Table (rows : list transaction)
| BarChart (categories : list strval) (amounts : list float).

Section PromptLoop.
Variable A : Type.
Variable prompt : pystr.
Variable body : pystr -> attempt A.

(** The loop itself: every pass calls [input(prompt)] once. It stops
    at the first accepted line, at the first exception the handler
    does not catch, or with EOFError when the input is exhausted. *)
Fixpoint prompt_loop (lines : list pystr) (out : list item)
  : result A * list pystr * list item :=
  match lines with
  | [] => (raise EOFError "EOF when reading a line", [], out ++ [Prompt prompt])
  | line :: rest =>
    match body line with
    | Accepted a => (Return a, rest, out ++ [Prompt prompt])
    | Rejected notice =>
      prompt_loop rest (out ++ [Prompt prompt; Print notice])
    | Escaped e => (Raise e, rest, out ++ [Prompt prompt])
    end
  end.
End PromptLoop.

(** ** Python dicts: association lists in insertion order *)

Section Dict.
Variables (K V : Type).
Variable eqb : K -> K -> bool.

Fixpoint dict_get (d : list (K * V)) (key : K) : option V :=
  match d with
  | [] => None
  | (k, v) :: d' => if eqb k key then Some v else dict_get d' key
  end.

(** [d[key] = v]: an existing key keeps its place. *)
Fixpoint dict_set (d : list (K * V)) (key : K) (v : V) : list (K * V) :=
  match d with
  | [] => [(key, v)]
  | (k, w) :: d' =>
    if eqb k key then (k, v) :: d' else (k, w) :: dict_set d' key v
  end.

Definition dict_keys (d : list (K * V)) : list K := map fst d.
Definition dict_values (d : list (K * V)) : list V := map snd d.
End Dict.

(** ** The csv module *)

(** *** csv.writer (dialect "excel", QUOTE_MINIMAL) *)

Definition csv_special (c : char) : bool :=
  ((c =? ch_comma) || (c =? ch_quote) || (c =? ch_cr) || (c =? ch_lf))%N.

Fixpoint double_quotes (s : pystr) : pystr :=
  match s with
  | [] => []
  | c :: r =>
    if (c =? ch_quote)%N then c :: c :: double_quotes r
    else c :: double_quotes r
  end.

(** [join_append]: a field holding the delimiter, the quote character or
    a character of the line terminator is quoted, its quotes doubled. *)
Definition join_append (field : pystr) : pystr :=
  if existsb csv_special field
  then ch_quote :: double_quotes field ++ [ch_quote]
  else field.

Fixpoint join_fields (fields : list pystr) : pystr :=
  match fields with
  | [] => []
  | [f] => join_append f
  | f :: rest => join_append f ++ ch_comma :: join_fields rest
  end.

(** The text [writerow] hands to [file.write]: a row made of one empty
    field is written as two quotes; the line terminator is CR LF. *)
Definition csv_line (fields : list pystr) : pystr :=
  let rec := join_fields fields in
  match fields, rec with
  | _ :: _, [] => [ch_quote; ch_quote; ch_cr; ch_lf]
  | _, _ => rec ++ [ch_cr; ch_lf]
  end.

(** *** csv.reader *)

Inductive parser_state :=
| START_RECORD | START_FIELD | IN_FIELD
| IN_QUOTED_FIELD | QUOTE_IN_QUOTED_FIELD | EAT_CRNL.

Record reader := mkReader {
  state : parser_state;
  fields : list pystr;      (* the fields saved so far *)
  field : pystr             (* the field being read *)
}.

Definition field_limit : N := 131072%N.

Definition parse_reset : reader := mkReader START_RECORD [] [].

Definition parse_save_field (r : reader) : reader :=
  mkReader (state r) (fields r ++ [field r]) [].

Definition parse_add_char (r : reader) (c : char) : result reader :=
  if (field_limit <=? N.of_nat (length (field r)))%N
  then raise CsvError "field larger than field limit (131072)"
  else Return (mkReader (state r) (fields r) (field r ++ [c])).

Definition set_state (r : reader) (s : parser_state) : reader :=
  mkReader s (fields r) (field r).

Definition is_newline (c : char) : bool := ((c =? ch_lf) || (c =? ch_cr))%N.

(** [parse_process_char] for the dialect in use (comma as
    delimiter, double quote as quote character, doubled quotes, no
    escape character, not strict).
    [None] is the end-of-line mark fed after each line. *)
Definition parse_process_char (r : reader) (c : option char) : result reader :=
  let in_start_field (r : reader) :=
    match c with
    | None => Return (set_state (parse_save_field r) START_RECORD)
    | Some x =>
      if is_newline x then Return (set_state (parse_save_field r) EAT_CRNL)
      else if (x =? ch_quote)%N then Return (set_state r IN_QUOTED_FIELD)
      else if (x =? ch_comma)%N then Return (set_state (parse_save_field r) START_FIELD)
      else r' <- parse_add_char r x ;; Return (set_state r' IN_FIELD)
    end in
  match state r with
  | START_RECORD =>
    match c with
    | None => Return r
    | Some x =>
      if is_newline x then Return (set_state r EAT_CRNL)
      else in_start_field r
    end
  | START_FIELD => in_start_field r
  | IN_FIELD =>
    match c with
    | None => Return (set_state (parse_save_field r) START_RECORD)
    | Some x =>
      if is_newline x then Return (set_state (parse_save_field r) EAT_CRNL)
      else if (x =? ch_comma)%N then Return (set_state (parse_save_field r) START_FIELD)
      else parse_add_char r x
    end
  | IN_QUOTED_FIELD =>
    match c with
    | None => Return r
    | Some x =>
      if (x =? ch_quote)%N then Return (set_state r QUOTE_IN_QUOTED_FIELD)
      else parse_add_char r x
    end
  | QUOTE_IN_QUOTED_FIELD =>
    match c with
    | None => Return (set_state (parse_save_field r) START_RECORD)
    | Some x =>
      if (x =? ch_quote)%N
      then r' <- parse_add_char r x ;; Return (set_state r' IN_QUOTED_FIELD)
      else if (x =? ch_comma)%N then Return (set_state (parse_save_field r) START_FIELD)
      else if is_newline x then Return (set_state (parse_save_field r) EAT_CRNL)
      else r' <- parse_add_char r x ;; Return (set_state r' IN_FIELD)
    end
  | EAT_CRNL =>
    match c with
    | None => Return (set_state r START_RECORD)
    | Some x =>
      if is_newline x then Return r
      else raise CsvError "new-line character seen in unquoted field"
    end
  end.

Fixpoint process_chars (r : reader) (line : pystr) : result reader :=
  match line with
  | [] => Return r
  | c :: rest => r' <- parse_process_char r (Some c) ;; process_chars r' rest
  end.

Definition process_line (r : reader) (line : pystr) : result reader :=
  r' <- process_chars r line ;; parse_process_char r' None.

(** What iterating a reader yields: rows, until the input ends or an
    exception is raised. *)
Inductive rows (A : Type) :=
| NoMore
| Next (row : A) (rest : rows A)
| Failed (e : exn).
Arguments NoMore {A}.
Arguments Next {A} row rest.
Arguments Failed {A} e.

Definition is_start_record (s : parser_state) : bool :=
  match s with START_RECORD => true | _ => false end.

Definition is_in_quoted_field (s : parser_state) : bool :=
  match s with IN_QUOTED_FIELD => true | _ => false end.

(** [Reader_iternext], called until the lines run out: [r] is the
    parser inside the current call. A record ends when a line leaves the
    parser in START_RECORD; input ending inside a record yields what
    was read. *)
Fixpoint reader_rows (r : reader) (lines : list pystr) : rows (list pystr) :=
  match lines with
  | [] =>
    if negb (length (field r) =? 0)%nat || is_in_quoted_field (state r)
    then Next (fields (parse_save_field r)) NoMore
    else NoMore
  | line :: rest =>
    match process_line r line with
    | Raise e => Failed e
    | Return r' =>
      if is_start_record (state r')
      then Next (fields r') (reader_rows parse_reset rest)
      else reader_rows r' rest
    end
  end.

Definition csv_reader (lines : list pystr) : rows (list pystr) :=
  reader_rows parse_reset lines.

(** *** csv.DictReader *)

(** [dict(zip(fieldnames, row))], with the value None under the
    field names a short row does not reach. The list under the key None
    that holds the surplus of a long row is left out: no str key reads
    it. *)
Fixpoint zip_row (names row : list pystr) (d : list (pystr * strval))
  : list (pystr * strval) :=
  match names, row with
  | [], _ => d
  | name :: names', x :: row' =>
    zip_row names' row' (dict_set pystr_eqb d name (Str x))
  | name :: names', [] =>
    zip_row names' [] (dict_set pystr_eqb d name PyNone)
  end.

Fixpoint dict_rows (names : list pystr) (rs : rows (list pystr))
  : rows (list (pystr * strval)) :=
  match rs with
  | NoMore => NoMore
  | Failed e => Failed e
  | Next [] rest => dict_rows names rest          (* blank rows are skipped *)
  | Next row rest => Next (zip_row names row []) (dict_rows names rest)
  end.

(** The first row gives the field names, whatever it holds. *)
Definition DictReader (lines : list pystr) : rows (list (pystr * strval)) :=
  match csv_reader lines with
  | NoMore => NoMore
  | Failed e => Failed e
  | Next names rest => dict_rows names rest
  end.

(** [row[key]] *)
Definition getitem (row : list (pystr * strval)) (key : pystr) : result strval :=
  match dict_get pystr_eqb row key with
  | Some v => Return v
  | None => Raise (mkExn KeyError key)
  end.

(** [float(v)] for a str or None. *)
Definition float_of_strval (v : strval) : result float :=
  match v with
  | Str s => py_float s
  | PyNone => raise TypeError "float() argument must be a string or a real number, not 'NoneType'"
  end.

(** ** Text files *)

(** Reading in text mode with universal newlines: CR LF and CR become
    LF. *)
Fixpoint universal_newlines (s : pystr) : pystr :=
  match s with
  | [] => []
  | c :: r =>
    if (c =? ch_cr)%N then
      ch_lf :: match r with
               | c2 :: r2 =>
                 if (c2 =? ch_lf)%N then universal_newlines r2
                 else universal_newlines r
               | [] => []
               end
    else c :: universal_newlines r
  end.

(** The lines a text file iterates over, each with its LF. *)
Fixpoint readlines (s : pystr) (cur : pystr) : list pystr :=
  match s with
  | [] => match cur with [] => [] | _ :: _ => [cur] end
  | c :: r =>
    if (c =? ch_lf)%N then (cur ++ [c]) :: readlines r []
    else readlines r (cur ++ [c])
  end.

(** UTF-8 encodes every code point but the surrogates. *)
Definition utf8_encodable (c : char) : bool :=
  negb ((0xD800 <=? c) && (c <=? 0xDFFF))%N.

(** [file.write(line)] on a file opened with [newline=""]: the text is
    encoded at once and added as it is. *)
Definition file_write (content line : pystr) : result pystr :=
  if forallb utf8_encodable line then Return (content ++ line)
  else raise UnicodeEncodeError "'utf-8' codec can't encode character: surrogates not allowed".

(** ** The file system and the spreadsheet library *)

(** A value handed to csv or to a worksheet cell. *)
Inductive cell :=
| CStr (s : pystr)
| CNum (v : number)
| CNone.

Definition cell_of_strval (v : strval) : cell :=
  match v with
  | Str s => CStr s
  | PyNone => CNone
  end.

Record workbook := mkWorkbook {
  title : pystr;
  sheet : list (list cell)
}.

Inductive file :=
| TextFile (content : pystr)
| XlsxFile (wb : workbook).

Definition filesystem := list (pystr * file).

Definition fs_get (fs : filesystem) (path : pystr) : option file :=
  dict_get pystr_eqb fs path.

Definition fs_put (fs : filesystem) (path : pystr) (f : file) : filesystem :=
  dict_set pystr_eqb fs path f.

(** [open(filename, mode="r", encoding="utf-8")] and the reading of the
    whole text. A missing file raises FileNotFoundError; a spreadsheet
    file is not UTF-8 text. *)
Definition read_text (fs : filesystem) (filename : pystr) : result pystr :=
  match fs_get fs filename with
  | None => Raise (mkExn FileNotFoundError filename)
  | Some (TextFile content) => Return content
  | Some (XlsxFile _) => raise UnicodeDecodeError "'utf-8' codec can't decode byte"
  end.

(** ** The program *)

Record world := mkWorld {
  stdin : list pystr;
  stdout : list item;
  files : filesystem
}.

Section Wallet.

(** What the program takes from its environment and from libraries
    that are not modelled further:
    - [float_repr x] is [str(x)] for a float, which csv writes for an
      amount read back from a file;
    - [open_write_error path] is the exception, if any, with which
      opening [path] for writing fails;
    - [xl_bind v] is the value openpyxl stores in a cell for [v], or
      the exception it raises;
    - [wb_save_error path wb] is the exception, if any, with which
      [wb.save(path)] fails. *)
Variable float_repr : float -> pystr.
Variable open_write_error : pystr -> option exn.
Variable xl_bind : cell -> result cell.
Variable wb_save_error : pystr -> workbook -> option exn.

(** *** Entering a transaction *)

Definition date_prompt : pystr := u8 "日付の入力(例:2025/01/01):" ++ [ch_lf].
Definition number_prompt : pystr := u8 "番号を入力してください:" ++ [ch_lf].
Definition amount_prompt : pystr := u8 "金額を入力してください:" ++ [ch_lf].

Definition input_date (lines : list pystr) (out : list item) :=
  prompt_loop date_prompt input_date_attempt lines out.

(** [print(f"{i}. {cat}")] for [enumerate(categories, start=1)]. *)
Fixpoint print_menu (i : Z) (categories : list pystr) : list item :=
  match categories with
  | [] => []
  | cat :: rest =>
    Print (str_of_Z i ++ u8 ". " ++ cat) :: print_menu (i + 1) rest
  end.

Definition input_category (categories : list pystr)
  (lines : list pystr) (out : list item) :=
  prompt_loop number_prompt (input_category_attempt categories) lines
    (out ++ Print (u8 "カテゴリを選択してください:" ++ [ch_lf])
         :: print_menu 1 categories).

Definition input_amount (lines : list pystr) (out : list item) :=
  prompt_loop amount_prompt input_amount_attempt lines out.

Definition categories : list pystr :=
  [u8 "食費"; u8 "交通費"; u8 "日用品"; u8 "趣味/交際費"; u8 "その他"].

Definition add_transaction (lines : list pystr) (out : list item)
  : result transaction * list pystr * list item :=
  match input_date lines out with
  | (Raise e, lines1, out1) => (Raise e, lines1, out1)
  | (Return date, lines1, out1) =>
    match input_category categories lines1 out1 with
    | (Raise e, lines2, out2) => (Raise e, lines2, out2)
    | (Return category, lines2, out2) =>
      match input_amount lines2 out2 with
      | (Raise e, lines3, out3) => (Raise e, lines3, out3)
      | (Return amount, lines3, out3) =>
        (Return (mkTransaction (Str date) (Str category) (Int amount)),
         lines3, out3)
      end
    end
  end.

(** *** save_to_csv *)

(** [str(v)] as csv.writer takes it for a field that is not a str. *)
Definition field_text (v : cell) : result pystr :=
  match v with
  | CStr s => Return s
  | CNone => Return []
  | CNum (Int i) => py_str_int i
  | CNum (Float x) => Return (float_repr x)
  end.

(** [DictWriter._dict_to_list] for the three field names. *)
Definition dict_to_list (row : transaction) : list cell :=
  [cell_of_strval (date row); cell_of_strval (category row); CNum (amount row)].

Fixpoint fields_text (cells : list cell) : result (list pystr) :=
  match cells with
  | [] => Return []
  | v :: rest =>
    s <- field_text v ;; ss <- fields_text rest ;; Return (s :: ss)
  end.

(** [writer.writerow]: the line is built, then written. *)
Definition writerow (content : pystr) (cells : list cell) : result pystr :=
  texts <- fields_text cells ;; file_write content (csv_line texts).

(** [writer.writerows]: what the file holds afterwards, also when a
    row raises. *)
Fixpoint writerows (content : pystr) (transaction_list : list transaction)
  : result unit * pystr :=
  match transaction_list with
  | [] => (Return tt, content)
  | row :: rest =>
    match writerow content (dict_to_list row) with
    | Return content' => writerows content' rest
    | Raise e => (Raise e, content)
    end
  end.

Definition save_to_csv (transaction_list : list transaction)
  (filename : pystr) (fs : filesystem) : result unit * filesystem :=
  match open_write_error filename with
  | Some e => (Raise e, fs)
  | None =>
    match writerow [] (map CStr fieldnames) with      (* writeheader *)
    | Raise e => (Raise e, fs_put fs filename (TextFile []))
    | Return content =>
      let (r, content') := writerows content transaction_list in
      (r, fs_put fs filename (TextFile content'))
    end
  end.

(** *** load_from_csv *)

Definition row_to_transaction (row : list (pystr * strval)) : result transaction :=
  date <- getitem row key_date ;;
  category <- getitem row key_category ;;
  text <- getitem row key_amount ;;
  amount <- float_of_strval text ;;
  Return (mkTransaction date category (Float amount)).

(** The list comprehension over the reader. *)
Fixpoint comprehension (rs : rows (list (pystr * strval)))
  : result (list transaction) :=
  match rs with
  | NoMore => Return []
  | Failed e => Raise e
  | Next row rest =>
    t <- row_to_transaction row ;;
    ts <- comprehension rest ;;
    Return (t :: ts)
  end.

(** The lines of a file read in text mode. *)
Definition text_lines (content : pystr) : list pystr :=
  readlines (universal_newlines content) [].

Definition load_from_csv (filename : pystr) (fs : filesystem)
  : result (list transaction) :=
  match (content <- read_text fs filename ;;
         comprehension (DictReader (text_lines content))) with
  | Return transactions => Return transactions
  | Raise e =>
    if isinstance_FileNotFoundError e then Return [] else Raise e
  end.

(** *** display_table *)

Definition display_table (transaction_list : list transaction) : list item :=
  match transaction_list with
  | [] => [Print (u8 "家計簿の登録がありません。")]
  | _ :: _ => [Table transaction_list]
  end.

(** *** plot_graph *)

(** The loop that fills [category_totals]. *)
Fixpoint aggregate (category_totals : list (strval * float))
  (transaction_list : list transaction) : result (list (strval * float)) :=
  match transaction_list with
  | [] => Return category_totals
  | row :: rest =>
    let category := category row in
    amount <- float_of_number (amount row) ;;
    match dict_get strval_eqb category_totals category with
    | Some total =>
      aggregate (dict_set strval_eqb category_totals category
                   (float_add total amount)) rest
    | None =>
      aggregate (dict_set strval_eqb category_totals category amount) rest
    end
  end.

Definition plot_graph (transaction_list : list transaction) : result (list item) :=
  match transaction_list with
  | [] => Return [Print (u8 "家計簿の登録がないため、グラフを表示できません。")]
  | _ :: _ =>
    category_totals <- aggregate [] transaction_list ;;
    Return [BarChart (dict_keys category_totals) (dict_values category_totals)]
  end.

(** *** save_to_excel *)

Fixpoint bind_cells (values : list cell) : result (list cell) :=
  match values with
  | [] => Return []
  | v :: rest =>
    c <- xl_bind v ;; cs <- bind_cells rest ;; Return (c :: cs)
  end.

(** [ws.append(values)]: one more row at the bottom of the sheet. *)
Definition ws_append (ws : list (list cell)) (values : list cell)
  : result (list (list cell)) :=
  stored <- bind_cells values ;; Return (ws ++ [stored]).

(** The loop over the records; [dc] counts the rows appended. *)
Fixpoint append_rows (ws : list (list cell)) (dc : Z)
  (transaction_list : list transaction) : result (list (list cell) * Z) :=
  match transaction_list with
  | [] => Return (ws, dc)
  | row :: rest =>
    x <- float_of_number (amount row) ;;
    ws' <- ws_append ws [cell_of_strval (date row);
                         cell_of_strval (category row);
                         CNum (Float x)] ;;
    append_rows ws' (dc + 1) rest
  end.

Definition wb_save (wb : workbook) (filename : pystr) (fs : filesystem)
  : result filesystem :=
  match wb_save_error filename wb with
  | Some e => Raise e
  | None => Return (fs_put fs filename (XlsxFile wb))
  end.

Definition sheet_title : pystr := u8 "家計簿アプリ".
Definition excel_error_prefix : pystr :=
  u8 "エクセルへ保存中にエラーが発生しました。:".
Definition saved_notice (filename : pystr) : pystr :=
  u8 "データをExcelファイル(" ++ filename ++ u8 ")に保存しました。".
Definition count_notice (dc : pystr) : pystr :=
  u8 "データは" ++ dc ++ u8 "件です。".

(** The body of the [try] up to and including [wb.save]. *)
Definition export_workbook (transaction_list : list transaction)
  (filename : pystr) (fs : filesystem) : result (workbook * Z * filesystem) :=
  ws <- ws_append [] (map CStr fieldnames) ;;
  filled <- append_rows ws 0 transaction_list ;;
  let wb := mkWorkbook sheet_title (fst filled) in
  fs' <- wb_save wb filename fs ;;
  Return (wb, snd filled, fs').

(** Every exception raised in the [try] is an [Exception] and is
    caught by [except Exception as e]. *)
Definition save_to_excel (transaction_list : list transaction)
  (filename : pystr) (fs : filesystem) : list item * filesystem :=
  match export_workbook transaction_list filename fs with
  | Raise e => ([PrintExn excel_error_prefix e], fs)
  | Return (_, dc, fs') =>
    match py_str_int dc with
    | Return n =>
      ([Print (saved_notice filename); Print (count_notice n)], fs')
    | Raise e =>
      ([Print (saved_notice filename); PrintExn excel_error_prefix e], fs')
    end
  end.

(** *** The menu *)

Definition csv_name : pystr := u8 "wallet_data.csv".
Definition xlsx_name : pystr := u8 "wallet_data.xlsx".

Definition menu_text : list item :=
  [Print (ch_lf :: u8 "1.収支を登録する");
   Print (u8 "2.家計簿を表示する");
   Print (u8 "3.グラフを表示する");
   Print (u8 "4.エクセルに保存する");
   Print (u8 "5.終了");
   Prompt (u8 "メニューを選択してください(例:1,2,3)" ++ [ch_lf])].

(** How a run ends: by the menu entry 5, by an uncaught exception, or
    not within the passes allowed. *)
Inductive outcome :=
| Exited (transactions : list transaction) (w : world)
| Uncaught (e : exn) (transactions : list transaction) (w : world)
| Running (transactions : list transaction) (w : world).

(** One pass of the [while True:] menu loop; [Running] is the state
    the next pass starts from. *)
Definition menu_pass (transactions : list transaction) (w : world) : outcome :=
  let out := stdout w ++ menu_text in
  match stdin w with
  | [] =>
    Uncaught (mkExn EOFError (u8 "EOF when reading a line")) transactions
      (mkWorld [] out (files w))
  | choice :: lines =>
    if pystr_eqb choice (u8 "1") then
      match add_transaction lines out with
      | (Raise e, lines', out') =>
        Uncaught e transactions (mkWorld lines' out' (files w))
      | (Return transaction, lines', out') =>
        let transactions' := transactions ++ [transaction] in
        match save_to_csv transactions' csv_name (files w) with
        | (Raise e, fs') => Uncaught e transactions' (mkWorld lines' out' fs')
        | (Return _, fs') =>
          Running transactions'
            (mkWorld lines' (out' ++ [Print (u8 "収支を登録しました")]) fs')
        end
      end
    else if pystr_eqb choice (u8 "2") then
      Running transactions
        (mkWorld lines (out ++ display_table transactions) (files w))
    else if pystr_eqb choice (u8 "3") then
      match plot_graph transactions with
      | Raise e => Uncaught e transactions (mkWorld lines out (files w))
      | Return shown => Running transactions (mkWorld lines (out ++ shown) (files w))
      end
    else if pystr_eqb choice (u8 "4") then
      let (shown, fs') := save_to_excel transactions xlsx_name (files w) in
      Running transactions (mkWorld lines (out ++ shown) fs')
    else if pystr_eqb choice (u8 "5") then
      let out' := out ++ [Print (u8 "アプリを終了します")] in
      match save_to_csv transactions csv_name (files w) with
      | (Raise e, fs') => Uncaught e transactions (mkWorld lines out' fs')
      | (Return _, fs') => Exited transactions (mkWorld lines out' fs')
      end
    else
      Running transactions
        (mkWorld lines
           (out ++ [Print (u8 "入力する数値が間違っています。メニュー番号を入力してください。")])
           (files w))
  end.

Fixpoint menu_loop (passes : nat) (transactions : list transaction) (w : world)
  : outcome :=
  match passes with
  | O => Running transactions w
  | S n =>
    match menu_pass transactions w with
    | Running transactions' w' => menu_loop n transactions' w'
    | ended => ended
    end
  end.

(** The module body: the ledger is loaded, then the menu runs. Every
    pass reads at least one line, so as many passes as there are
    lines, and one more, end the run. *)
Definition main (w : world) : outcome :=
  match load_from_csv csv_name (files w) with
  | Raise e => Uncaught e [] w
  | Return transactions =>
    menu_loop (S (length (stdin w))) transactions w
  end.


End Wallet.

(** * Specification vocabulary *)

(** The value of a run of ASCII digits read after [acc]. *)
Definition numeral_value (ds : pystr) (acc : Z) : Z :=
  fold_left (fun a c => (10 * a + (Z.of_N c - 48))%Z) ds acc.

Definition all_digits (ds : pystr) : Prop :=
  Forall (fun c => (48 <= c <= 57)%N) ds.

(** Integers with at most 53 significant bits. *)
Definition sig53 (k : Z) : Prop :=
  exists a t, (k = a * 2 ^ t /\ 0 <= a < 2 ^ 53 /\ 0 <= t)%Z.

(** The floats the conversions produce. *)
Definition float_wf (x : float) : Prop :=
  match x with
  | Finite _ k => sig53 k /\ (0 <= k < overflow_threshold)%Z
  | _ => True
  end.

(** The integers that are binary64 values. *)
Definition whole_double (z : Z) : Prop :=
  sig53 (Z.abs z * one_in_units) /\
  (Z.abs z * one_in_units < overflow_threshold)%Z.

(** The ASCII digit of a value. *)
Definition digit_char (v : Z) : char := (ch_zero + Z.to_N v)%N.

Definition decimal_chars (cs : pystr) (vs : list Z) : Prop :=
  Forall2 (fun c v => unicode_decimal c = Some v) cs vs.

Definition digits_value (vs : list Z) : Z :=
  fold_left (fun a v => (10 * a + v)%Z) vs 0%Z.

(** *** Dates *)

Definition ascii_value (c : char) : Z := (Z.of_N c - 48)%Z.

(** Four decimal digits and the year they write. *)
Inductive year_text : pystr -> Z -> Prop :=
| year_digits a b c d va vb vc vd :
    unicode_decimal a = Some va -> unicode_decimal b = Some vb ->
    unicode_decimal c = Some vc -> unicode_decimal d = Some vd ->
    year_text [a; b; c; d] (1000 * va + 100 * vb + 10 * vc + vd).

(** A month from 1 to 12, with or without a leading zero. *)
Inductive month_text : pystr -> Z -> Prop :=
| month_one_digit c :
    (d1 <= c <= d9)%N -> month_text [c] (ascii_value c)
| month_padded c :
    (d1 <= c <= d9)%N -> month_text [d0; c] (ascii_value c)
| month_ten_to_twelve c :
    (d0 <= c <= d2)%N -> month_text [d1; c] (10 + ascii_value c).

(** A day from 1 to 31: one digit, alone or after a zero or a space,
    or two digits. *)
Inductive day_text : pystr -> Z -> Prop :=
| day_one_digit c :
    (d1 <= c <= d9)%N -> day_text [c] (ascii_value c)
| day_padded c :
    (d1 <= c <= d9)%N -> day_text [d0; c] (ascii_value c)
| day_after_space c :
    (d1 <= c <= d9)%N -> day_text [ch_space; c] (ascii_value c)
| day_ten_to_twenty_nine t u v :
    (d1 <= t <= d2)%N -> unicode_decimal u = Some v ->
    day_text [t; u] (10 * ascii_value t + v)
| day_thirty c :
    (d0 <= c <= d1)%N -> day_text [d3; c] (30 + ascii_value c).

Definition date_text (s : pystr) (year month day : Z) : Prop :=
  exists gY gm gd,
    s = gY ++ ch_slash :: gm ++ ch_slash :: gd /\
    year_text gY year /\ month_text gm month /\ day_text gd day.

(** The day exists in that month of that year; there is no year 0. *)
Definition real_date (year month day : Z) : Prop :=
  (1 <= year /\ day <= days_in_month year month)%Z.

(** What [input_date] takes. *)
Definition lenient_date (s : pystr) : Prop :=
  exists year month day, date_text s year month day /\ real_date year month day.

(** The form YYYY/MM/DD of the specification: ten characters, the
    fifth and the eighth a slash. *)
Definition zero_padded_form (s : pystr) : Prop :=
  exists y1 y2 y3 y4 m1 m2 dd1 dd2,
    s = [y1; y2; y3; y4; ch_slash; m1; m2; ch_slash; dd1; dd2].

(** The dates of the specification: YYYY/MM/DD, every field padded
    with zeros, MM/DD a day of the calendar. *)
Definition padded_date (s : pystr) : Prop :=
  exists y1 y2 y3 y4 m1 m2 dd1 dd2,
    s = [y1; y2; y3; y4; ch_slash; m1; m2; ch_slash; dd1; dd2] /\
    Forall (fun c => (d0 <= c <= d9)%N) [y1; y2; y3; y4; m1; m2; dd1; dd2] /\
    let year := (1000 * ascii_value y1 + 100 * ascii_value y2
                 + 10 * ascii_value y3 + ascii_value y4)%Z in
    let month := (10 * ascii_value m1 + ascii_value m2)%Z in
    let day := (10 * ascii_value dd1 + ascii_value dd2)%Z in
    (1 <= month <= 12 /\ 1 <= day <= days_in_month year month)%Z.

(** *** The exported sheet *)

(** The row of the sheet that a record gives. *)
Definition exported_row (xl_bind : cell -> result cell)
  (row : transaction) (stored : list cell) : Prop :=
  exists x,
    float_of_number (amount row) = Return x /\
    bind_cells xl_bind [cell_of_strval (date row); cell_of_strval (category row);
                CNum (Float x)] = Return stored.

Definition infinity_error : exn :=
  mkExn OverflowError (u8 "cannot convert float infinity to integer").

(** *** Totals by category *)

(** The categories in the order of their first appearance. *)
Fixpoint first_appearances (keys : list strval) : list strval :=
  match keys with
  | [] => []
  | k :: rest =>
    k :: filter (fun k' => negb (strval_eqb k' k)) (first_appearances rest)
  end.

(** The amounts recorded under a category, in the order of the
    records. *)
Definition amounts_of (c : strval) (pairs : list (strval * float)) : list float :=
  map snd (filter (fun p => strval_eqb (fst p) c) pairs).

(** The sum of the amounts of a category, added from left to
    right. *)
Definition total_of (c : strval) (pairs : list (strval * float)) : float :=
  match amounts_of c pairs with
  | [] => Finite false 0
  | x :: rest => fold_left float_add rest x
  end.

(** The mapping of the specification: one entry for each category
    that appears, in the order of first appearance, holding the sum
    of its amounts. *)
Definition category_sums (pairs : list (strval * float)) : list (strval * float) :=
  map (fun c => (c, total_of c pairs)) (first_appearances (map fst pairs)).

(** The category and the amount, as a float, of each record. *)
Fixpoint categorized (transaction_list : list transaction)
  : result (list (strval * float)) :=
  match transaction_list with
  | [] => Return []
  | row :: rest =>
    x <- float_of_number (amount row) ;;
    pairs <- categorized rest ;;
    Return ((category row, x) :: pairs)
  end.

(** What one record does to [category_totals]. *)
Definition add_amount (category_totals : list (strval * float))
  (p : strval * float) : list (strval * float) :=
  match dict_get strval_eqb category_totals (fst p) with
  | Some total =>
    dict_set strval_eqb category_totals (fst p) (float_add total (snd p))
  | None => dict_set strval_eqb category_totals (fst p) (snd p)
  end.

(** *** Amounts *)

(** The text is a decimal numeral in the grammar of [float()]: it
    writes the number [(-1)^neg * m * 10^e]. *)
Definition decimal_literal (text : pystr) : option (bool * Z * Z) :=
  match strip_underscores (transform_decimal_and_space text) None with
  | Some b =>
    match parse_decimal (strip_trailing_c_spaces (skip_c_spaces b)) with
    | Some (neg, m, e, []) => Some (neg, m, e)
    | _ => None
    end
  | None => None
  end.

(** The number [(-1)^neg * m * 10^e] truncated toward zero. *)
Definition exact_trunc (neg : bool) (m e : Z) : Z :=
  let t := if (0 <=? e)%Z then (m * 10 ^ e)%Z else (m / 10 ^ (- e))%Z in
  if neg then (- t)%Z else t.

(** The number [m * 10^e] is a binary64 value: [k] units of
    [2^-1074]. *)
Definition exactly_representable (m e k : Z) : Prop :=
  sig53 k /\ (0 <= k < overflow_threshold)%Z /\
  if (0 <=? e)%Z then k = (m * 10 ^ e * one_in_units)%Z
  else (k * 10 ^ (- e) = m * one_in_units)%Z.

(** The float of a whole number. *)
Definition float_of_whole (z : Z) : float :=
  Finite (z <? 0)%Z (Z.abs z * one_in_units).

(** *** Rows of a file *)

(** [x] is one of the rows the iteration yields before it ends or
    fails. *)
Inductive yields (A : Type) (x : A) : rows A -> Prop :=
| yields_here rest : yields x (Next x rest)
| yields_later y rest : yields x rest -> yields x (Next y rest).

(** A data row that lacks one of the three columns, because the
    header does not name it or because the row is too short to reach
    the amount, or whose amount is not a number for [float()]. *)
Definition malformed_row (row : list (pystr * strval)) : Prop :=
  dict_get pystr_eqb row key_date = None \/
  dict_get pystr_eqb row key_category = None \/
  dict_get pystr_eqb row key_amount = None \/
  dict_get pystr_eqb row key_amount = Some PyNone \/
  exists s e, dict_get pystr_eqb row key_amount = Some (Str s) /\
              py_float s = Raise e.

Definition short_row_file : pystr :=
  u8 "日付,カテゴリ,金額" ++ [ch_lf] ++ u8 "2025/01/01,食費" ++ [ch_lf].

(** *** Saving and loading *)

(** A record that [add_transaction] can return: a date that
    [input_date] takes, one of the categories, an amount that
    [input_amount] returns. *)
Definition valid_transaction (t : transaction) : Prop :=
  exists d c z,
    t = mkTransaction (Str d) (Str c) (Int z) /\
    input_date_attempt d = Accepted d /\
    In c categories /\
    exists text, input_amount_attempt text = Accepted z.

(** Equal in content: the same date string, the same category string,
    amounts equal as numbers ([==] of Python). *)
Definition same_record (a b : transaction) : Prop :=
  date a = date b /\ category a = category b /\
  number_eqb (amount a) (amount b) = true.

(** A character csv writes as it is and UTF-8 encodes. *)
Definition plain_char (c : char) : bool :=
  negb (csv_special c) && utf8_encodable c.

(** A field that is not empty, needs no quoting and stays within the
    field size limit of the reader. *)
Definition plainb (s : pystr) : bool :=
  match s with
  | [] => false
  | _ :: _ => forallb plain_char s && (N.of_nat (length s) <=? field_limit)%N
  end.

Definition plain (s : pystr) : Prop := plainb s = true.

(** A line of three fields, as written and as read. *)
Definition line_body (f : pystr * pystr * pystr) : pystr :=
  let '(d, c, s) := f in d ++ ch_comma :: c ++ ch_comma :: s.

Definition crlf_line (f : pystr * pystr * pystr) : pystr :=
  line_body f ++ [ch_cr; ch_lf].

Definition lf_line (f : pystr * pystr * pystr) : pystr :=
  line_body f ++ [ch_lf].

Definition plain3 (f : pystr * pystr * pystr) : Prop :=
  let '(d, c, s) := f in plain d /\ plain c /\ plain s.

Definition header3 : pystr * pystr * pystr :=
  (key_date, key_category, key_amount).

(** The three fields csv writes for a record entered by the user. *)
Definition fields3 (d c : pystr) (z : Z) : pystr * pystr * pystr :=
  (d, c, str_of_Z z).

Definition row_of (f : pystr * pystr * pystr) : list pystr :=
  let '(d, c, s) := f in [d; c; s].

Definition to_rows (A : Type) (l : list A) : rows A :=
  fold_right (fun x rest => Next x rest) NoMore l.

(** The dict [DictReader] makes of a row of three fields, and the
    record [load_from_csv] makes of a row written for an integer
    amount. *)
Definition dict_of (f : pystr * pystr * pystr) : list (pystr * strval) :=
  let '(d, c, s) := f in
  [(key_date, Str d); (key_category, Str c); (key_amount, Str s)].

Definition loaded_record (d c : pystr) (z : Z) : transaction :=
  mkTransaction (Str d) (Str c) (Float (float_of_whole z)).

(** *** Examples *)

Definition example_ledger : list transaction :=
  [mkTransaction (Str (u8 "2025/01/01")) (Str (u8 "食費")) (Int 100);
   mkTransaction (Str (u8 "2025/1/2")) (Str (u8 "交通費")) (Int 50)].

(** An environment in which nothing fails, and a spreadsheet library
    that refuses every cell. *)
Definition zero_repr (x : float) : pystr := u8 "0.0".
Definition writable (path : pystr) : option exn := None.
Definition store_cell (v : cell) : result cell := Return v.
Definition saves (path : pystr) (wb : workbook) : option exn := None.

Definition illegal_character : exn :=
  mkExn (LibraryError (u8 "IllegalCharacterError"))
        (u8 "cannot be used in worksheets.").
Definition refuse_cell (v : cell) : result cell := Raise illegal_character.

(** *** The input loops *)

Definition date_notice : pystr := u8 "日付はYYYY/MM/DDの形で入力してください".
Definition category_heading : pystr := u8 "カテゴリを選択してください:" ++ [ch_lf].
Definition eof_error : exn := mkExn EOFError (u8 "EOF when reading a line").

(** What a loop prints while it goes through the lines it rejects:
    the prompt, then the notice, for each of them. *)
Definition reprompts (prompt : pystr) (notices : list pystr) : list item :=
  concat (map (fun notice => [Prompt prompt; Print notice]) notices).

(** The year written by four ASCII digits. *)
Definition year_of (y1 y2 y3 y4 : char) : Z :=
  (1000 * ascii_value y1 + 100 * ascii_value y2
   + 10 * ascii_value y3 + ascii_value y4)%Z.

(** *** The text of a ledger *)

(** The text csv writes for a date or a category (None is written as
    the empty field) and for an amount. *)
Definition strval_text (v : strval) : pystr :=
  match v with
  | Str s => s
  | PyNone => []
  end.

Definition amount_text (float_repr : float -> pystr) (a : number) : pystr :=
  match a with
  | Int z => str_of_Z z
  | Float x => float_repr x
  end.

Definition record_fields (float_repr : float -> pystr) (t : transaction)
  : pystr * pystr * pystr :=
  (strval_text (date t), strval_text (category t),
   amount_text float_repr (amount t)).

(** The file of a ledger: the header line, then one line for each
    record, every line ended by CR LF. *)
Definition csv_text (float_repr : float -> pystr)
  (transaction_list : list transaction) : pystr :=
  concat (map crlf_line
            (header3 :: map (record_fields float_repr) transaction_list)).

(** A record whose three fields csv writes as they are, none of them
    empty, quoted or too long, and whose amount, when it is an int, is
    a binary64 value. *)
Definition storable (float_repr : float -> pystr) (t : transaction) : Prop :=
  plain3 (record_fields float_repr t) /\
  match amount t with
  | Int z => whole_double z
  | Float _ => True
  end.

(** [str(y)] of a float amount is read back by [float()] as [y]. *)
Definition repr_reads_back (float_repr : float -> pystr) (t : transaction)
  : Prop :=
  match amount t with
  | Int _ => True
  | Float y => py_float (float_repr y) = Return y
  end.

(** [l] is [t] with its amount made a float by [float()]. *)
Definition as_float (t l : transaction) : Prop :=
  date l = date t /\ category l = category t /\
  exists x, float_of_number (amount t) = Return x /\ amount l = Float x.

(** The record [load_from_csv] makes of a line of three fields. *)
Definition record_of_fields (f : pystr * pystr * pystr) (x : float)
  : transaction :=
  let '(d, c, _) := f in mkTransaction (Str d) (Str c) (Float x).

Definition third (f : pystr * pystr * pystr) : pystr := snd f.

(** *** Amounts that are drawn *)

(** An amount [float()] converts: a float, or an int that is a
    binary64 value. *)
Definition chartable (t : transaction) : Prop :=
  match amount t with
  | Int z => whole_double z
  | Float _ => True
  end.

(** The amount of a record entered by the user. *)
Definition int_amount (t : transaction) : Z :=
  match amount t with
  | Int z => z
  | Float _ => 0%Z
  end.

Definition sum_Z (zs : list Z) : Z := fold_right Z.add 0%Z zs.

(** The sum, as integers, of the amounts of a category. *)
Definition int_total (c : strval) (transaction_list : list transaction) : Z :=
  sum_Z (map int_amount
           (filter (fun t => strval_eqb (category t) c) transaction_list)).

(** The sum of the sizes of the amounts. *)
Definition abs_total (transaction_list : list transaction) : Z :=
  sum_Z (map (fun t => Z.abs (int_amount t)) transaction_list).

(** *** Runs *)

(** The ledger and the world in which a run stands or has ended. *)
Definition ledger (o : outcome) : list transaction :=
  match o with
  | Exited transactions _ => transactions
  | Uncaught _ transactions _ => transactions
  | Running transactions _ => transactions
  end.

Definition world_of (o : outcome) : world :=
  match o with
  | Exited _ w => w
  | Uncaught _ _ w => w
  | Running _ w => w
  end.

(** The CSV file holds the ledger, or nothing was registered yet and
    the file is as it was at the start. *)
Definition file_kept (float_repr : float -> pystr)
  (transactions0 : list transaction) (fs0 : filesystem)
  (transactions : list transaction) (fs : filesystem) : Prop :=
  (transactions = transactions0 /\
   fs_get fs csv_name = fs_get fs0 csv_name) \/
  fs_get fs csv_name = Some (TextFile (csv_text float_repr transactions)).

(** A first run: one registration, then the menu entry 5. *)
Definition example_run : world :=
  mkWorld [u8 "1"; u8 "2025/01/01"; u8 "1"; u8 "100"; u8 "5"] [] [].

(** A file whose only data line holds no date and no category of the
    program. *)
Definition example_fields : pystr * pystr * pystr :=
  (u8 "someday", u8 "whatever", u8 "1e3").

Definition example_file : pystr :=
  concat (map crlf_line [header3; example_fields]).


(** Three amounts of one category whose float sum depends on the
    order in which they are added. *)
Definition rounding_ledger : list transaction :=
  [mkTransaction (Str (u8 "2025/01/01")) (Str (u8 "食費")) (Int (2 ^ 53));
   mkTransaction (Str (u8 "2025/01/02")) (Str (u8 "食費")) (Int 1);
   mkTransaction (Str (u8 "2025/01/03")) (Str (u8 "食費")) (Int 1)].

(** A system on which no file can be opened for writing. *)
Definition permission_denied : exn :=
  mkExn (LibraryError (u8 "PermissionError")) (u8 "[Errno 13] Permission denied").
Definition read_only (path : pystr) : option exn := Some permission_denied.

(** *** Line ends *)

(** The three ways a line of a text file ends. *)
Inductive newline := CRLF | LF | CR.

Definition ending (n : newline) : pystr :=
  match n with
  | CRLF => [ch_cr; ch_lf]
  | LF => [ch_lf]
  | CR => [ch_cr]
  end.

(** A line of three fields with its line end. *)
Definition ended_line (p : pystr * pystr * pystr * newline) : pystr :=
  line_body (fst p) ++ ending (snd p).

(** *** Columns *)

(** The six orders in which a file can hold the three columns. *)
Inductive column_order := DCA | DAC | CDA | CAD | ADC | ACD.

Definition arrange (o : column_order) (f : pystr * pystr * pystr)
  : pystr * pystr * pystr :=
  let '(d, c, a) := f in
  match o with
  | DCA => (d, c, a)
  | DAC => (d, a, c)
  | CDA => (c, d, a)
  | CAD => (c, a, d)
  | ADC => (a, d, c)
  | ACD => (a, c, d)
  end.

(** *** Fields that csv may have to quote *)

(** A character that is no line break and that UTF-8 encodes. *)
Definition text_char (c : char) : bool :=
  negb (is_newline c) && utf8_encodable c.

(** A field without line breaks, within the field size limit of the
    reader; it may be empty and may hold commas and quotes. *)
Definition textb (s : pystr) : bool :=
  forallb text_char s && (N.of_nat (length s) <=? field_limit)%N.

Definition text_field (s : pystr) : Prop := textb s = true.

Definition text3 (f : pystr * pystr * pystr) : Prop :=
  let '(d, c, s) := f in text_field d /\ text_field c /\ text_field s.

(** The line csv writes for three fields, the quoted ones included,
    and the line as the reader gets it. *)
Definition quoted_body (f : pystr * pystr * pystr) : pystr :=
  let '(d, c, s) := f in
  join_append d ++ ch_comma :: join_append c ++ ch_comma :: join_append s.

Definition written_line (f : pystr * pystr * pystr) : pystr :=
  quoted_body f ++ [ch_cr; ch_lf].

Definition read_line (f : pystr * pystr * pystr) : pystr :=
  quoted_body f ++ [ch_lf].

(** A record with a date and a category that are strings, whose three
    fields are such fields, and whose amount [float()] converts. *)
Definition textual (float_repr : float -> pystr) (t : transaction) : Prop :=
  (exists d c, date t = Str d /\ category t = Str c) /\
  text3 (record_fields float_repr t) /\
  chartable t.

(** A record read from a file, with a comma in its date and a quote
    for its category. *)
Definition example_quoted : list transaction :=
  [mkTransaction (Str (u8 "1/2, or 3")) (Str [ch_quote])
     (Float (Finite false 0))].

(** *** Amounts typed with a fraction *)

(** The digits typed, read as an integer without the point and
    scaled by a positive exponent, stay below 2^53: so it is for
    every number typed with at most 15 significant digits. *)
Definition within_double_precision (m e : Z) : Prop :=
  (m * 10 ^ Z.max 0 e < 2 ^ 53)%Z.

(** The number [m / q] lies below the next integer by more than one
    part in 2^53 of that integer. *)
Definition clear_of_next_integer (m q : Z) : Prop :=
  ((m / q + 1) * q < 2 ^ 53 * ((m / q + 1) * q - m))%Z.

(** * Properties *)

(** ** Strings *)

Lemma pystr_eqb_eq (a b : pystr) : pystr_eqb a b = true <-> a = b.
Proof.
  revert b. induction a as [|x a IH]; intros [|y b]; cbn; try easy.
  rewrite andb_true_iff, N.eqb_eq, IH. split.
  - intros [-> ->]. reflexivity.
  - intros [= -> ->]. easy.
Qed.

Lemma pystr_eqb_refl (a : pystr) : pystr_eqb a a = true.
Proof. now apply pystr_eqb_eq. Qed.

(** ** Exceptions of the conversions *)

Lemma py_int_raises_ValueError (text : pystr) (e : exn) :
  py_int text = Raise e -> exn_cls e = ValueError.
Proof.
  unfold py_int, PyLong_FromString, raise.
  destruct (split_sign _) as [negative body].
  destruct (starts_with_underscore body); [intros [= <-]; reflexivity|].
  destruct (scan_digits body false 0 0) as [[[v digits] rest]|];
    [|intros [= <-]; reflexivity].
  destruct (int_max_str_digits <? digits)%nat; [intros [= <-]; reflexivity|].
  destruct (digits =? 0)%nat; [intros [= <-]; reflexivity|].
  destruct (skip_c_spaces rest); [discriminate|intros [= <-]; reflexivity].
Qed.

Lemma py_float_raises_ValueError (text : pystr) (e : exn) :
  py_float text = Raise e -> exn_cls e = ValueError.
Proof.
  unfold py_float, float_from_string, float_error, raise.
  destruct (strip_underscores _ None) as [b|]; [|intros [= <-]; reflexivity].
  destruct (strip_trailing_c_spaces _) as [|c body]; [intros [= <-]; reflexivity|].
  destruct (parse_decimal (c :: body)) as [[[[neg m] e'] [|]]|];
    try discriminate; try (intros [= <-]; reflexivity).
  destruct (parse_inf_or_nan (c :: body)) as [[x [|]]|];
    try discriminate; intros [= <-]; reflexivity.
Qed.

(** ** Category selection *)

Lemma input_category_attempt_in_range (categories : list pystr)
  (text : pystr) (i : Z) :
  py_int text = Return i ->
  (1 <= i <= Z.of_nat (length categories))%Z ->
  exists category,
    nth_error categories (Z.to_nat (i - 1)) = Some category /\
    input_category_attempt categories text = Accepted category.
Proof.
  intros Hi Hrange. unfold input_category_attempt. rewrite Hi.
  replace ((0 <=? i - 1)%Z && (i - 1 <? Z.of_nat (length categories))%Z)
    with true by (symmetry; apply andb_true_iff; split;
                  [apply Z.leb_le | apply Z.ltb_lt]; lia).
  destruct (nth_error categories (Z.to_nat (i - 1))) as [c|] eqn:Hnth.
  - now exists c.
  - apply nth_error_None in Hnth. lia.
Qed.

Lemma input_category_attempt_out_of_range (categories : list pystr)
  (text : pystr) (i : Z) :
  py_int text = Return i ->
  ~ (1 <= i <= Z.of_nat (length categories))%Z ->
  exists notice, input_category_attempt categories text = Rejected notice.
Proof.
  intros Hi Hrange. unfold input_category_attempt. rewrite Hi.
  replace ((0 <=? i - 1)%Z && (i - 1 <? Z.of_nat (length categories))%Z)
    with false.
  - eexists; reflexivity.
  - symmetry. apply andb_false_iff.
    destruct (Z.leb_spec 0 (i - 1)); [right|left; reflexivity].
    apply Z.ltb_ge. lia.
Qed.

Lemma input_category_attempt_not_a_number (categories : list pystr)
  (text : pystr) (e : exn) :
  py_int text = Raise e ->
  exists notice, input_category_attempt categories text = Rejected notice.
Proof.
  intros He. unfold input_category_attempt. rewrite He.
  apply py_int_raises_ValueError in He.
  unfold isinstance_ValueError. rewrite He. eexists; reflexivity.
Qed.

(** C4. For every integer [i] with [1 <= i <= len(categories)], the
    per-attempt check of [input_category] on a line that [int()]
    reads as [i] returns [categories[i-1]]; for every integer outside
    that range, and for every line [int()] does not accept, the
    attempt is rejected with a notice and no category is returned. *)
Theorem input_category_selects (categories : list pystr) (text : pystr) :
  (forall i, py_int text = Return i ->
     (1 <= i <= Z.of_nat (length categories))%Z ->
     exists category,
       nth_error categories (Z.to_nat (i - 1)) = Some category /\
       input_category_attempt categories text = Accepted category) /\
  (forall i, py_int text = Return i ->
     ~ (1 <= i <= Z.of_nat (length categories))%Z ->
     exists notice, input_category_attempt categories text = Rejected notice) /\
  (forall e, py_int text = Raise e ->
     exists notice, input_category_attempt categories text = Rejected notice).
Proof.
  split; [|split]; intros.
  - now apply input_category_attempt_in_range.
  - now apply input_category_attempt_out_of_range with i.
  - now apply input_category_attempt_not_a_number with e.
Qed.


(** ** Decimal numerals *)

Lemma numeral_value_app (ds1 ds2 : pystr) (acc : Z) :
  numeral_value (ds1 ++ ds2) acc = numeral_value ds2 (numeral_value ds1 acc).
Proof. apply fold_left_app. Qed.

Lemma numeral_value_cons (c : char) (ds : pystr) (acc : Z) :
  numeral_value (c :: ds) acc = numeral_value ds (10 * acc + (Z.of_N c - 48))%Z.
Proof. reflexivity. Qed.

Lemma numeral_value_nil (acc : Z) : numeral_value [] acc = acc.
Proof. reflexivity. Qed.

Lemma ascii_digit_in_range (c : char) :
  (48 <= c <= 57)%N -> ascii_digit c = Some (Z.of_N c - 48)%Z.
Proof.
  intros H. unfold ascii_digit.
  replace ((48 <=? c)%N && (c <=? 57)%N) with true.
  - f_equal. lia.
  - symmetry. apply andb_true_iff. split; apply N.leb_le; lia.
Qed.

Lemma ascii_digit_some (c : char) (d : Z) :
  ascii_digit c = Some d -> (48 <= c <= 57)%N /\ d = (Z.of_N c - 48)%Z.
Proof.
  unfold ascii_digit.
  destruct ((48 <=? c)%N && (c <=? 57)%N) eqn:E; [|discriminate].
  apply andb_true_iff in E. destruct E as [E1 E2].
  apply N.leb_le in E1. apply N.leb_le in E2.
  intros [= <-]. split; lia.
Qed.

Lemma dec_digits_S (f : nat) (n : Z) (acc : pystr) :
  dec_digits (S f) n acc =
  if (n <? 10)%Z then (ch_zero + Z.to_N (n mod 10))%N :: acc
  else dec_digits f (n / 10) ((ch_zero + Z.to_N (n mod 10))%N :: acc).
Proof. reflexivity. Qed.

Lemma dec_digits_spec (f : nat) :
  forall n acc, (0 <= n < 2 ^ Z.of_nat (S f))%Z ->
    exists ds, dec_digits (S f) n acc = ds ++ acc /\ ds <> [] /\
               all_digits ds /\ numeral_value ds 0 = n /\
               (length ds <= S f)%nat.
Proof.
  induction f as [|f IH]; intros n acc Hn.
  - exists [(ch_zero + Z.to_N (n mod 10))%N].
    assert (n < 10)%Z by (change (2 ^ Z.of_nat 1)%Z with 2%Z in Hn; lia).
    rewrite dec_digits_S. destruct (Z.ltb_spec n 10); [|lia].
    rewrite Z.mod_small by lia.
    repeat split; try easy.
    all: try (constructor; [|constructor]; unfold ch_zero; lia).
    all: try (rewrite numeral_value_cons, numeral_value_nil; unfold ch_zero; lia).
    all: try (cbn [length]; lia).
  - rewrite dec_digits_S. destruct (Z.ltb_spec n 10).
    + exists [(ch_zero + Z.to_N (n mod 10))%N].
      rewrite Z.mod_small by lia.
      repeat split; try easy.
      all: try (constructor; [|constructor]; unfold ch_zero; lia).
      all: try (rewrite numeral_value_cons, numeral_value_nil; unfold ch_zero; lia).
      all: try (cbn [length]; lia).
    + assert (Hq : (0 <= n / 10 < 2 ^ Z.of_nat (S f))%Z).
      { split; [apply Z.div_pos; lia|].
        apply Z.div_lt_upper_bound; [lia|].
        replace (Z.of_nat (S (S f))) with (Z.of_nat (S f) + 1)%Z in Hn by lia.
        rewrite Z.pow_add_r in Hn by lia. lia. }
      destruct (IH (n / 10)%Z ((ch_zero + Z.to_N (n mod 10))%N :: acc) Hq)
        as (ds & Hds & Hne & Hall & Hval & Hlen).
      exists (ds ++ [(ch_zero + Z.to_N (n mod 10))%N]).
      assert (Hm := Z.mod_pos_bound n 10 ltac:(lia)).
      repeat split.
      * rewrite Hds, <- app_assoc. reflexivity.
      * destruct ds; discriminate.
      * apply Forall_app. split; [exact Hall|].
        constructor; [|constructor]. unfold ch_zero. lia.
      * rewrite numeral_value_app, Hval, numeral_value_cons, numeral_value_nil.
        unfold ch_zero.
        rewrite (Z.div_mod n 10) at 3 by lia. lia.
      * rewrite length_app. cbn [length]. lia.
Qed.

Lemma str_of_nonneg_spec (n : Z) :
  (0 <= n)%Z ->
  all_digits (str_of_nonneg n) /\ str_of_nonneg n <> [] /\
  numeral_value (str_of_nonneg n) 0 = n /\
  (length (str_of_nonneg n) <= S (Z.to_nat (Z.log2 n)))%nat.
Proof.
  intros Hn. unfold str_of_nonneg.
  destruct (dec_digits_spec (Z.to_nat (Z.log2 n)) (n := n) [])
    as (ds & Hds & Hne & Hall & Hval & Hlen).
  - split; [exact Hn|].
    destruct (Z.eq_dec n 0) as [->|]; [reflexivity|].
    replace (Z.of_nat (S (Z.to_nat (Z.log2 n)))) with (Z.succ (Z.log2 n))
      by (pose proof (Z.log2_nonneg n); lia).
    apply Z.log2_spec. lia.
  - rewrite app_nil_r in Hds. rewrite Hds. tauto.
Qed.

Lemma scan_digits_numeral (ds rest : pystr) :
  all_digits ds ->
  forall acc n,
    scan_digits (ds ++ rest) false acc n =
    match ds with
    | [] => scan_digits rest false acc n
    | _ => scan_digits rest false (numeral_value ds acc) (length ds + n)
    end.
Proof.
  induction 1 as [|c ds Hc Hds IH]; intros acc n; [reflexivity|].
  cbn [app scan_digits].
  destruct (N.eqb_spec c ch_underscore) as [->|_]; [unfold ch_underscore in Hc; lia|].
  rewrite (ascii_digit_in_range Hc), IH, numeral_value_cons.
  destruct ds; cbn [length]; [reflexivity|].
  f_equal. lia.
Qed.

Lemma span_digits_numeral (ds rest : pystr) :
  all_digits ds ->
  forall acc n,
    span_digits (ds ++ rest) acc n =
    span_digits rest (numeral_value ds acc) (n + Z.of_nat (length ds)).
Proof.
  induction 1 as [|c ds Hc Hds IH]; intros acc n.
  - cbn. f_equal. lia.
  - cbn [app span_digits].
    rewrite (ascii_digit_in_range Hc), IH, numeral_value_cons.
    cbn [length]. f_equal. lia.
Qed.


Lemma transform_ascii (s : pystr) :
  Forall (fun c => (c < 128)%N) s -> transform_decimal_and_space s = s.
Proof.
  intros H. unfold transform_decimal_and_space.
  replace (forallb (fun c => (c <? 128)%N) s) with true; [reflexivity|].
  symmetry. apply forallb_forall. intros c Hc.
  rewrite Forall_forall in H. apply N.ltb_lt. now apply H.
Qed.

Lemma all_digits_ascii (ds : pystr) :
  all_digits ds -> Forall (fun c => (c < 128)%N) ds.
Proof. apply Forall_impl. intros c Hc. lia. Qed.

Lemma skip_c_spaces_digit (c : char) (s : pystr) :
  (48 <= c <= 57)%N -> skip_c_spaces (c :: s) = c :: s.
Proof.
  intros Hc. cbn [skip_c_spaces]. unfold c_isspace.
  destruct (N.leb_spec 9 c); destruct (N.leb_spec c 13);
    destruct (N.eqb_spec c 32); try lia; reflexivity.
Qed.

Lemma split_sign_digit (c : char) (s : pystr) :
  (48 <= c <= 57)%N -> split_sign (c :: s) = (false, c :: s).
Proof.
  intros Hc. unfold split_sign, ch_plus, ch_minus.
  destruct (N.eqb_spec c 43); destruct (N.eqb_spec c 45); try lia; reflexivity.
Qed.

Lemma scan_all_digits (ds : pystr) :
  all_digits ds -> ds <> [] ->
  scan_digits ds false 0 0 = Some (numeral_value ds 0, length ds, []).
Proof.
  intros Hall Hne.
  rewrite <- (app_nil_r ds) at 1. rewrite (scan_digits_numeral [] Hall).
  destruct ds; [congruence|]. cbn [scan_digits].
  rewrite Nat.add_0_r. reflexivity.
Qed.

(** [PyLong_FromString] on a decimal numeral, with spaces around it. *)
Lemma PyLong_FromString_numeral (negative : bool) (ds : pystr) :
  all_digits ds -> ds <> [] -> (length ds <= int_max_str_digits)%nat ->
  PyLong_FromString ((if negative then [ch_minus] else []) ++ ds) =
  Return (if negative then - numeral_value ds 0 else numeral_value ds 0)%Z.
Proof.
  intros Hall Hne Hlen. unfold PyLong_FromString.
  destruct ds as [|c ds]; [congruence|].
  assert (Hc : (48 <= c <= 57)%N) by (inversion Hall; assumption).
  assert (Hsign : split_sign (skip_c_spaces ((if negative then [ch_minus] else []) ++ c :: ds))
                  = (negative, c :: ds)).
  { destruct negative; cbn [app].
    - reflexivity.
    - rewrite skip_c_spaces_digit by assumption. now apply split_sign_digit. }
  rewrite Hsign.
  replace (starts_with_underscore (c :: ds)) with false.
  2:{ cbn. unfold ch_underscore. symmetry. apply N.eqb_neq. lia. }
  rewrite scan_all_digits by assumption.
  destruct (Nat.ltb_spec int_max_str_digits (length (c :: ds))); [lia|].
  reflexivity.
Qed.

Lemma py_int_numeral (negative : bool) (ds : pystr) :
  all_digits ds -> ds <> [] -> (length ds <= int_max_str_digits)%nat ->
  py_int ((if negative then [ch_minus] else []) ++ ds) =
  Return (if negative then - numeral_value ds 0 else numeral_value ds 0)%Z.
Proof.
  intros Hall Hne Hlen. unfold py_int.
  rewrite transform_ascii; [now apply PyLong_FromString_numeral|].
  apply Forall_app. split; [|now apply all_digits_ascii].
  destruct negative; repeat constructor.
Qed.

Lemma str_of_Z_sign (z : Z) :
  str_of_Z z = (if (z <? 0)%Z then [ch_minus] else []) ++ str_of_nonneg (Z.abs z).
Proof.
  unfold str_of_Z. destruct (Z.ltb_spec z 0).
  - rewrite Z.abs_neq by lia. reflexivity.
  - rewrite Z.abs_eq by lia. reflexivity.
Qed.

(** [int(str(i)) == i] *)
Lemma py_int_str_of_Z (z : Z) :
  (length (str_of_nonneg (Z.abs z)) <= int_max_str_digits)%nat ->
  py_int (str_of_Z z) = Return z.
Proof.
  intros Hlen.
  destruct (str_of_nonneg_spec (Z.abs_nonneg z)) as (Hall & Hne & Hval & _).
  rewrite str_of_Z_sign, py_int_numeral, Hval by assumption.
  f_equal. destruct (Z.ltb_spec z 0); lia.
Qed.


(** ** Rounding to binary64 *)

Lemma rne_div_exact (a q : Z) : (0 < q)%Z -> rne_div (a * q) q = a.
Proof.
  intros Hq. unfold rne_div.
  rewrite Z.div_mul, Z.mod_mul by lia.
  destruct (Z.ltb_spec (2 * 0) q); [reflexivity|lia].
Qed.

Lemma rne_div_bounds (p q : Z) :
  (0 <= p)%Z -> (0 < q)%Z -> (p / q <= rne_div p q <= p / q + 1)%Z.
Proof.
  intros Hp Hq. unfold rne_div.
  destruct (2 * (p mod q) <? q)%Z; [lia|].
  destruct (q <? 2 * (p mod q))%Z; [lia|].
  destruct (Z.even (p / q)); lia.
Qed.

Lemma round53_exact (k : Z) : sig53 k -> round53 k 1 = k.
Proof.
  intros (a & t & -> & Ha & Ht). unfold round53.
  rewrite Z.div_1_r, Z.mul_1_l.
  destruct (Z.eq_dec a 0) as [->|Hnz].
  - rewrite Z.mul_0_l. cbn. reflexivity.
  - set (s := Z.max 0 (Z.log2 (a * 2 ^ t) - 52)).
    assert (Hs : (0 <= s <= t)%Z).
    { subst s. rewrite Z.log2_mul_pow2 by lia.
      assert (Z.log2 a < 53)%Z by (apply Z.log2_lt_pow2; lia). lia. }
    replace (a * 2 ^ t)%Z with (a * 2 ^ (t - s) * 2 ^ s)%Z at 1.
    + rewrite rne_div_exact by (apply Z.pow_pos_nonneg; lia).
      rewrite <- Z.mul_assoc, <- Z.pow_add_r by lia.
      do 2 f_equal. lia.
    + rewrite <- Z.mul_assoc, <- Z.pow_add_r by lia.
      do 2 f_equal. lia.
Qed.

Lemma round53_sig53 (p q : Z) :
  (0 <= p)%Z -> (0 < q)%Z -> sig53 (round53 p q) /\ (0 <= round53 p q)%Z.
Proof.
  intros Hp Hq. unfold round53.
  set (n := (p / q)%Z).
  assert (Hn : (0 <= n)%Z) by (apply Z.div_pos; lia).
  set (s := Z.max 0 (Z.log2 n - 52)).
  assert (Hs : (0 <= s)%Z) by lia.
  assert (H2s : (0 < 2 ^ s)%Z) by (apply Z.pow_pos_nonneg; lia).
  assert (Hfloor : (p / (q * 2 ^ s) < 2 ^ 53)%Z).
  { rewrite <- Z.div_div by lia. fold n.
    apply Z.div_lt_upper_bound; [lia|].
    destruct (Z.eq_dec n 0) as [->|Hnz]; [lia|].
    rewrite <- Z.pow_add_r by lia.
    apply Z.log2_lt_pow2; lia. }
  assert (Hfloor0 : (0 <= p / (q * 2 ^ s))%Z) by (apply Z.div_pos; lia).
  pose proof (rne_div_bounds (q := q * 2 ^ s) Hp ltac:(lia)) as Hr.
  set (r := rne_div p (q * 2 ^ s)) in *.
  split; [|apply Z.mul_nonneg_nonneg; lia].
  destruct (Z.eq_dec r (2 ^ 53)) as [E|NE].
  - exists (2 ^ 52)%Z, (s + 1)%Z. rewrite E. split; [|lia].
    rewrite Z.pow_add_r by lia. lia.
  - exists r, s. lia.
Qed.

(** The integral part of a 53-bit value is a 53-bit value. *)
Lemma sig53_trunc (k : Z) :
  (0 <= k)%Z -> sig53 k -> sig53 (k / one_in_units * one_in_units).
Proof.
  intros Hk (a & t & -> & Ha & Ht). unfold one_in_units, unit_exp.
  destruct (Z.le_gt_cases 1074 t) as [Hge|Hlt].
  - exists a, t. split; [|lia].
    replace (2 ^ t)%Z with (2 ^ (t - 1074) * 2 ^ 1074)%Z
      by (rewrite <- Z.pow_add_r by lia; f_equal; lia).
    rewrite Z.mul_assoc, Z.div_mul by lia. reflexivity.
  - exists (a * 2 ^ t / 2 ^ 1074)%Z, 1074%Z. split; [reflexivity|].
    split; [|lia]. split; [apply Z.div_pos; lia|].
    apply Z.div_lt_upper_bound; [lia|].
    assert (2 ^ t < 2 ^ 1074)%Z by (apply Z.pow_lt_mono_r; lia).
    nia.
Qed.

Lemma float_of_ratio_wf (neg : bool) (p q : Z) :
  (0 <= p)%Z -> (0 < q)%Z -> float_wf (float_of_ratio neg p q).
Proof.
  intros Hp Hq. unfold float_of_ratio.
  destruct (round53_sig53 Hp Hq) as [Hsig H0].
  destruct (Z.leb_spec overflow_threshold (round53 p q)); cbn [float_wf];
    [exact I|].
  split; [exact Hsig|lia].
Qed.

Lemma float_of_ratio_exact (neg : bool) (k : Z) :
  sig53 k -> (0 <= k < overflow_threshold)%Z ->
  float_of_ratio neg k 1 = Finite neg k.
Proof.
  intros Hsig Hk. unfold float_of_ratio. rewrite round53_exact by assumption.
  destruct (Z.leb_spec overflow_threshold k); [lia|reflexivity].
Qed.


(** ** float() *)

Lemma span_digits_nonneg (s : pystr) :
  forall acc n, (0 <= acc)%Z -> (0 <= fst (fst (span_digits s acc n)))%Z.
Proof.
  induction s as [|c s IH]; intros acc n Hacc; [exact Hacc|].
  cbn [span_digits]. destruct (ascii_digit c) as [d|] eqn:E; [|exact Hacc].
  apply IH. apply ascii_digit_some in E. lia.
Qed.

Lemma parse_decimal_nonneg (s rest : pystr) (neg : bool) (m e : Z) :
  parse_decimal s = Some (neg, m, e, rest) -> (0 <= m)%Z.
Proof.
  unfold parse_decimal.
  destruct (split_sign s) as [sg s1].
  pose proof (span_digits_nonneg s1 0 (acc := 0%Z) ltac:(lia)) as H1.
  destruct (span_digits s1 0 0) as [[ip ni] s2]. cbn [fst] in H1.
  assert (Hm : forall m' nf s3,
    match s2 with
    | c :: s2' => if (c =? ch_dot)%N then span_digits s2' ip 0 else (ip, 0%Z, s2)
    | [] => (ip, 0%Z, s2)
    end = (m', nf, s3) -> (0 <= m')%Z).
  { intros m' nf s3. destruct s2 as [|c s2'].
    - intros [= <- _ _]. exact H1.
    - destruct (c =? ch_dot)%N.
      + intros E. pose proof (span_digits_nonneg s2' 0 H1) as H2.
        rewrite E in H2. exact H2.
      + intros [= <- _ _]. exact H1. }
  destruct (match s2 with
            | c :: s2' => if (c =? ch_dot)%N then span_digits s2' ip 0 else (ip, 0%Z, s2)
            | [] => (ip, 0%Z, s2)
            end) as [[m' nf] s3] eqn:E.
  specialize (Hm _ _ _ eq_refl).
  destruct (ni + nf =? 0)%Z; [discriminate|].
  destruct s3 as [|c s4]; [intros [= _ <- _ _]; exact Hm|].
  destruct (is_e c); [|intros [= _ <- _ _]; exact Hm].
  destruct (split_sign s4) as [eneg s5].
  destruct (span_digits s5 0 0) as [[ev ne] s6].
  destruct (ne =? 0)%Z; intros [= _ <- _ _]; exact Hm.
Qed.

Lemma float_of_decimal_wf (neg : bool) (m e : Z) :
  (0 <= m)%Z -> float_wf (float_of_decimal neg m e).
Proof.
  intros Hm. unfold float_of_decimal, one_in_units, unit_exp.
  destruct (Z.leb_spec 0 e); apply float_of_ratio_wf; lia.
Qed.

Lemma py_float_wf (text : pystr) (x : float) :
  py_float text = Return x -> float_wf x.
Proof.
  unfold py_float, float_from_string, float_error, raise.
  destruct (strip_underscores _ None) as [b|]; [|discriminate].
  destruct (strip_trailing_c_spaces _) as [|c body]; [discriminate|].
  destruct (parse_decimal (c :: body)) as [[[[neg m] e'] [|]]|] eqn:E;
    try discriminate.
  - intros [= <-]. apply float_of_decimal_wf.
    now apply parse_decimal_nonneg in E.
  - unfold parse_inf_or_nan.
    destruct (split_sign (c :: body)) as [sg s1].
    destruct (match_word (u8 "inf") s1) as [s2|].
    + destruct (match_word (u8 "inity") s2) as [[|]|]; destruct s2;
        try discriminate; intros [= <-]; exact I.
    + destruct (match_word (u8 "nan") s1) as [[|]|]; try discriminate.
      intros [= <-]. exact I.
Qed.

Lemma one_in_units_pos : (0 < one_in_units)%Z.
Proof. unfold one_in_units, unit_exp. apply Z.pow_pos_nonneg; lia. Qed.

Lemma int_of_float_whole (x : float) (z : Z) :
  float_wf x -> int_of_float x = Return z -> whole_double z.
Proof.
  destruct x as [neg k| |]; try discriminate.
  intros [Hsig Hk] [= <-]. pose proof one_in_units_pos as H1.
  assert (Habs : Z.abs (if neg then - (k / one_in_units) else k / one_in_units)
                 = (k / one_in_units)%Z).
  { assert (0 <= k / one_in_units)%Z by (apply Z.div_pos; lia).
    destruct neg; lia. }
  unfold whole_double. rewrite Habs. split.
  - apply sig53_trunc; [lia|assumption].
  - pose proof (Z.mul_div_le k one_in_units H1). lia.
Qed.

Lemma input_amount_attempt_accepts (text : pystr) (z : Z) :
  input_amount_attempt text = Accepted z ->
  exists x, py_float text = Return x /\ int_of_float x = Return z.
Proof.
  unfold input_amount_attempt, bind.
  destruct (py_float text) as [x|e].
  - destruct (int_of_float x) as [z'|e] eqn:E.
    + intros [= <-]. now exists x.
    + destruct (isinstance_ValueError e); discriminate.
  - destruct (isinstance_ValueError e); discriminate.
Qed.

(** What [input_amount] returns is an integer that is a binary64
    value. *)
Lemma input_amount_attempt_whole (text : pystr) (z : Z) :
  input_amount_attempt text = Accepted z -> whole_double z.
Proof.
  intros H. apply input_amount_attempt_accepts in H.
  destruct H as (x & Hx & Hz).
  eapply int_of_float_whole; [|exact Hz]. eapply py_float_wf; exact Hx.
Qed.


Lemma strip_underscores_none (s : pystr) :
  Forall (fun c => c <> ch_underscore) s ->
  forall prev, prev <> Some ch_underscore ->
    strip_underscores s prev = Some s.
Proof.
  induction 1 as [|c s Hc Hs IH]; intros prev Hprev.
  - destruct prev as [p|]; [|reflexivity]. cbn [strip_underscores].
    destruct (N.eqb_spec p ch_underscore) as [E|_]; [|reflexivity].
    exfalso. apply Hprev. now f_equal.
  - cbn [strip_underscores].
    destruct (N.eqb_spec c ch_underscore); [contradiction|].
    replace (match prev with Some p => (p =? ch_underscore)%N | None => false end)
      with false.
    + cbn [andb]. rewrite IH by congruence. reflexivity.
    + destruct prev as [p|]; [|reflexivity].
      symmetry. apply N.eqb_neq. intros E. apply Hprev. now f_equal.
Qed.

Lemma strip_trailing_digit (s : pystr) (c : char) :
  (48 <= c <= 57)%N -> strip_trailing_c_spaces (s ++ [c]) = s ++ [c].
Proof.
  intros Hc. unfold strip_trailing_c_spaces.
  rewrite rev_app_distr. cbn [rev app].
  rewrite skip_c_spaces_digit by assumption.
  cbn [rev]. rewrite rev_involutive. reflexivity.
Qed.

Lemma parse_decimal_numeral (negative : bool) (ds : pystr) :
  all_digits ds -> ds <> [] ->
  parse_decimal ((if negative then [ch_minus] else []) ++ ds) =
  Some (negative, numeral_value ds 0, 0%Z, []).
Proof.
  intros Hall Hne. unfold parse_decimal.
  assert (Hsign : split_sign ((if negative then [ch_minus] else []) ++ ds)
                  = (negative, ds)).
  { destruct negative; [reflexivity|]. cbn [app].
    destruct ds as [|c ds]; [congruence|].
    apply split_sign_digit. now inversion Hall. }
  rewrite Hsign.
  rewrite <- (app_nil_r ds) at 1. rewrite span_digits_numeral by assumption.
  cbn [span_digits].
  destruct (Z.eqb_spec (0 + Z.of_nat (length ds) + 0) 0) as [E|_].
  - destruct ds; [congruence|]. cbn [length] in E. lia.
  - reflexivity.
Qed.

(** [float()] on the decimal numeral of an integer. *)
Lemma py_float_numeral (negative : bool) (ds : pystr) :
  all_digits ds -> ds <> [] ->
  py_float ((if negative then [ch_minus] else []) ++ ds) =
  Return (float_of_decimal negative (numeral_value ds 0) 0).
Proof.
  intros Hall Hne. unfold py_float, float_from_string.
  set (s := (if negative then [ch_minus] else []) ++ ds).
  assert (Hs : Forall (fun c => (48 <= c <= 57)%N \/ c = ch_minus) s).
  { subst s. apply Forall_app. split.
    - destruct negative; [constructor; [now right|constructor]|constructor].
    - revert Hall. apply Forall_impl. intros; now left. }
  rewrite transform_ascii.
  2:{ revert Hs. apply Forall_impl. unfold ch_minus. intros c [H| ->]; lia. }
  rewrite strip_underscores_none; [| |discriminate].
  2:{ revert Hs. apply Forall_impl. unfold ch_minus, ch_underscore.
      intros c [H| ->]; lia. }
  assert (Hskip : skip_c_spaces s = s).
  { subst s. destruct negative; cbn [app]; [reflexivity|].
    destruct ds as [|c ds]; [congruence|].
    apply skip_c_spaces_digit. now inversion Hall. }
  rewrite Hskip.
  destruct (exists_last Hne) as (ds' & c & Eds).
  assert (Hc : (48 <= c <= 57)%N).
  { rewrite Eds in Hall. apply Forall_app in Hall.
    destruct Hall as [_ Hall]. now inversion Hall. }
  assert (Hstrip : strip_trailing_c_spaces s = s).
  { subst s. rewrite Eds, app_assoc. now apply strip_trailing_digit. }
  rewrite Hstrip.
  assert (Hcons : exists c0 s0, s = c0 :: s0).
  { subst s. destruct negative; cbn [app]; [now eexists; eexists|].
    destruct ds; [congruence|]. now eexists; eexists. }
  destruct Hcons as (c0 & s0 & Es). rewrite Es, <- Es.
  subst s. rewrite parse_decimal_numeral by assumption. reflexivity.
Qed.

Lemma float_of_decimal_whole (negative : bool) (n : Z) :
  (0 <= n)%Z -> sig53 (n * one_in_units) ->
  (n * one_in_units < overflow_threshold)%Z ->
  float_of_decimal negative n 0 = Finite negative (n * one_in_units).
Proof.
  intros Hn Hsig Hlt. unfold float_of_decimal.
  change (0 <=? 0)%Z with true. cbv iota.
  change (10 ^ 0)%Z with 1%Z. rewrite Z.mul_1_r.
  apply float_of_ratio_exact; [assumption|].
  pose proof one_in_units_pos. split; [apply Z.mul_nonneg_nonneg|]; lia.
Qed.

(** [float(str(i))] for an integer that is a binary64 value. *)
Lemma py_float_str_of_Z (z : Z) :
  whole_double z ->
  py_float (str_of_Z z) = Return (Finite (z <? 0)%Z (Z.abs z * one_in_units)).
Proof.
  intros [Hsig Hlt].
  destruct (str_of_nonneg_spec (Z.abs_nonneg z)) as (Hall & Hne & Hval & _).
  rewrite str_of_Z_sign, py_float_numeral, Hval by assumption.
  rewrite float_of_decimal_whole by (try assumption; lia). reflexivity.
Qed.

Lemma number_eqb_int_float (z : Z) :
  number_eqb (Int z) (Float (Finite (z <? 0)%Z (Z.abs z * one_in_units))) = true.
Proof.
  unfold number_eqb, units_of_float. apply Z.eqb_eq.
  destruct (Z.ltb_spec z 0); lia.
Qed.


(** ** Unicode decimal digits *)

Lemma unicode_decimal_spec (c : char) (v : Z) :
  unicode_decimal c = Some v ->
  exists z, In z decimal_zeros /\ (z <= c < z + 10)%N /\ v = Z.of_N (c - z).
Proof.
  unfold unicode_decimal.
  destruct (find _ decimal_zeros) as [z|] eqn:E; [|discriminate].
  intros [= <-]. apply find_some in E. destruct E as [Hin Htest].
  apply andb_true_iff in Htest. destruct Htest as [H1 H2].
  apply N.leb_le in H1. apply N.ltb_lt in H2.
  exists z. repeat split; assumption.
Qed.

Lemma unicode_decimal_range (c : char) (v : Z) :
  unicode_decimal c = Some v -> (0 <= v <= 9)%Z.
Proof.
  intros H. apply unicode_decimal_spec in H.
  destruct H as (z & _ & Hz & ->). lia.
Qed.

Lemma decimal_zeros_tail_large :
  forallb (fun z => (0x660 <=? z)%N) (tl decimal_zeros) = true.
Proof. vm_compute. reflexivity. Qed.

Lemma decimal_zeros_not_surrogates :
  forallb (fun z => (z + 10 <=? 0xD800)%N || (0xDFFF <? z)%N) decimal_zeros = true.
Proof. vm_compute. reflexivity. Qed.

Lemma unicode_decimal_ascii (c : char) :
  (c < 128)%N -> unicode_decimal c = ascii_digit c.
Proof.
  intros Hc. unfold unicode_decimal, ascii_digit.
  change decimal_zeros with (48%N :: tl decimal_zeros). cbn [find].
  destruct (N.leb_spec 48 c); destruct (N.ltb_spec c (48 + 10));
    destruct (N.leb_spec c 57); cbn [andb]; try lia; try reflexivity.
  all: destruct (find _ (tl decimal_zeros)) as [z|] eqn:E; [|reflexivity].
  all: apply find_some in E; destruct E as [Hin Htest].
  all: pose proof decimal_zeros_tail_large as Hl.
  all: rewrite forallb_forall in Hl; apply Hl in Hin.
  all: apply andb_true_iff in Htest; destruct Htest as [Hz1 Hz2].
  all: apply N.leb_le in Hz1, Hin; lia.
Qed.

Lemma unicode_decimal_of_ascii_digit (c : char) :
  (48 <= c <= 57)%N -> unicode_decimal c = Some (Z.of_N c - 48)%Z.
Proof.
  intros Hc. rewrite unicode_decimal_ascii by lia.
  now apply ascii_digit_in_range.
Qed.

Lemma unicode_decimal_not_space (c : char) (v : Z) :
  unicode_decimal c = Some v -> unicode_isspace c = false.
Proof.
  intros H. destruct (unicode_isspace c) eqn:E; [|reflexivity].
  unfold unicode_isspace in E. apply existsb_exists in E.
  destruct E as (x & Hin & Heq). apply N.eqb_eq in Heq. subst x.
  cbn [In] in Hin.
  repeat (destruct Hin as [<-|Hin]; [vm_compute in H; discriminate|]).
  contradiction.
Qed.

Lemma unicode_decimal_encodable (c : char) (v : Z) :
  unicode_decimal c = Some v -> utf8_encodable c = true.
Proof.
  intros H. apply unicode_decimal_spec in H.
  destruct H as (z & Hin & Hz & _).
  pose proof decimal_zeros_not_surrogates as Hs.
  rewrite forallb_forall in Hs. apply Hs in Hin.
  unfold utf8_encodable. apply negb_true_iff, andb_false_iff.
  apply orb_true_iff in Hin. destruct Hin as [H1|H1].
  - apply N.leb_le in H1. left. apply N.leb_gt. lia.
  - apply N.ltb_lt in H1. right. apply N.leb_gt. lia.
Qed.

Lemma unicode_decimal_not_special (c : char) (v : Z) :
  unicode_decimal c = Some v -> csv_special c = false.
Proof.
  intros H. unfold csv_special, ch_comma, ch_quote, ch_cr, ch_lf.
  destruct (N.lt_ge_cases c 128) as [Hlt|Hge].
  - rewrite unicode_decimal_ascii in H by assumption.
    apply ascii_digit_some in H. destruct H as [H _].
    destruct (N.eqb_spec c 44); destruct (N.eqb_spec c 34);
      destruct (N.eqb_spec c 13); destruct (N.eqb_spec c 10);
      try lia; reflexivity.
  - destruct (N.eqb_spec c 44); destruct (N.eqb_spec c 34);
      destruct (N.eqb_spec c 13); destruct (N.eqb_spec c 10);
      try lia; reflexivity.
Qed.

Lemma transform_loop_decimals (cs : pystr) (vs : list Z) :
  decimal_chars cs vs -> transform_loop cs = map digit_char vs.
Proof.
  induction 1 as [|c v cs vs Hc Hcs IH]; [reflexivity|].
  cbn [transform_loop map]. rewrite IH.
  destruct (N.ltb_spec c 127).
  - rewrite unicode_decimal_ascii in Hc by lia.
    apply ascii_digit_some in Hc. destruct Hc as [Hr ->].
    f_equal. unfold digit_char, ch_zero. lia.
  - rewrite (unicode_decimal_not_space _ Hc), Hc. reflexivity.
Qed.

Lemma transform_decimals (cs : pystr) (vs : list Z) :
  decimal_chars cs vs ->
  transform_decimal_and_space cs = map digit_char vs.
Proof.
  intros H. unfold transform_decimal_and_space.
  destruct (forallb (fun c => (c <? 128)%N) cs) eqn:E;
    [|now apply transform_loop_decimals].
  rewrite forallb_forall in E.
  induction H as [|c v cs vs Hc Hcs IH]; [reflexivity|].
  cbn [map]. f_equal.
  - assert (Hlt : (c < 128)%N) by (apply N.ltb_lt, E; now left).
    rewrite unicode_decimal_ascii in Hc by assumption.
    apply ascii_digit_some in Hc. destruct Hc as [Hr ->].
    unfold digit_char, ch_zero. lia.
  - apply IH. intros x Hx. apply E. now right.
Qed.

Lemma digit_chars_spec (vs : list Z) :
  Forall (fun v => (0 <= v <= 9)%Z) vs ->
  all_digits (map digit_char vs) /\
  forall acc, numeral_value (map digit_char vs) acc =
              fold_left (fun a v => (10 * a + v)%Z) vs acc.
Proof.
  induction 1 as [|v vs Hv Hvs [IH1 IH2]]; [split; [constructor|reflexivity]|].
  split.
  - constructor; [unfold digit_char, ch_zero; lia|exact IH1].
  - intros acc. cbn [map fold_left]. rewrite numeral_value_cons, IH2.
    f_equal. unfold digit_char, ch_zero. lia.
Qed.

Lemma decimal_chars_range (cs : pystr) (vs : list Z) :
  decimal_chars cs vs -> Forall (fun v => (0 <= v <= 9)%Z) vs.
Proof.
  induction 1; constructor; [|assumption].
  eapply unicode_decimal_range; eassumption.
Qed.

(** [int()] on a run of Unicode decimal digits. *)
Lemma py_int_decimals (cs : pystr) (vs : list Z) :
  decimal_chars cs vs -> cs <> [] -> (length cs <= int_max_str_digits)%nat ->
  py_int cs = Return (digits_value vs).
Proof.
  intros H Hne Hlen. unfold py_int. rewrite (transform_decimals H).
  destruct (digit_chars_spec (decimal_chars_range H)) as [Hall Hval].
  assert (Hlen' : length (map digit_char vs) = length cs).
  { rewrite length_map. symmetry. eapply Forall2_length; eassumption. }
  assert (Hne' : map digit_char vs <> []).
  { intros E. apply Hne. apply length_zero_iff_nil.
    rewrite <- Hlen', E. reflexivity. }
  rewrite <- Hlen' in Hlen.
  pose proof (PyLong_FromString_numeral false Hall Hne' Hlen) as P.
  cbn [app] in P. rewrite P, Hval. reflexivity.
Qed.


(** ** Dates *)

Ltac bool_facts :=
  repeat match goal with
  | H : (_ && _) = true |- _ => apply andb_true_iff in H; destruct H
  | H : (_ =? _)%N = true |- _ => apply N.eqb_eq in H
  | H : (_ =? _)%N = false |- _ => apply N.eqb_neq in H
  | H : (_ <=? _)%N = true |- _ => apply N.leb_le in H
  | H : (_ <=? _)%N = false |- _ => apply N.leb_gt in H
  | H : unicode_isdecimal ?u = true |- _ =>
    unfold unicode_isdecimal in H;
    let v := fresh "v" in let E := fresh "E" in
    destruct (unicode_decimal u) as [v|] eqn:E; [clear H|discriminate H]
  end.

(** Walks through a match of the pattern on an unknown string. *)
Ltac re_walk H :=
  repeat (cbn [re_match app] in H;
    match type of H with
    | context [match ?s with [] => _ | _ :: _ => _ end] =>
      is_var s; destruct s; try discriminate H
    | context [if ?b then _ else _] =>
      let E := fresh "E" in destruct b eqn:E; try discriminate H
    end).

Lemma re_Y_inv (A : Type) (s : pystr) (k : pystr -> pystr -> option A) (x : A) :
  re_match re_Y s k = Some x ->
  exists gY year rest, s = gY ++ rest /\ year_text gY year /\ k gY rest = Some x.
Proof.
  intros H. unfold re_Y in H. re_walk H. bool_facts.
  eexists [_; _; _; _], _, _. split; [reflexivity|].
  split; [econstructor; eassumption|exact H].
Qed.

Lemma re_slash_inv (A : Type) (s : pystr) (k : pystr -> pystr -> option A) (x : A) :
  re_match (Chr ch_slash) s k = Some x ->
  exists rest, s = ch_slash :: rest /\ k [ch_slash] rest = Some x.
Proof.
  intros H. re_walk H. bool_facts. subst. eexists. split; [reflexivity|exact H].
Qed.

Ltac close_text H ctors :=
  match type of H with
  | ?k ?g ?r = Some _ =>
    exists g; eexists; exists r; split; [reflexivity|];
    split; [|exact H]; ctors; unfold d0, d1, d2, d3, d9 in *; lia
  end.

Lemma re_m_inv (A : Type) (s : pystr) (k : pystr -> pystr -> option A) (x : A) :
  re_match re_m s k = Some x ->
  exists gm month rest, s = gm ++ rest /\ month_text gm month /\ k gm rest = Some x.
Proof.
  intros H. unfold re_m in H. cbn [re_match app] in H.
  destruct s as [|c1 s]; [discriminate H|].
  destruct (c1 =? d1)%N eqn:E1.
  - destruct s as [|c2 s].
    + destruct ((d1 <=? c1)%N && (c1 <=? d9)%N) eqn:E2;
        destruct (c1 =? d0)%N eqn:E3; try discriminate H; bool_facts; subst.
      * unfold d0, d1 in *. lia.
      * close_text H ltac:(apply month_one_digit).
    + destruct ((d0 <=? c2)%N && (c2 <=? d2)%N) eqn:E2.
      * destruct (k [c1; c2] s) eqn:Ek.
        -- injection H as <-. bool_facts. subst.
           close_text Ek ltac:(apply month_ten_to_twelve).
        -- destruct (c1 =? d0)%N eqn:E3.
           ++ bool_facts. subst. unfold d0, d1 in *. lia.
           ++ destruct ((d1 <=? c1)%N && (c1 <=? d9)%N) eqn:E4;
                try discriminate H. bool_facts. subst.
              close_text H ltac:(apply month_one_digit).
      * destruct (c1 =? d0)%N eqn:E3.
        -- bool_facts. subst. unfold d0, d1 in *. lia.
        -- destruct ((d1 <=? c1)%N && (c1 <=? d9)%N) eqn:E4;
             try discriminate H. bool_facts. subst.
           close_text H ltac:(apply month_one_digit).
  - destruct (c1 =? d0)%N eqn:E3.
    + destruct s as [|c2 s].
      * destruct ((d1 <=? c1)%N && (c1 <=? d9)%N) eqn:E4;
          try discriminate H. bool_facts. subst. unfold d0, d1 in *. lia.
      * destruct ((d1 <=? c2)%N && (c2 <=? d9)%N) eqn:E2.
        -- destruct (k [c1; c2] s) eqn:Ek.
           ++ injection H as <-. bool_facts. subst.
              close_text Ek ltac:(apply month_padded).
           ++ destruct ((d1 <=? c1)%N && (c1 <=? d9)%N) eqn:E4;
                try discriminate H. bool_facts. subst. unfold d0, d1 in *. lia.
        -- destruct ((d1 <=? c1)%N && (c1 <=? d9)%N) eqn:E4;
             try discriminate H. bool_facts. subst. unfold d0, d1 in *. lia.
    + destruct ((d1 <=? c1)%N && (c1 <=? d9)%N) eqn:E4;
        try discriminate H. bool_facts.
      close_text H ltac:(apply month_one_digit).
Qed.


Ltac re_walk_alt H :=
  repeat (cbn [re_match app] in H;
    match type of H with
    | context [match ?s with [] => _ | _ :: _ => _ end] =>
      is_var s; destruct s; try discriminate H
    | context [if ?b then _ else _] =>
      let E := fresh "E" in destruct b eqn:E; try discriminate H
    | context [match ?k ?g ?r with Some _ => _ | None => _ end] =>
      is_var k; let Ek := fresh "Ek" in
      destruct (k g r) eqn:Ek; try discriminate H
    end).

Ltac range_goal := unfold d0, d1, d2, d3, d9, ch_space, ch_slash in *; lia.

Ltac day_ctor :=
  first [ apply day_thirty; range_goal
        | eapply day_ten_to_twenty_nine; [range_goal|eassumption]
        | apply day_padded; range_goal
        | apply day_after_space; range_goal
        | apply day_one_digit; range_goal ].

Ltac close_leaf H ctor :=
  bool_facts; subst;
  first
    [ exfalso; range_goal
    | match goal with
      | Ek : ?k ?g ?r = Some ?a, H' : Some ?a = Some _ |- _ =>
        injection H' as <-;
        exists g; eexists; exists r; split; [reflexivity|];
        split; [ctor|exact Ek]
      end
    | match type of H with
      | ?k ?g ?r = Some _ =>
        exists g; eexists; exists r; split; [reflexivity|];
        split; [ctor|exact H]
      end ].

Lemma re_d_inv (A : Type) (s : pystr) (k : pystr -> pystr -> option A) (x : A) :
  re_match re_d s k = Some x ->
  exists gd day rest, s = gd ++ rest /\ day_text gd day /\ k gd rest = Some x.
Proof.
  intros H. unfold re_d in H. re_walk_alt H; close_leaf H day_ctor.
Qed.


Ltac eval_tests :=
  repeat (cbn [re_match app andb];
    match goal with
    | |- context [(?a =? ?b)%N] =>
      destruct (N.eqb_spec a b); try (exfalso; range_goal); try subst
    | |- context [(?a <=? ?b)%N] =>
      destruct (N.leb_spec a b); try (exfalso; range_goal)
    | |- context [unicode_isdecimal _] => unfold unicode_isdecimal
    | H : unicode_decimal ?u = Some _ |- context [unicode_decimal ?u] =>
      rewrite H
    | |- context [match ?k ?g ?r with Some _ => _ | None => _ end] =>
      let Ek := fresh "Ek" in destruct (k g r) eqn:Ek
    end);
  try reflexivity;
  try match goal with Ek : _ = ?x |- ?x = _ => symmetry; exact Ek end.

Lemma re_Y_fwd (A : Type) (gY rest : pystr) (year : Z)
  (k : pystr -> pystr -> option A) :
  year_text gY year -> re_match re_Y (gY ++ rest) k = k gY rest.
Proof. intros []. unfold re_Y. eval_tests. Qed.

Lemma re_m_fwd (A : Type) (gm rest : pystr) (month : Z)
  (k : pystr -> pystr -> pystr -> option A) :
  month_text gm month ->
  re_match re_m (gm ++ ch_slash :: rest)
    (fun g s3 => re_match (Chr ch_slash) s3 (k g)) = k gm [ch_slash] rest.
Proof. intros []; unfold re_m; eval_tests. Qed.

Lemma re_d_fwd (A : Type) (gd : pystr) (day : Z) (h : pystr -> pystr -> A) :
  day_text gd day ->
  re_match re_d gd (fun g s5 => Some (h g s5)) = Some (h gd []).
Proof. intros []; unfold re_d; eval_tests. Qed.

Lemma match_Ymd_inv (s gY gm gd rest : pystr) :
  match_Ymd s = Some (gY, gm, gd, rest) ->
  exists year month day,
    s = gY ++ ch_slash :: gm ++ ch_slash :: gd ++ rest /\
    year_text gY year /\ month_text gm month /\ day_text gd day.
Proof.
  unfold match_Ymd. intros H.
  apply re_Y_inv in H. destruct H as (gY' & year & s1 & -> & HY & H).
  apply re_slash_inv in H. destruct H as (s2 & -> & H).
  apply re_m_inv in H. destruct H as (gm' & month & s3 & -> & Hm & H).
  apply re_slash_inv in H. destruct H as (s4 & -> & H).
  apply re_d_inv in H. destruct H as (gd' & day & s5 & -> & Hd & H).
  injection H as <- <- <- <-.
  exists year, month, day. repeat split; assumption.
Qed.

Lemma match_Ymd_fwd (gY gm gd : pystr) (year month day : Z) :
  year_text gY year -> month_text gm month -> day_text gd day ->
  match_Ymd (gY ++ ch_slash :: gm ++ ch_slash :: gd) = Some (gY, gm, gd, []).
Proof.
  intros HY Hm Hd. unfold match_Ymd.
  rewrite (re_Y_fwd _ _ HY).
  change (re_match re_m (gm ++ ch_slash :: gd)
            (fun g s3 => re_match (Chr ch_slash) s3
               ((fun gm0 _ s4 =>
                   re_match re_d s4 (fun gd0 s5 => Some (gY, gm0, gd0, s5))) g))
          = Some (gY, gm, gd, [])).
  rewrite (re_m_fwd gd _ Hm).
  apply (re_d_fwd (fun gd0 s5 => (gY, gm, gd0, s5)) Hd).
Qed.

(** [int()] on the three groups. *)
Lemma py_int_year (gY : pystr) (year : Z) :
  year_text gY year -> py_int gY = Return year /\ (0 <= year <= 9999)%Z.
Proof.
  intros [a b c d va vb vc vd Ha Hb Hc Hd]. split.
  - rewrite (@py_int_decimals [a; b; c; d] [va; vb; vc; vd]).
    + f_equal; unfold digits_value; cbn [fold_left]; lia.
    + repeat constructor; assumption.
    + discriminate.
    + unfold int_max_str_digits. cbn [length]. lia.
  - apply unicode_decimal_range in Ha, Hb, Hc, Hd. lia.
Qed.

Lemma py_int_one_digit (c : char) :
  (d1 <= c <= d9)%N -> py_int [c] = Return (ascii_value c).
Proof.
  intros Hc. rewrite (@py_int_decimals [c] [ascii_value c]).
  - reflexivity.
  - repeat constructor. apply unicode_decimal_of_ascii_digit. range_goal.
  - discriminate.
  - unfold int_max_str_digits. cbn [length]. lia.
Qed.

Lemma py_int_two_digits (t u : char) (v : Z) :
  (d0 <= t <= d9)%N -> unicode_decimal u = Some v ->
  py_int [t; u] = Return (10 * ascii_value t + v)%Z.
Proof.
  intros Ht Hu. rewrite (@py_int_decimals [t; u] [ascii_value t; v]).
  - f_equal; unfold digits_value; cbn [fold_left]; lia.
  - repeat constructor; [|assumption].
    apply unicode_decimal_of_ascii_digit. range_goal.
  - discriminate.
  - unfold int_max_str_digits. cbn [length]. lia.
Qed.

Lemma py_int_after_space (s : pystr) :
  Forall (fun c => (c < 128)%N) s -> py_int (ch_space :: s) = py_int s.
Proof.
  intros Hs. unfold py_int.
  rewrite !transform_ascii; [reflexivity|assumption|].
  constructor; [unfold ch_space; lia|assumption].
Qed.

Lemma py_int_month (gm : pystr) (month : Z) :
  month_text gm month -> py_int gm = Return month /\ (1 <= month <= 12)%Z.
Proof.
  intros [c Hc|c Hc|c Hc]; (split; [|unfold ascii_value; range_goal]).
  - now apply py_int_one_digit.
  - rewrite (@py_int_two_digits d0 c (ascii_value c)).
    + reflexivity.
    + range_goal.
    + apply unicode_decimal_of_ascii_digit. range_goal.
  - rewrite (@py_int_two_digits d1 c (ascii_value c)).
    + reflexivity.
    + range_goal.
    + apply unicode_decimal_of_ascii_digit. range_goal.
Qed.

Lemma py_int_day (gd : pystr) (day : Z) :
  day_text gd day -> py_int gd = Return day /\ (1 <= day <= 31)%Z.
Proof.
  intros [c Hc|c Hc|c Hc|t u v Ht Hu|c Hc].
  - split; [now apply py_int_one_digit|unfold ascii_value; range_goal].
  - split; [|unfold ascii_value; range_goal].
    rewrite (@py_int_two_digits d0 c (ascii_value c)).
    + reflexivity.
    + range_goal.
    + apply unicode_decimal_of_ascii_digit. range_goal.
  - split; [|unfold ascii_value; range_goal].
    rewrite py_int_after_space; [now apply py_int_one_digit|].
    constructor; [range_goal|constructor].
  - split.
    + apply py_int_two_digits; [range_goal|assumption].
    + apply unicode_decimal_range in Hu. unfold ascii_value. range_goal.
  - split; [|unfold ascii_value; range_goal].
    rewrite (@py_int_two_digits d3 c (ascii_value c)).
    + f_equal.
    + range_goal.
    + apply unicode_decimal_of_ascii_digit. range_goal.
Qed.


Lemma check_date_fields_ok (year month day : Z) :
  check_date_fields year month day = Return tt <->
  (1 <= year <= 9999 /\ 1 <= month <= 12 /\
   1 <= day <= days_in_month year month)%Z.
Proof.
  unfold check_date_fields, raise.
  destruct (Z.leb_spec 1 year); destruct (Z.leb_spec year 9999);
    cbn [andb negb]; try (split; [discriminate|lia]).
  destruct (Z.leb_spec 1 month); destruct (Z.leb_spec month 12);
    cbn [andb negb]; try (split; [discriminate|lia]).
  destruct (Z.leb_spec 1 day);
    destruct (Z.leb_spec day (days_in_month year month));
    cbn [andb negb]; try (split; [discriminate|lia]).
  split; [lia|reflexivity].
Qed.

Lemma strptime_Ymd_raises_ValueError (s : pystr) (e : exn) :
  strptime_Ymd s = Raise e -> exn_cls e = ValueError.
Proof.
  unfold strptime_Ymd, bind, raise.
  destruct (match_Ymd s) as [[[[gY gm] gd] [|]]|];
    try (intros [= <-]; reflexivity).
  destruct (py_int gY) eqn:EY; [|intros [= <-]; eapply py_int_raises_ValueError; eassumption].
  destruct (py_int gm) eqn:Em; [|intros [= <-]; eapply py_int_raises_ValueError; eassumption].
  destruct (py_int gd) eqn:Ed; [|intros [= <-]; eapply py_int_raises_ValueError; eassumption].
  unfold check_date_fields, raise.
  repeat match goal with
         | |- context [if ?b then _ else _] => destruct b
         end; try discriminate; intros [= <-]; reflexivity.
Qed.

Lemma strptime_Ymd_returns (s : pystr) :
  (exists r, strptime_Ymd s = Return r) <-> lenient_date s.
Proof.
  split.
  - intros [r H]. unfold strptime_Ymd in H.
    destruct (match_Ymd s) as [[[[gY gm] gd] rest]|] eqn:E; [|discriminate H].
    destruct rest; [|discriminate H].
    apply match_Ymd_inv in E.
    destruct E as (year & month & day & -> & HY & Hm & Hd).
    destruct (py_int_year HY) as [EY HYr].
    destruct (py_int_month Hm) as [Em Hmr].
    destruct (py_int_day Hd) as [Ed Hdr].
    rewrite EY, Em, Ed in H. cbn [bind] in H.
    destruct (check_date_fields year month day) as [[]|] eqn:Ec;
      [|discriminate H].
    apply check_date_fields_ok in Ec.
    exists year, month, day. split.
    + exists gY, gm, gd. rewrite app_nil_r. tauto.
    + unfold real_date. lia.
  - intros (year & month & day & (gY & gm & gd & -> & HY & Hm & Hd) & Hy & Hday).
    unfold strptime_Ymd. rewrite (match_Ymd_fwd HY Hm Hd).
    destruct (py_int_year HY) as [EY HYr].
    destruct (py_int_month Hm) as [Em Hmr].
    destruct (py_int_day Hd) as [Ed Hdr].
    rewrite EY, Em, Ed. cbn [bind].
    assert (Ec : check_date_fields year month day = Return tt)
      by (apply check_date_fields_ok; lia).
    rewrite Ec. eexists. reflexivity.
Qed.

(** C2, amended. The per-attempt check of [input_date] takes a line
    exactly when it is four decimal digits, a slash, a month from 1
    to 12 written with one or two digits, a slash, and a day written
    with one or two digits (or a space and a digit) that exists in
    that month of that year, the year being at least 1; every other
    line is rejected with the notice that makes the loop ask
    again. *)
Theorem input_date_accepts (s : pystr) :
  (lenient_date s -> input_date_attempt s = Accepted s) /\
  (~ lenient_date s -> exists notice, input_date_attempt s = Rejected notice).
Proof.
  unfold input_date_attempt. split.
  - intros H. apply strptime_Ymd_returns in H. destruct H as [r ->].
    reflexivity.
  - intros H. destruct (strptime_Ymd s) as [r|e] eqn:E.
    + exfalso. apply H. apply strptime_Ymd_returns. now exists r.
    + apply strptime_Ymd_raises_ValueError in E.
      unfold isinstance_ValueError. rewrite E. eexists. reflexivity.
Qed.

Lemma input_date_attempt_accepted (s d : pystr) :
  input_date_attempt s = Accepted d -> d = s /\ lenient_date s.
Proof.
  unfold input_date_attempt.
  destruct (strptime_Ymd s) as [r|e] eqn:E.
  - intros [= <-]. split; [reflexivity|].
    apply strptime_Ymd_returns. now exists r.
  - destruct (isinstance_ValueError e); discriminate.
Qed.

(** C2, as stated, fails: the line 2025/1/1, whose month and day are
    not padded, is taken. *)
Lemma input_date_takes_unpadded :
  ~ (forall s, input_date_attempt s = Accepted s <-> padded_date s).
Proof.
  intros H. destruct (H (u8 "2025/1/1")) as [H1 _].
  destruct (H1 eq_refl) as (y1 & y2 & y3 & y4 & m1 & m2 & dd1 & dd2 & E & _).
  vm_compute in E. discriminate E.
Qed.


(** ** Examples of attempts *)

Lemma date_example :
  input_date_attempt (u8 "2025/01/01") = Accepted (u8 "2025/01/01").
Proof. vm_compute. reflexivity. Qed.

Lemma category_example :
  input_category_attempt categories (u8 "1") = Accepted (u8 "食費").
Proof. vm_compute. reflexivity. Qed.

Lemma amount_inf : input_amount_attempt (u8 "inf") = Escaped infinity_error.
Proof. vm_compute. reflexivity. Qed.

Lemma amount_nan :
  input_amount_attempt (u8 "nan") = Rejected (u8 "金額は数字で入力してください。").
Proof. vm_compute. reflexivity. Qed.

(** ** Totals by category *)

Lemma strval_eqb_eq (a b : strval) : strval_eqb a b = true <-> a = b.
Proof.
  destruct a as [s|], b as [t|]; cbn; try easy.
  rewrite pystr_eqb_eq. split; [intros ->; reflexivity|intros [= ->]; reflexivity].
Qed.

Lemma strval_eqb_refl (a : strval) : strval_eqb a a = true.
Proof. now apply strval_eqb_eq. Qed.

Lemma strval_eqb_sym (a b : strval) : strval_eqb a b = strval_eqb b a.
Proof.
  destruct (strval_eqb a b) eqn:E1, (strval_eqb b a) eqn:E2; try reflexivity.
  - apply strval_eqb_eq in E1. subst. now rewrite strval_eqb_refl in E2.
  - apply strval_eqb_eq in E2. subst. now rewrite strval_eqb_refl in E1.
Qed.

Section DictFacts.
Variable V : Type.
Implicit Types (d : list (strval * V)) (k : strval) (v : V).

Lemma dict_get_set d k v k' :
  dict_get strval_eqb (dict_set strval_eqb d k v) k' =
  if strval_eqb k k' then Some v else dict_get strval_eqb d k'.
Proof.
  induction d as [|[k0 v0] d IH]; cbn [dict_set dict_get].
  - reflexivity.
  - destruct (strval_eqb k0 k) eqn:E; cbn [dict_get].
    + apply strval_eqb_eq in E. subst k0.
      destruct (strval_eqb k k'); reflexivity.
    + rewrite IH. destruct (strval_eqb k0 k') eqn:E'; [|reflexivity].
      apply strval_eqb_eq in E'. subst k0. now rewrite strval_eqb_sym, E.
Qed.

Lemma dict_get_in_keys d k :
  dict_get strval_eqb d k = None <->
  existsb (strval_eqb k) (dict_keys d) = false.
Proof.
  induction d as [|[k0 v0] d IH]; cbn [dict_get dict_keys map fst existsb].
  - tauto.
  - rewrite (strval_eqb_sym k k0). destruct (strval_eqb k0 k); cbn [orb].
    + split; discriminate.
    + exact IH.
Qed.

Lemma dict_keys_set d k v :
  dict_keys (dict_set strval_eqb d k v) =
  if existsb (strval_eqb k) (dict_keys d) then dict_keys d
  else dict_keys d ++ [k].
Proof.
  induction d as [|[k0 v0] d IH];
    cbn [dict_set dict_keys map fst existsb app].
  - reflexivity.
  - rewrite (strval_eqb_sym k k0). destruct (strval_eqb k0 k) eqn:E; cbn [orb].
    + reflexivity.
    + cbn [map fst]. fold (dict_keys (dict_set strval_eqb d k v)).
      rewrite IH. fold (dict_keys d).
      destruct (existsb (strval_eqb k) (dict_keys d)); reflexivity.
Qed.

(** A dict whose keys are distinct is the list of its keys, each
    with the value found under it. *)
Lemma dict_by_keys d (f : strval -> V) :
  NoDup (dict_keys d) ->
  (forall k, In k (dict_keys d) -> dict_get strval_eqb d k = Some (f k)) ->
  d = map (fun k => (k, f k)) (dict_keys d).
Proof.
  induction d as [|[k0 v0] d IH]; intros Hnd Hget; [reflexivity|].
  cbn [dict_keys map fst] in *. fold (dict_keys d) in *.
  inversion Hnd as [|? ? Hnotin Hnd']; subst.
  f_equal.
  - specialize (Hget k0 (or_introl eq_refl)). cbn [dict_get] in Hget.
    rewrite strval_eqb_refl in Hget. now injection Hget as ->.
  - apply IH; [assumption|]. intros k Hk.
    specialize (Hget k (or_intror Hk)). cbn [dict_get] in Hget.
    destruct (strval_eqb k0 k) eqn:E; [|exact Hget].
    apply strval_eqb_eq in E. subst. contradiction.
Qed.
End DictFacts.

Lemma aggregate_fold (transaction_list : list transaction) :
  forall category_totals,
    aggregate category_totals transaction_list =
    (pairs <- categorized transaction_list ;;
     Return (fold_left add_amount pairs category_totals)).
Proof.
  induction transaction_list as [|row rest IH]; intros d; [reflexivity|].
  cbn [aggregate categorized]. unfold bind at 1 3.
  destruct (float_of_number (amount row)) as [x|e]; [|reflexivity].
  change (match dict_get strval_eqb d (category row) with
          | Some total =>
            aggregate (dict_set strval_eqb d (category row) (float_add total x)) rest
          | None => aggregate (dict_set strval_eqb d (category row) x) rest
          end) with
    (match dict_get strval_eqb d (category row) with
     | Some total =>
       aggregate (dict_set strval_eqb d (fst (category row, x))
                    (float_add total (snd (category row, x)))) rest
     | None => aggregate (dict_set strval_eqb d (fst (category row, x))
                            (snd (category row, x))) rest
     end).
  assert (E : forall p, (match dict_get strval_eqb d (fst p) with
               | Some total =>
                 aggregate (dict_set strval_eqb d (fst p) (float_add total (snd p))) rest
               | None => aggregate (dict_set strval_eqb d (fst p) (snd p)) rest
               end) = aggregate (add_amount d p) rest).
  { intros p. unfold add_amount. destruct (dict_get strval_eqb d (fst p)); reflexivity. }
  change (category row) with (fst (category row, x)) at 1.
  rewrite (E (category row, x)), IH. unfold bind.
  destruct (categorized rest); reflexivity.
Qed.


Lemma filter_filter_implied (A : Type) (P Q : A -> bool) (l : list A) :
  (forall x, P x = true -> Q x = true) ->
  filter P (filter Q l) = filter P l.
Proof.
  intros H. induction l as [|x l IH]; [reflexivity|].
  cbn [filter]. destruct (Q x) eqn:EQ; cbn [filter]; rewrite IH.
  - reflexivity.
  - destruct (P x) eqn:EP; [|reflexivity].
    apply H in EP. congruence.
Qed.

Lemma filter_filter_both (A : Type) (P Q : A -> bool) (l : list A) :
  filter P (filter Q l) = filter (fun x => P x && Q x) l.
Proof.
  induction l as [|x l IH]; [reflexivity|].
  cbn [filter]. destruct (Q x); cbn [filter]; rewrite IH;
    destruct (P x); reflexivity.
Qed.

Lemma keys_add_amount (d : list (strval * float)) (p : strval * float) :
  dict_keys (add_amount d p) =
  if existsb (strval_eqb (fst p)) (dict_keys d) then dict_keys d
  else dict_keys d ++ [fst p].
Proof.
  unfold add_amount.
  destruct (dict_get strval_eqb d (fst p)); apply dict_keys_set.
Qed.

Lemma keys_fold_add_amount (pairs : list (strval * float)) :
  forall d,
    dict_keys (fold_left add_amount pairs d) =
    dict_keys d ++
    filter (fun k => negb (existsb (strval_eqb k) (dict_keys d)))
      (first_appearances (map fst pairs)).
Proof.
  induction pairs as [|p pairs IH]; intros d.
  - cbn. now rewrite app_nil_r.
  - cbn [fold_left map first_appearances filter].
    rewrite IH, keys_add_amount.
    destruct (existsb (strval_eqb (fst p)) (dict_keys d)) eqn:E; cbn [negb].
    + f_equal. symmetry. apply filter_filter_implied.
      intros x Hx. apply negb_true_iff.
      destruct (strval_eqb x (fst p)) eqn:Ex; [|reflexivity].
      apply strval_eqb_eq in Ex. subst x.
      rewrite E in Hx. discriminate Hx.
    + rewrite <- app_assoc. cbn [app]. do 2 f_equal.
      rewrite filter_filter_both. apply filter_ext. intros x.
      rewrite existsb_app. cbn [existsb]. rewrite orb_false_r, negb_orb.
      reflexivity.
Qed.

Lemma amounts_of_cons (c : strval) (p : strval * float)
  (pairs : list (strval * float)) :
  amounts_of c (p :: pairs) =
  if strval_eqb (fst p) c then snd p :: amounts_of c pairs
  else amounts_of c pairs.
Proof.
  unfold amounts_of. cbn [filter].
  destruct (strval_eqb (fst p) c); reflexivity.
Qed.

Lemma get_fold_add_amount (pairs : list (strval * float)) :
  forall d c,
    dict_get strval_eqb (fold_left add_amount pairs d) c =
    match dict_get strval_eqb d c with
    | Some t => Some (fold_left float_add (amounts_of c pairs) t)
    | None =>
      match amounts_of c pairs with
      | [] => None
      | x :: rest => Some (fold_left float_add rest x)
      end
    end.
Proof.
  induction pairs as [|p pairs IH]; intros d c.
  - cbn. destruct (dict_get strval_eqb d c); reflexivity.
  - cbn [fold_left]. rewrite IH, amounts_of_cons. unfold add_amount.
    destruct (strval_eqb (fst p) c) eqn:E.
    + apply strval_eqb_eq in E. subst c.
      destruct (dict_get strval_eqb d (fst p)) as [t|];
        rewrite dict_get_set, strval_eqb_refl; reflexivity.
    + destruct (dict_get strval_eqb d (fst p)) as [t|];
        rewrite dict_get_set, E; reflexivity.
Qed.

Lemma first_appearances_NoDup (keys : list strval) :
  NoDup (first_appearances keys).
Proof.
  induction keys as [|k keys IH]; cbn [first_appearances]; constructor.
  - intros Hin. apply filter_In in Hin. destruct Hin as [_ H].
    rewrite strval_eqb_refl in H. discriminate H.
  - now apply NoDup_filter.
Qed.

Lemma first_appearances_In (keys : list strval) (k : strval) :
  In k (first_appearances keys) <-> In k keys.
Proof.
  induction keys as [|k0 keys IH]; cbn [first_appearances In]; [tauto|].
  rewrite filter_In, IH. split.
  - intros [H|[H _]]; [now left|now right].
  - intros [H|H]; [now left|].
    destruct (strval_eqb k k0) eqn:E.
    + apply strval_eqb_eq in E. now left.
    + right. now split.
Qed.

Lemma fold_add_amount_sums (pairs : list (strval * float)) :
  fold_left add_amount pairs [] = category_sums pairs.
Proof.
  unfold category_sums.
  pose proof (keys_fold_add_amount pairs []) as Hkeys.
  cbn [dict_keys map app existsb negb] in Hkeys.
  assert (Hall : forall l : list strval, filter (fun _ => true) l = l).
  { induction l as [|x l IHl]; [reflexivity|]. cbn. now rewrite IHl. }
  rewrite Hall in Hkeys.
  fold (dict_keys (fold_left add_amount pairs [])) in Hkeys.
  rewrite <- Hkeys. apply dict_by_keys.
  - rewrite Hkeys. apply first_appearances_NoDup.
  - intros k Hk. rewrite get_fold_add_amount. cbn [dict_get].
    unfold total_of. destruct (amounts_of k pairs) as [|x rest] eqn:E;
      [|reflexivity].
    exfalso. rewrite Hkeys in Hk.
    apply (proj1 (first_appearances_In _ _)) in Hk.
    apply in_map_iff in Hk. destruct Hk as (p & <- & Hp).
    assert (Hin : In (snd p) (amounts_of (fst p) pairs)).
    { unfold amounts_of. apply in_map, filter_In. split; [exact Hp|].
      apply strval_eqb_refl. }
    rewrite E in Hin. contradiction.
Qed.

Lemma categorized_categories (transaction_list : list transaction)
  (pairs : list (strval * float)) :
  categorized transaction_list = Return pairs ->
  map fst pairs = map category transaction_list.
Proof.
  revert pairs. induction transaction_list as [|row rest IH]; intros pairs H.
  - injection H as <-. reflexivity.
  - cbn [categorized] in H. unfold bind in H.
    destruct (float_of_number (amount row)); [|discriminate H].
    destruct (categorized rest) as [ps|]; [|discriminate H].
    injection H as <-. cbn [map fst]. f_equal. now apply IH.
Qed.

Lemma hundred_and_fifty :
  aggregate []
    [mkTransaction (Str (u8 "2025/01/01")) (Str (u8 "食費")) (Int 100);
     mkTransaction (Str (u8 "2025/01/02")) (Str (u8 "食費")) (Int 50)] =
  Return [(Str (u8 "食費"), Finite false (150 * one_in_units))].
Proof. vm_compute. reflexivity. Qed.

Lemma float_of_int_whole (z : Z) :
  whole_double z -> float_of_int z = Return (float_of_whole z).
Proof.
  intros [Hsig Hlt]. unfold float_of_int.
  rewrite float_of_ratio_exact; [reflexivity|assumption|].
  pose proof one_in_units_pos. split; [apply Z.mul_nonneg_nonneg|]; lia.
Qed.

(** On whole numbers whose sum is a binary64 value, [+] on floats is
    the sum of the integers. *)
Lemma float_add_whole (a b : Z) :
  whole_double a -> whole_double b -> whole_double (a + b) ->
  float_add (float_of_whole a) (float_of_whole b) = float_of_whole (a + b).
Proof.
  intros _ _ [Hsig Hlt]. unfold float_add, float_of_whole.
  pose proof one_in_units_pos as H1.
  set (s := ((if (a <? 0)%Z then - (Z.abs a * one_in_units)
              else Z.abs a * one_in_units) +
             (if (b <? 0)%Z then - (Z.abs b * one_in_units)
              else Z.abs b * one_in_units))%Z).
  assert (Hs : s = ((a + b) * one_in_units)%Z).
  { subst s. destruct (Z.ltb_spec a 0); destruct (Z.ltb_spec b 0); lia. }
  assert (Habs : Z.abs s = (Z.abs (a + b) * one_in_units)%Z).
  { rewrite Hs, Z.abs_mul, (Z.abs_eq one_in_units) by lia. reflexivity. }
  destruct (Z.eqb_spec s 0) as [E|NE].
  - assert (Hab : (a + b = 0)%Z) by nia.
    rewrite Hab. cbn [Z.abs Z.ltb Z.compare Z.mul].
    destruct (Z.ltb_spec a 0); destruct (Z.ltb_spec b 0);
      try reflexivity; lia.
  - rewrite Habs, float_of_ratio_exact; [|assumption|].
    + f_equal. rewrite Hs.
      destruct (Z.ltb_spec ((a + b) * one_in_units) 0);
        destruct (Z.ltb_spec (a + b) 0); try reflexivity; nia.
    + split; [apply Z.mul_nonneg_nonneg|]; lia.
Qed.

(** C3. The loop of [plot_graph] goes through the records once, in
    order, and leaves in [category_totals] one entry for each
    category that appears, in the order of first appearance, holding
    the sum (Python's [+] on floats, from left to right) of the
    amounts of the records of that category and of no other. So the
    empty list gives the empty mapping, two records of one category
    give the single entry of their sum (the sum of the integers when
    the amounts are whole and their sum is a binary64 value: 100 and
    50 give 150), and a category that appears in no record has no
    entry. *)
Theorem aggregate_by_category (transaction_list : list transaction) :
  aggregate [] transaction_list =
    (pairs <- categorized transaction_list ;; Return (category_sums pairs)) /\
  aggregate [] [] = Return [] /\
  (forall da db c a b x y,
      float_of_number a = Return x -> float_of_number b = Return y ->
      aggregate [] [mkTransaction da c a; mkTransaction db c b] =
      Return [(c, float_add x y)]) /\
  (forall da db c a b,
      whole_double a -> whole_double b -> whole_double (a + b) ->
      aggregate [] [mkTransaction da c (Int a); mkTransaction db c (Int b)] =
      Return [(c, float_of_whole (a + b))]) /\
  aggregate []
    [mkTransaction (Str (u8 "2025/01/01")) (Str (u8 "食費")) (Int 100);
     mkTransaction (Str (u8 "2025/01/02")) (Str (u8 "食費")) (Int 50)] =
    Return [(Str (u8 "食費"), Finite false (150 * one_in_units))] /\
  (forall category_totals,
      aggregate [] transaction_list = Return category_totals ->
      dict_keys category_totals =
        first_appearances (map category transaction_list) /\
      (forall c, ~ In c (map category transaction_list) ->
                 dict_get strval_eqb category_totals c = None) /\
      (forall c, In c (map category transaction_list) ->
         exists pairs,
           categorized transaction_list = Return pairs /\
           dict_get strval_eqb category_totals c = Some (total_of c pairs))).
Proof.
  assert (Hmain : forall l, aggregate [] l =
            (pairs <- categorized l ;; Return (category_sums pairs))).
  { intros l. rewrite aggregate_fold. unfold bind.
    destruct (categorized l); [|reflexivity].
    now rewrite fold_add_amount_sums. }
  assert (Hsame : forall da db c a b x y,
             float_of_number a = Return x -> float_of_number b = Return y ->
             aggregate [] [mkTransaction da c a; mkTransaction db c b] =
             Return [(c, float_add x y)]).
  { intros da db c a b x y Ha Hb. cbn [aggregate amount category].
    rewrite Ha. cbn [bind dict_get dict_set].
    rewrite Hb. cbn [bind dict_get dict_set aggregate].
    rewrite strval_eqb_refl. reflexivity. }
  split; [apply Hmain|]. split; [reflexivity|]. split; [exact Hsame|]. split.
  - intros da db c a b Ha Hb Hab.
    rewrite (Hsame da db c (Int a) (Int b) (float_of_whole a) (float_of_whole b))
      by (cbn [float_of_number]; now apply float_of_int_whole).
    now rewrite float_add_whole.
  - split; [exact hundred_and_fifty|].
    intros totals H. rewrite Hmain in H. unfold bind in H.
    destruct (categorized transaction_list) as [pairs|] eqn:E; [|discriminate H].
    injection H as <-.
    pose proof (categorized_categories _ E) as Hcat.
    assert (Hkeys : dict_keys (category_sums pairs) =
                    first_appearances (map category transaction_list)).
    { unfold category_sums, dict_keys. rewrite map_map. cbn [fst].
      rewrite map_id, Hcat. reflexivity. }
    split; [exact Hkeys|]. split.
    + intros c Hc. apply dict_get_in_keys. rewrite Hkeys.
      destruct (existsb _ _) eqn:Ex; [|reflexivity].
      exfalso. apply Hc. apply existsb_exists in Ex.
      destruct Ex as (k & Hk & Heq). apply strval_eqb_eq in Heq. subst k.
      now apply (proj1 (first_appearances_In _ _)) in Hk.
    + intros c Hc. exists pairs. split; [reflexivity|].
      rewrite <- fold_add_amount_sums, get_fold_add_amount. cbn [dict_get].
      unfold total_of. destruct (amounts_of c pairs) eqn:Ea; [|reflexivity].
      exfalso. rewrite <- Hcat in Hc. apply in_map_iff in Hc.
      destruct Hc as (p & <- & Hp).
      assert (Hin : In (snd p) (amounts_of (fst p) pairs)).
      { unfold amounts_of. apply in_map, filter_In. split; [exact Hp|].
        apply strval_eqb_refl. }
      rewrite Ea in Hin. contradiction.
Qed.


(** ** Amounts *)

Lemma round53_exact_ratio (k q : Z) :
  sig53 k -> (0 < q)%Z -> round53 (k * q) q = k.
Proof.
  intros (a & t & -> & Ha & Ht) Hq. unfold round53.
  rewrite Z.div_mul by lia.
  destruct (Z.eq_dec a 0) as [->|Hnz].
  - rewrite !Z.mul_0_l. cbn [Z.log2 Z.sub Z.opp Z.add Z.max Z.compare].
    change (2 ^ 0)%Z with 1%Z. rewrite !Z.mul_1_r.
    unfold rne_div. rewrite Z.div_0_l, Z.mod_0_l by lia.
    destruct (Z.ltb_spec (2 * 0) q); [reflexivity|lia].
  - set (s := Z.max 0 (Z.log2 (a * 2 ^ t) - 52)).
    assert (Hs : (0 <= s <= t)%Z).
    { subst s. rewrite Z.log2_mul_pow2 by lia.
      assert (Z.log2 a < 53)%Z by (apply Z.log2_lt_pow2; lia). lia. }
    assert (E : (2 ^ t = 2 ^ (t - s) * 2 ^ s)%Z).
    { rewrite <- Z.pow_add_r by lia. f_equal. lia. }
    replace (a * 2 ^ t * q)%Z with (a * 2 ^ (t - s) * (q * 2 ^ s))%Z
      by (rewrite E; ring).
    rewrite rne_div_exact.
    + rewrite E. ring.
    + apply Z.mul_pos_pos; [lia|]. apply Z.pow_pos_nonneg; lia.
Qed.

Lemma float_of_decimal_exact (neg : bool) (m e k : Z) :
  exactly_representable m e k -> float_of_decimal neg m e = Finite neg k.
Proof.
  intros (Hsig & Hk & He). unfold float_of_decimal.
  destruct (0 <=? e)%Z eqn:E.
  - rewrite <- He. now apply float_of_ratio_exact.
  - apply Z.leb_gt in E. rewrite <- He. unfold float_of_ratio.
    rewrite round53_exact_ratio; [|assumption|apply Z.pow_pos_nonneg; lia].
    destruct (Z.leb_spec overflow_threshold k); [lia|reflexivity].
Qed.

Lemma exact_trunc_units (neg : bool) (m e k : Z) :
  (0 <= m)%Z -> exactly_representable m e k ->
  (if neg then - (k / one_in_units) else k / one_in_units)%Z =
  exact_trunc neg m e.
Proof.
  intros Hm (_ & Hk & He). unfold exact_trunc.
  pose proof one_in_units_pos as H1.
  destruct (0 <=? e)%Z eqn:E.
  - rewrite He, Z.div_mul by lia. reflexivity.
  - apply Z.leb_gt in E.
    assert (Hq : (0 < 10 ^ (- e))%Z) by (apply Z.pow_pos_nonneg; lia).
    set (q := (10 ^ (- e))%Z) in *.
    assert (Hdiv : (k / one_in_units = m / q)%Z).
    { symmetry. apply Z.div_unique_pos with (r := (k - m / q * one_in_units)%Z);
        [|ring].
      pose proof (Z.mul_div_le m q Hq).
      pose proof (Z.mul_succ_div_gt m q Hq).
      split; nia. }
    rewrite Hdiv. reflexivity.
Qed.

Lemma py_float_decimal_literal (text : pystr) (neg : bool) (m e : Z) :
  decimal_literal text = Some (neg, m, e) ->
  py_float text = Return (float_of_decimal neg m e) /\ (0 <= m)%Z.
Proof.
  unfold decimal_literal, py_float, float_from_string.
  destruct (strip_underscores _ None) as [b|]; [|discriminate].
  destruct (strip_trailing_c_spaces (skip_c_spaces b)) as [|c body] eqn:Eb.
  - intros H. vm_compute in H. discriminate H.
  - destruct (parse_decimal (c :: body)) as [[[[neg' m'] e'] [|]]|] eqn:Ep;
      try discriminate.
    intros [= -> -> ->]. split; [reflexivity|].
    now apply parse_decimal_nonneg in Ep.
Qed.

Lemma input_amount_attempt_finite (text : pystr) (neg : bool) (k : Z) :
  py_float text = Return (Finite neg k) ->
  input_amount_attempt text =
  Accepted (if neg then - (k / one_in_units) else k / one_in_units)%Z.
Proof. intros H. unfold input_amount_attempt. rewrite H. reflexivity. Qed.

Lemma whole_double_small (z : Z) : (Z.abs z < 2 ^ 53)%Z -> whole_double z.
Proof.
  intros H. unfold whole_double, one_in_units, overflow_threshold, unit_exp.
  split.
  - exists (Z.abs z), 1074%Z. split; [reflexivity|]. lia.
  - rewrite Z.pow_add_r by lia.
    apply Z.mul_lt_mono_pos_r; [apply Z.pow_pos_nonneg; lia|].
    eapply Z.lt_le_trans; [exact H|].
    apply Z.pow_le_mono_r; lia.
Qed.

(** ** Rounding that does not reach the next integer *)

Lemma rne_div_below (p q j : Z) :
  (0 <= p)%Z -> (0 < q)%Z -> (2 * p < (2 * j - 1) * q)%Z ->
  (rne_div p q < j)%Z.
Proof.
  intros Hp Hq Hlt. unfold rne_div.
  pose proof (Z.div_mod p q ltac:(lia)) as Hdiv.
  pose proof (Z.mod_pos_bound p q Hq) as Hmod.
  set (a := (p / q)%Z) in *. set (r := (p mod q)%Z) in *.
  assert (Ha : (a < j)%Z) by nia.
  destruct (Z.ltb_spec (2 * r) q); [exact Ha|].
  assert (a + 1 < j)%Z by nia.
  destruct (q <? 2 * r)%Z; [lia|]. destruct (Z.even a); lia.
Qed.

Lemma clear_below_2_53 (m q : Z) :
  (0 <= m)%Z -> (0 < q)%Z -> clear_of_next_integer m q ->
  (m / q + 1 <= 2 ^ 53)%Z.
Proof.
  intros Hm Hq Hclear. unfold clear_of_next_integer in Hclear.
  pose proof (Z.mul_div_le m q Hq). pose proof (Z.mul_succ_div_gt m q Hq).
  assert (0 <= m / q)%Z by (apply Z.div_pos; lia). nia.
Qed.

(** The float nearest to [m / q], a number below 2^53, lies between
    the integer below [m / q] and the next one, and does not reach
    the next one when [m / q] is clear of it. *)
Lemma round53_between (m q : Z) :
  (0 <= m)%Z -> (0 < q)%Z -> (m / q + 1 <= 2 ^ 53)%Z ->
  (m / q * one_in_units <= round53 (m * one_in_units) q
   <= (m / q + 1) * one_in_units)%Z /\
  (clear_of_next_integer m q ->
   (round53 (m * one_in_units) q < (m / q + 1) * one_in_units)%Z).
Proof.
  intros Hm Hq Hn. unfold clear_of_next_integer.
  pose proof one_in_units_pos as HU.
  pose proof (Z.mul_div_le m q Hq) as Hlow.
  pose proof (Z.mul_succ_div_gt m q Hq) as Hhigh.
  assert (Hn0 : (0 <= m / q)%Z) by (apply Z.div_pos; lia).
  set (n := (m / q)%Z) in *.
  unfold round53.
  set (p := (m * one_in_units)%Z).
  assert (Hp : (0 <= p)%Z) by (subst p; nia).
  assert (Ha0 : (0 <= p / q)%Z) by (apply Z.div_pos; lia).
  assert (Ha1 : (p / q < (n + 1) * one_in_units)%Z).
  { apply Z.div_lt_upper_bound; [lia|]. subst p. nia. }
  assert (Ha2 : (q * (p / q) <= p)%Z) by (apply Z.mul_div_le; lia).
  set (a := (p / q)%Z) in *.
  set (s := Z.max 0 (Z.log2 a - 52)).
  assert (Hs : (0 <= s <= 1074)%Z).
  { subst s. destruct (Z.eq_dec a 0) as [->|Hnz]; [cbn; lia|].
    assert (Z.log2 a < 1127)%Z.
    { apply Z.log2_lt_pow2; [lia|].
      change (2 ^ 1127)%Z with (2 ^ 53 * one_in_units)%Z. nia. }
    lia. }
  assert (Hpow : (0 < 2 ^ s)%Z) by (apply Z.pow_pos_nonneg; lia).
  assert (Hrest : (0 < 2 ^ (1074 - s))%Z) by (apply Z.pow_pos_nonneg; lia).
  assert (EU : (one_in_units = 2 ^ (1074 - s) * 2 ^ s)%Z).
  { unfold one_in_units, unit_exp. rewrite <- Z.pow_add_r by lia.
    f_equal. lia. }
  assert (Hs2 : ((n + 1) * q < 2 ^ 53 * ((n + 1) * q - m) ->
                 q * 2 ^ s < 2 * one_in_units * ((n + 1) * q - m))%Z).
  { intros Hclear.
    subst s. destruct (Z.max_spec 0 (Z.log2 a - 52)) as [[Hlt ->]|[Hle ->]].
    - assert (H52 : (2 ^ (Z.log2 a - 52) * 2 ^ 52 <= a)%Z).
      { rewrite <- Z.pow_add_r by lia.
        replace (Z.log2 a - 52 + 52)%Z with (Z.log2 a) by lia.
        apply Z.log2_spec. destruct (Z.eq_dec a 0) as [E|]; [|lia].
        rewrite E in Hlt. cbn in Hlt. lia. }
      assert (q * (2 ^ (Z.log2 a - 52) * 2 ^ 52) <= p)%Z by nia.
      assert (p < 2 ^ 53 * ((n + 1) * q - m) * one_in_units)%Z
        by (subst p; nia).
      change (2 ^ 53)%Z with (2 * 2 ^ 52)%Z in *.
      assert (0 < 2 ^ 52)%Z by lia. nia.
    - change (2 ^ 0)%Z with 1%Z.
      assert (2 ^ 53 <= 2 * one_in_units)%Z.
      { unfold one_in_units, unit_exp.
        change 2%Z with (2 ^ 1)%Z at 2. rewrite <- Z.pow_add_r by lia.
        apply Z.pow_le_mono_r; lia. }
      nia. }
  set (Q := (q * 2 ^ s)%Z) in *.
  assert (HQ : (0 < Q)%Z) by (subst Q; nia).
  pose proof (rne_div_bounds Hp HQ) as [Hr1 Hr3].
  assert (Hr0 : (n * 2 ^ (1074 - s) <= p / Q)%Z).
  { apply Z.div_le_lower_bound; [lia|]. subst p Q. rewrite EU. nia. }
  assert (Hr4 : (p / Q < (n + 1) * 2 ^ (1074 - s))%Z).
  { apply Z.div_lt_upper_bound; [lia|]. subst p Q. rewrite EU. nia. }
  split.
  - rewrite EU. split; nia.
  - intros Hclear. specialize (Hs2 Hclear).
    assert (Hr2 : (rne_div p Q < (n + 1) * 2 ^ (1074 - s))%Z).
    { apply rne_div_below; [lia|lia|]. subst p Q. rewrite EU in *. nia. }
    rewrite EU. nia.
Qed.

Lemma float_of_decimal_fraction (neg : bool) (m e : Z) :
  (0 <= m)%Z -> (e < 0)%Z -> (m / 10 ^ (- e) + 1 <= 2 ^ 53)%Z ->
  exists k,
    float_of_decimal neg m e = Finite neg k /\
    (k / one_in_units = m / 10 ^ (- e) \/
     k / one_in_units = m / 10 ^ (- e) + 1)%Z /\
    (clear_of_next_integer m (10 ^ (- e)) ->
     (k / one_in_units = m / 10 ^ (- e))%Z).
Proof.
  intros Hm He Hn.
  assert (Hq : (0 < 10 ^ (- e))%Z) by (apply Z.pow_pos_nonneg; lia).
  destruct (round53_between Hm Hq Hn) as [[Hlo Hhi] Hstrict].
  pose proof one_in_units_pos as HU.
  set (k := round53 (m * one_in_units) (10 ^ (- e))) in *.
  assert (Hexact : (k < (m / 10 ^ (- e) + 1) * one_in_units ->
                    k / one_in_units = m / 10 ^ (- e))%Z).
  { intros Hlt. symmetry.
    apply Z.div_unique_pos
      with (r := (k - m / 10 ^ (- e) * one_in_units)%Z); lia. }
  exists k. split; [|split].
  - unfold float_of_decimal.
    destruct (Z.leb_spec 0 e); [lia|]. unfold float_of_ratio. fold k.
    destruct (Z.leb_spec overflow_threshold k) as [Hover|]; [|reflexivity].
    exfalso.
    assert (2 ^ 53 * one_in_units < overflow_threshold)%Z.
    { unfold overflow_threshold. rewrite Z.pow_add_r by (unfold unit_exp; lia).
      fold one_in_units. apply Z.mul_lt_mono_pos_r; [lia|].
      apply Z.pow_lt_mono_r; lia. }
    nia.
  - destruct (Z.eq_dec k ((m / 10 ^ (- e) + 1) * one_in_units)) as [E|NE].
    + right. rewrite E. now apply Z.div_mul, Z.neq_sym, Z.lt_neq.
    + left. apply Hexact. lia.
  - intros Hclear. apply Hexact. now apply Hstrict.
Qed.

Lemma input_amount_attempt_next (text : pystr) (neg : bool) (m e : Z) :
  decimal_literal text = Some (neg, m, e) ->
  (e < 0)%Z -> (m / 10 ^ (- e) + 1 <= 2 ^ 53)%Z ->
  input_amount_attempt text = Accepted (exact_trunc neg m e) \/
  input_amount_attempt text =
    Accepted (if neg then exact_trunc neg m e - 1
              else exact_trunc neg m e + 1)%Z.
Proof.
  intros Hlit He Hn.
  apply py_float_decimal_literal in Hlit. destruct Hlit as [Hf Hm].
  destruct (float_of_decimal_fraction neg Hm He Hn) as (k & Hk & Hdiv & _).
  rewrite Hk in Hf. rewrite (input_amount_attempt_finite _ Hf).
  unfold exact_trunc. destruct (Z.leb_spec 0 e); [lia|].
  destruct Hdiv as [-> | ->]; [now left|right].
  destruct neg; f_equal; lia.
Qed.

Lemma input_amount_attempt_fraction (text : pystr) (neg : bool) (m e : Z) :
  decimal_literal text = Some (neg, m, e) ->
  (e < 0)%Z -> clear_of_next_integer m (10 ^ (- e)) ->
  input_amount_attempt text = Accepted (exact_trunc neg m e).
Proof.
  intros Hlit He Hclear.
  apply py_float_decimal_literal in Hlit. destruct Hlit as [Hf Hm].
  assert (Hq : (0 < 10 ^ (- e))%Z) by (apply Z.pow_pos_nonneg; lia).
  pose proof (clear_below_2_53 Hm Hq Hclear) as Hn.
  destruct (float_of_decimal_fraction neg Hm He Hn) as (k & Hk & _ & Hdiv).
  rewrite Hk in Hf. rewrite (input_amount_attempt_finite _ Hf), (Hdiv Hclear).
  unfold exact_trunc. destruct (Z.leb_spec 0 e); [lia|reflexivity].
Qed.

Lemma within_precision_clear (m e : Z) :
  (0 <= m)%Z -> (e < 0)%Z -> within_double_precision m e ->
  clear_of_next_integer m (10 ^ (- e)).
Proof.
  intros Hm He Hw. unfold within_double_precision in Hw.
  rewrite Z.max_l in Hw by lia. change (10 ^ 0)%Z with 1%Z in Hw.
  unfold clear_of_next_integer.
  assert (Hq : (0 < 10 ^ (- e))%Z) by (apply Z.pow_pos_nonneg; lia).
  assert (E10 : (10 ^ (- e) = 5 * (2 * 10 ^ (- e - 1)))%Z).
  { replace (- e)%Z with (Z.succ (- e - 1)) at 1 by lia.
    rewrite Z.pow_succ_r by lia. ring. }
  set (q := (10 ^ (- e))%Z) in *.
  pose proof (Z.mul_div_le m q Hq) as Hlow.
  pose proof (Z.mul_succ_div_gt m q Hq) as Hhigh.
  set (n := (m / q)%Z) in *.
  assert (HD : (1 <= (n + 1) * q - m)%Z) by lia.
  destruct (Z.eq_dec ((n + 1) * q - m) 1) as [E1|NE1]; [|nia].
  destruct (Z.eq_dec m (2 ^ 53 - 1)) as [Em|NEm]; [|nia].
  exfalso.
  assert (H5 : ((n + 1) * q = 2 ^ 53)%Z) by lia.
  assert (Hmod : (((n + 1) * q) mod 5 = 0)%Z).
  { rewrite E10.
    replace ((n + 1) * (5 * (2 * 10 ^ (- e - 1))))%Z
      with ((n + 1) * (2 * 10 ^ (- e - 1)) * 5)%Z by ring.
    apply Z_mod_mult. }
  rewrite H5 in Hmod. vm_compute in Hmod. discriminate Hmod.
Qed.

Lemma within_precision_whole (m e : Z) :
  (0 <= m)%Z -> (0 <= e)%Z -> within_double_precision m e ->
  exactly_representable m e (m * 10 ^ e * one_in_units).
Proof.
  intros Hm He Hw. unfold within_double_precision in Hw.
  rewrite Z.max_r in Hw by lia.
  assert (H10 : (0 < 10 ^ e)%Z) by (apply Z.pow_pos_nonneg; lia).
  assert (Hwhole : whole_double (m * 10 ^ e))
    by (apply whole_double_small; rewrite Z.abs_eq by nia; exact Hw).
  destruct Hwhole as [Hsig Hlt]. rewrite Z.abs_eq in Hsig, Hlt by nia.
  pose proof one_in_units_pos.
  split; [exact Hsig|]. split; [split; [nia|exact Hlt]|].
  destruct (Z.leb_spec 0 e); [reflexivity|lia].
Qed.

Lemma input_amount_attempt_within_precision (text : pystr) (neg : bool)
  (m e : Z) :
  decimal_literal text = Some (neg, m, e) ->
  within_double_precision m e ->
  input_amount_attempt text = Accepted (exact_trunc neg m e).
Proof.
  intros Hlit Hw.
  destruct (py_float_decimal_literal _ Hlit) as [Hf Hm].
  destruct (Z.lt_ge_cases e 0) as [He|He].
  - apply input_amount_attempt_fraction; [exact Hlit|exact He|].
    now apply within_precision_clear.
  - pose proof (within_precision_whole Hm He Hw) as Hrep.
    rewrite (float_of_decimal_exact neg Hrep) in Hf.
    rewrite (input_amount_attempt_finite _ Hf).
    f_equal. now apply exact_trunc_units.
Qed.

Lemma amount_123_9 : input_amount_attempt (u8 "123.9") = Accepted 123%Z.
Proof. vm_compute. reflexivity. Qed.

(** C5, amended. For every line that [float()] reads as a finite
    binary64 value, the per-attempt conversion of [input_amount]
    returns that value truncated toward zero. This is the number
    typed, truncated toward zero, whenever the digits typed, read as
    an integer without the point, stay below 2^53 (so for every
    number of at most 15 significant digits: 123.9 gives 123, 0.1
    gives 0, 99.99 gives 99, -7.5 gives -7); more generally whenever
    a number typed with a fraction lies below the next integer by
    more than one part in 2^53 of it, and whenever the number typed
    is itself a binary64 value. A number typed with a fraction and
    below 2^53 never gives anything but itself truncated or the next
    integer away from zero. Every line that [float()] does not
    accept, and nan, is rejected with the notice that asks for a
    number. *)
Theorem input_amount_truncates (text : pystr) :
  (forall neg k,
      py_float text = Return (Finite neg k) ->
      input_amount_attempt text =
      Accepted (if neg then - (k / one_in_units) else k / one_in_units)%Z) /\
  (forall neg m e k,
      decimal_literal text = Some (neg, m, e) ->
      exactly_representable m e k ->
      input_amount_attempt text = Accepted (exact_trunc neg m e)) /\
  (forall neg m e,
      decimal_literal text = Some (neg, m, e) ->
      within_double_precision m e ->
      input_amount_attempt text = Accepted (exact_trunc neg m e)) /\
  (forall neg m e,
      decimal_literal text = Some (neg, m, e) ->
      (e < 0)%Z -> clear_of_next_integer m (10 ^ (- e)) ->
      input_amount_attempt text = Accepted (exact_trunc neg m e)) /\
  (forall neg m e,
      decimal_literal text = Some (neg, m, e) ->
      (e < 0)%Z -> (m / 10 ^ (- e) + 1 <= 2 ^ 53)%Z ->
      input_amount_attempt text = Accepted (exact_trunc neg m e) \/
      input_amount_attempt text =
        Accepted (if neg then exact_trunc neg m e - 1
                  else exact_trunc neg m e + 1)%Z) /\
  input_amount_attempt (u8 "123.9") = Accepted 123%Z /\
  input_amount_attempt (u8 "0.1") = Accepted 0%Z /\
  input_amount_attempt (u8 "99.99") = Accepted 99%Z /\
  input_amount_attempt (u8 "-7.5") = Accepted (-7)%Z /\
  (forall e, py_float text = Raise e ->
             exists notice, input_amount_attempt text = Rejected notice) /\
  (py_float text = Return NaN ->
   exists notice, input_amount_attempt text = Rejected notice).
Proof.
  split; [intros; now apply input_amount_attempt_finite|]. split.
  { intros neg m e k Hlit Hrep.
    apply py_float_decimal_literal in Hlit. destruct Hlit as [Hf Hm].
    rewrite (float_of_decimal_exact neg Hrep) in Hf.
    rewrite (input_amount_attempt_finite _ Hf).
    f_equal. now apply exact_trunc_units. }
  split; [intros; now apply input_amount_attempt_within_precision|].
  split; [intros; now apply input_amount_attempt_fraction|].
  split; [intros; now apply input_amount_attempt_next|].
  split; [exact amount_123_9|].
  split; [vm_compute; reflexivity|].
  split; [vm_compute; reflexivity|].
  split; [vm_compute; reflexivity|]. split.
  - intros e H. unfold input_amount_attempt. rewrite H. cbn [bind].
    apply py_float_raises_ValueError in H.
    unfold isinstance_ValueError. rewrite H. eexists. reflexivity.
  - intros H. unfold input_amount_attempt. rewrite H.
    eexists. reflexivity.
Qed.

(** C5, as stated, fails: 9007199254740993 is a decimal number, and
    the conversion returns 9007199254740992. *)
Lemma input_amount_rounds :
  ~ (forall text neg m e,
        decimal_literal text = Some (neg, m, e) ->
        input_amount_attempt text = Accepted (exact_trunc neg m e)).
Proof.
  intros H.
  specialize (H (u8 "9007199254740993") false 9007199254740993%Z 0%Z).
  assert (E : decimal_literal (u8 "9007199254740993")
              = Some (false, 9007199254740993%Z, 0%Z))
    by (vm_compute; reflexivity).
  specialize (H E). vm_compute in H. discriminate H.
Qed.


(** ** Malformed files *)

Lemma row_to_transaction_raises (row : list (pystr * strval)) :
  malformed_row row ->
  exists e, row_to_transaction row = Raise e /\
            (exn_cls e = KeyError \/ exn_cls e = TypeError \/
             exn_cls e = ValueError).
Proof.
  unfold malformed_row, row_to_transaction, getitem, bind.
  intros H.
  destruct (dict_get pystr_eqb row key_date) as [d|];
    [|eexists; split; [reflexivity|now left]].
  destruct (dict_get pystr_eqb row key_category) as [c|];
    [|eexists; split; [reflexivity|now left]].
  destruct (dict_get pystr_eqb row key_amount) as [[s|]|];
    [| eexists; split; [reflexivity|now right; left]
     | eexists; split; [reflexivity|now left]].
  destruct H as [H|[H|[H|[H|(s' & e & H & He)]]]]; try discriminate H.
  injection H as <-. cbn [float_of_strval]. rewrite He.
  exists e. split; [reflexivity|].
  right; right. eapply py_float_raises_ValueError; eassumption.
Qed.

Lemma row_to_transaction_classes (row : list (pystr * strval)) (e : exn) :
  row_to_transaction row = Raise e ->
  exn_cls e = KeyError \/ exn_cls e = TypeError \/ exn_cls e = ValueError.
Proof.
  unfold row_to_transaction, getitem, bind.
  destruct (dict_get pystr_eqb row key_date) as [d|];
    [|intros [= <-]; now left].
  destruct (dict_get pystr_eqb row key_category) as [c|];
    [|intros [= <-]; now left].
  destruct (dict_get pystr_eqb row key_amount) as [[s|]|];
    [| intros [= <-]; now right; left | intros [= <-]; now left].
  cbn [float_of_strval]. destruct (py_float s) eqn:E; [discriminate|].
  intros [= <-]. right; right. eapply py_float_raises_ValueError; eassumption.
Qed.

Lemma comprehension_raises (rs : rows (list (pystr * strval)))
  (row : list (pystr * strval)) :
  yields row rs -> malformed_row row ->
  exists e, comprehension rs = Raise e /\
            (exn_cls e = KeyError \/ exn_cls e = TypeError \/
             exn_cls e = ValueError).
Proof.
  induction 1 as [rest|y rest Hy IH]; intros Hbad.
  - destruct (row_to_transaction_raises Hbad) as (e & He & Hc).
    exists e. cbn [comprehension]. rewrite He. now split.
  - cbn [comprehension]. destruct (row_to_transaction y) as [t|e] eqn:E.
    + destruct (IH Hbad) as (e & He & Hc). exists e.
      cbn [bind]. rewrite He. now split.
    + exists e. split; [reflexivity|].
      eapply row_to_transaction_classes; eassumption.
Qed.

(** C10, amended. For every existing file among whose rows is a data
    row that lacks a column or whose amount [float()] does not
    accept, [load_from_csv] returns no list: an exception leaves it
    uncaught. It is a KeyError when the header does not name the
    column, a TypeError when the row is too short to reach the
    amount, and a ValueError when the amount is not a number; only
    the missing file is handled. *)
Theorem load_from_csv_malformed (fs : filesystem) (filename content : pystr)
  (row : list (pystr * strval)) :
  fs_get fs filename = Some (TextFile content) ->
  yields row (DictReader (text_lines content)) ->
  malformed_row row ->
  exists e, load_from_csv filename fs = Raise e /\
            (exn_cls e = KeyError \/ exn_cls e = TypeError \/
             exn_cls e = ValueError).
Proof.
  intros Hfile Hrow Hbad. unfold load_from_csv, read_text.
  rewrite Hfile. cbn [bind].
  destruct (comprehension_raises Hrow Hbad) as (e & He & Hc).
  rewrite He. exists e. split; [|exact Hc].
  unfold isinstance_FileNotFoundError.
  destruct Hc as [Hc|[Hc|Hc]]; rewrite Hc; reflexivity.
Qed.

(** C10, as stated, fails on the exception named: a file whose data
    row has two fields only makes [load_from_csv] raise TypeError,
    which is neither ValueError nor KeyError. *)
Lemma load_from_csv_short_row :
  ~ (forall fs filename content row,
        fs_get fs filename = Some (TextFile content) ->
        yields row (DictReader (text_lines content)) ->
        malformed_row row ->
        raises (load_from_csv filename fs) ValueError \/
        raises (load_from_csv filename fs) KeyError).
Proof.
  intros H.
  specialize (H [(csv_name, TextFile short_row_file)] csv_name short_row_file
                [(key_date, Str (u8 "2025/01/01"));
                 (key_category, Str (u8 "食費")); (key_amount, PyNone)]).
  destruct H as [(e & He & Hc)|(e & He & Hc)].
  - reflexivity.
  - vm_compute. constructor.
  - right; right; right; left. reflexivity.
  - vm_compute in He. injection He as <-. discriminate Hc.
  - vm_compute in He. injection He as <-. discriminate Hc.
Qed.


(** ** Saving and loading *)

Lemma plain_spec (s : pystr) :
  plain s <->
  s <> [] /\ Forall (fun c => plain_char c = true) s /\
  (N.of_nat (length s) <= field_limit)%N.
Proof.
  unfold plain, plainb. destruct s as [|c s].
  - split; [discriminate|]. intros [H _]. congruence.
  - rewrite andb_true_iff, N.leb_le, forallb_forall, Forall_forall.
    split; [intros [H1 H2]|intros (_ & H1 & H2)]; repeat split;
      try assumption; discriminate.
Qed.

Lemma plain_char_spec (c : char) :
  plain_char c = true <->
  c <> ch_comma /\ c <> ch_quote /\ c <> ch_cr /\ c <> ch_lf /\
  utf8_encodable c = true.
Proof.
  unfold plain_char, csv_special.
  rewrite andb_true_iff, negb_true_iff, !orb_false_iff, !N.eqb_neq. tauto.
Qed.

Lemma decimal_plain_char (c : char) (v : Z) :
  unicode_decimal c = Some v -> plain_char c = true.
Proof.
  intros H. unfold plain_char.
  rewrite (unicode_decimal_not_special _ H), (unicode_decimal_encodable _ H).
  reflexivity.
Qed.

Lemma ascii_digit_plain_char (c : char) :
  (48 <= c <= 57)%N -> plain_char c = true.
Proof.
  intros H. eapply decimal_plain_char.
  now apply unicode_decimal_of_ascii_digit.
Qed.

Ltac plain_chars :=
  repeat constructor;
  first [ eapply decimal_plain_char; eassumption
        | apply ascii_digit_plain_char; range_goal
        | reflexivity ].

Lemma lenient_date_plain (d : pystr) : lenient_date d -> plain d.
Proof.
  intros (year & month & day & (gY & gm & gd & -> & HY & Hm & Hd) & _).
  apply plain_spec.
  assert (HgY : Forall (fun c => plain_char c = true) gY /\ length gY = 4%nat)
    by (destruct HY; split; [plain_chars|reflexivity]).
  assert (Hgm : Forall (fun c => plain_char c = true) gm /\ (length gm <= 2)%nat)
    by (destruct Hm; split; try (cbn [length]; lia); plain_chars).
  assert (Hgd : Forall (fun c => plain_char c = true) gd /\ (length gd <= 2)%nat)
    by (destruct Hd; split; try (cbn [length]; lia); plain_chars).
  destruct HgY as [HY1 HY2], Hgm as [Hm1 Hm2], Hgd as [Hd1 Hd2].
  split; [destruct HY; discriminate|]. split.
  - apply Forall_app. split; [assumption|].
    constructor; [reflexivity|].
    apply Forall_app. split; [assumption|].
    constructor; [reflexivity|assumption].
  - rewrite length_app. cbn [length]. rewrite length_app. cbn [length].
    unfold field_limit. lia.
Qed.

Lemma categories_plain : forallb plainb categories = true.
Proof. vm_compute. reflexivity. Qed.

Lemma category_plain (c : pystr) : In c categories -> plain c.
Proof.
  intros H. pose proof categories_plain as Hall.
  rewrite forallb_forall in Hall. now apply Hall.
Qed.

Lemma header_plain : plain3 header3.
Proof. repeat split; vm_compute; reflexivity. Qed.

Lemma whole_double_digits (z : Z) :
  whole_double z -> (length (str_of_nonneg (Z.abs z)) <= 1025)%nat.
Proof.
  intros [_ Hlt].
  destruct (str_of_nonneg_spec (Z.abs_nonneg z)) as (_ & _ & _ & Hlen).
  assert (Hlog : (Z.log2 (Z.abs z) < 1024)%Z).
  { destruct (Z.eq_dec (Z.abs z) 0) as [->|Hnz]; [cbn; lia|].
    apply Z.log2_lt_pow2; [lia|].
    unfold overflow_threshold, one_in_units, unit_exp in Hlt.
    rewrite Z.pow_add_r in Hlt by lia.
    assert (0 < 2 ^ 1074)%Z by (apply Z.pow_pos_nonneg; lia).
    nia. }
  pose proof (Z.log2_nonneg (Z.abs z)). lia.
Qed.

Lemma str_of_Z_plain (z : Z) : whole_double z -> plain (str_of_Z z).
Proof.
  intros Hz. apply plain_spec.
  destruct (str_of_nonneg_spec (Z.abs_nonneg z)) as (Hall & Hne & _ & _).
  pose proof (whole_double_digits Hz) as Hlen.
  rewrite str_of_Z_sign. split; [|split].
  - intros E. apply app_eq_nil in E. tauto.
  - apply Forall_app. split.
    + destruct (z <? 0)%Z; repeat constructor.
    + revert Hall. apply Forall_impl. intros c Hc.
      now apply ascii_digit_plain_char.
  - rewrite length_app. unfold field_limit.
    destruct (z <? 0)%Z; cbn [length]; lia.
Qed.

Lemma py_str_int_whole (z : Z) :
  whole_double z -> py_str_int z = Return (str_of_Z z).
Proof.
  intros Hz. unfold py_str_int.
  pose proof (whole_double_digits Hz) as Hlen.
  destruct (Nat.ltb_spec int_max_str_digits (length (str_of_nonneg (Z.abs z))));
    [|reflexivity].
  unfold int_max_str_digits in *. lia.
Qed.


Lemma plain_not_special (s : pystr) :
  plain s -> existsb csv_special s = false.
Proof.
  intros H. apply plain_spec in H. destruct H as (_ & H & _).
  induction H as [|c s Hc Hs IH]; [reflexivity|].
  cbn [existsb]. rewrite IH, orb_false_r.
  unfold plain_char in Hc. apply andb_true_iff in Hc.
  now apply negb_true_iff.
Qed.

Lemma plain_encodable (s : pystr) :
  plain s -> forallb utf8_encodable s = true.
Proof.
  intros H. apply plain_spec in H. destruct H as (_ & H & _).
  apply forallb_forall. rewrite Forall_forall in H. intros c Hc.
  apply H in Hc. unfold plain_char in Hc. now apply andb_true_iff in Hc.
Qed.

Lemma csv_line_plain (f : pystr * pystr * pystr) :
  plain3 f -> csv_line (row_of f) = crlf_line f.
Proof.
  destruct f as [[d c] s]. intros (Hd & Hc & Hs).
  unfold csv_line, crlf_line, line_body, row_of. cbn [join_fields].
  unfold join_append.
  rewrite !plain_not_special by assumption.
  apply plain_spec in Hd. destruct Hd as (Hne & _).
  destruct d as [|x d]; [congruence|].
  cbn [app]. rewrite <- !app_assoc. cbn [app]. rewrite <- !app_assoc.
  reflexivity.
Qed.

Lemma file_write_plain (content : pystr) (f : pystr * pystr * pystr) :
  plain3 f -> file_write content (crlf_line f) = Return (content ++ crlf_line f).
Proof.
  destruct f as [[d c] s]. intros (Hd & Hc & Hs). unfold file_write.
  replace (forallb utf8_encodable (crlf_line (d, c, s))) with true;
    [reflexivity|].
  symmetry. unfold crlf_line, line_body.
  rewrite !forallb_app. cbn [forallb]. rewrite !forallb_app. cbn [forallb].
  rewrite !plain_encodable by assumption. reflexivity.
Qed.

(** *** Reading the lines back *)

Lemma line_body_no_newline (f : pystr * pystr * pystr) :
  plain3 f ->
  Forall (fun c => c <> ch_cr /\ c <> ch_lf) (line_body f).
Proof.
  destruct f as [[d c] s]. intros (Hd & Hc & Hs). unfold line_body.
  assert (H : forall x, plain x -> Forall (fun c => c <> ch_cr /\ c <> ch_lf) x).
  { intros x Hx. apply plain_spec in Hx. destruct Hx as (_ & Hx & _).
    revert Hx. apply Forall_impl. intros a Ha.
    apply plain_char_spec in Ha. tauto. }
  apply Forall_app. split; [now apply H|].
  constructor; [split; discriminate|].
  apply Forall_app. split; [now apply H|].
  constructor; [split; discriminate|now apply H].
Qed.

Lemma universal_newlines_line (body rest : pystr) :
  Forall (fun c => c <> ch_cr /\ c <> ch_lf) body ->
  universal_newlines (body ++ ch_cr :: ch_lf :: rest) =
  body ++ ch_lf :: universal_newlines rest.
Proof.
  induction 1 as [|c body [Hc _] Hbody IH].
  - cbn [app universal_newlines]. rewrite !N.eqb_refl. reflexivity.
  - cbn [app universal_newlines].
    destruct (N.eqb_spec c ch_cr); [contradiction|]. now rewrite IH.
Qed.

Lemma readlines_line (body rest : pystr) :
  Forall (fun c => c <> ch_cr /\ c <> ch_lf) body ->
  forall cur,
    readlines (body ++ ch_lf :: rest) cur =
    (cur ++ body ++ [ch_lf]) :: readlines rest [].
Proof.
  induction 1 as [|c body [_ Hc] Hbody IH]; intros cur.
  - cbn [app readlines]. rewrite N.eqb_refl. reflexivity.
  - cbn [app readlines].
    destruct (N.eqb_spec c ch_lf); [contradiction|].
    rewrite IH, <- app_assoc. reflexivity.
Qed.

Lemma text_lines_written (triples : list (pystr * pystr * pystr)) :
  Forall plain3 triples ->
  text_lines (concat (map crlf_line triples)) = map lf_line triples.
Proof.
  unfold text_lines. induction 1 as [|f fs Hf Hfs IH]; [reflexivity|].
  cbn [map concat]. unfold crlf_line at 1. rewrite <- app_assoc.
  cbn [app].
  rewrite (universal_newlines_line _ (line_body_no_newline _ Hf)).
  rewrite (readlines_line _ (line_body_no_newline _ Hf)).
  cbn [app]. rewrite IH. reflexivity.
Qed.


(** *** The reader on plain fields *)

Lemma parse_add_char_room (st : parser_state) (flds : list pystr)
  (buf : pystr) (c : char) :
  (N.of_nat (length buf) < field_limit)%N ->
  parse_add_char (mkReader st flds buf) c = Return (mkReader st flds (buf ++ [c])).
Proof.
  intros H. unfold parse_add_char. cbn [field fields state].
  destruct (N.leb_spec field_limit (N.of_nat (length buf))); [lia|reflexivity].
Qed.

Lemma plain_char_tests (c : char) :
  plain_char c = true ->
  is_newline c = false /\ (c =? ch_quote)%N = false /\ (c =? ch_comma)%N = false.
Proof.
  intros H. apply plain_char_spec in H. unfold is_newline.
  destruct H as (H1 & H2 & H3 & H4 & _).
  repeat split; try (apply N.eqb_neq; assumption).
  apply orb_false_iff. split; apply N.eqb_neq; assumption.
Qed.

Lemma process_char_in_field (flds : list pystr) (buf : pystr) (c : char) :
  plain_char c = true -> (N.of_nat (length buf) < field_limit)%N ->
  parse_process_char (mkReader IN_FIELD flds buf) (Some c) =
  Return (mkReader IN_FIELD flds (buf ++ [c])).
Proof.
  intros Hc Hroom. destruct (plain_char_tests _ Hc) as (Hn & _ & Hcomma).
  unfold parse_process_char. cbn [state].
  rewrite Hn, Hcomma. now apply parse_add_char_room.
Qed.

Lemma process_char_start (st : parser_state) (flds : list pystr) (c : char) :
  st = START_RECORD \/ st = START_FIELD ->
  plain_char c = true ->
  parse_process_char (mkReader st flds []) (Some c) =
  Return (mkReader IN_FIELD flds [c]).
Proof.
  intros Hst Hc. destruct (plain_char_tests _ Hc) as (Hn & Hq & Hcomma).
  unfold parse_process_char.
  destruct Hst as [-> | ->]; cbn [state]; rewrite Hn, Hq, Hcomma;
    rewrite parse_add_char_room by (unfold field_limit; cbn; lia);
    reflexivity.
Qed.

Lemma process_chars_in_field (f rest : pystr) :
  Forall (fun c => plain_char c = true) f ->
  forall flds buf,
    (N.of_nat (length buf + length f) <= field_limit)%N ->
    process_chars (mkReader IN_FIELD flds buf) (f ++ rest) =
    process_chars (mkReader IN_FIELD flds (buf ++ f)) rest.
Proof.
  induction 1 as [|c f Hc Hf IH]; intros flds buf Hlen.
  - cbn [app]. now rewrite app_nil_r.
  - cbn [app process_chars length] in *.
    rewrite process_char_in_field by (try assumption; lia).
    cbn [bind]. rewrite IH.
    + rewrite <- app_assoc. reflexivity.
    + rewrite length_app. cbn [length]. lia.
Qed.

Lemma process_chars_field (st : parser_state) (flds : list pystr)
  (f rest : pystr) :
  st = START_RECORD \/ st = START_FIELD -> plain f ->
  process_chars (mkReader st flds []) (f ++ rest) =
  process_chars (mkReader IN_FIELD flds f) rest.
Proof.
  intros Hst Hf. apply plain_spec in Hf. destruct Hf as (Hne & Hall & Hlen).
  destruct f as [|c f]; [congruence|].
  inversion Hall as [|? ? Hc Hf]; subst.
  cbn [app process_chars]. rewrite (@process_char_start st flds c Hst Hc).
  cbn [bind]. rewrite process_chars_in_field; [reflexivity|assumption|].
  cbn [length] in *. lia.
Qed.

Lemma process_line_plain (f : pystr * pystr * pystr) :
  plain3 f ->
  process_line parse_reset (lf_line f) =
  Return (mkReader START_RECORD (row_of f) []).
Proof.
  destruct f as [[d c] s]. intros (Hd & Hc & Hs).
  unfold process_line, lf_line, line_body, parse_reset, row_of.
  rewrite <- !app_assoc. cbn [app]. rewrite <- !app_assoc. cbn [app].
  rewrite process_chars_field by (try assumption; now left).
  cbn [process_chars].
  assert (Hcomma : forall flds buf,
             parse_process_char (mkReader IN_FIELD flds buf) (Some ch_comma) =
             Return (mkReader START_FIELD (flds ++ [buf]) []))
    by reflexivity.
  rewrite Hcomma. cbn [bind app].
  rewrite process_chars_field by (try assumption; now right).
  cbn [process_chars]. rewrite Hcomma. cbn [bind app].
  rewrite process_chars_field by (try assumption; now right).
  reflexivity.
Qed.

Lemma csv_reader_written (triples : list (pystr * pystr * pystr)) :
  Forall plain3 triples ->
  csv_reader (map lf_line triples) = to_rows (map row_of triples).
Proof.
  unfold csv_reader. induction 1 as [|f fs Hf Hfs IH]; [reflexivity|].
  cbn [map reader_rows to_rows fold_right].
  rewrite (process_line_plain _ Hf). cbn [state is_start_record fields].
  fold (to_rows (map row_of fs)). rewrite <- IH. reflexivity.
Qed.


Lemma DictReader_written (triples : list (pystr * pystr * pystr)) :
  Forall plain3 triples ->
  DictReader (map lf_line (header3 :: triples)) = to_rows (map dict_of triples).
Proof.
  intros H. unfold DictReader.
  rewrite csv_reader_written by (constructor; [exact header_plain|exact H]).
  cbn [map to_rows fold_right].
  change (row_of header3) with fieldnames.
  clear H. induction triples as [|[[d c] s] fs IH]; [reflexivity|].
  cbn [map fold_right dict_rows row_of]. rewrite IH. reflexivity.
Qed.

Lemma row_to_transaction_written (d c : pystr) (z : Z) :
  whole_double z ->
  row_to_transaction (dict_of (fields3 d c z)) = Return (loaded_record d c z).
Proof.
  intros Hz. unfold row_to_transaction, dict_of, fields3.
  change (getitem [(key_date, Str d); (key_category, Str c);
                   (key_amount, Str (str_of_Z z))] key_date)
    with (@Return strval (Str d)).
  change (getitem [(key_date, Str d); (key_category, Str c);
                   (key_amount, Str (str_of_Z z))] key_category)
    with (@Return strval (Str c)).
  change (getitem [(key_date, Str d); (key_category, Str c);
                   (key_amount, Str (str_of_Z z))] key_amount)
    with (@Return strval (Str (str_of_Z z))).
  cbn [bind float_of_strval]. rewrite (py_float_str_of_Z Hz). reflexivity.
Qed.

Lemma comprehension_written (transaction_list : list transaction)
  (triples : list (pystr * pystr * pystr)) :
  Forall2 (fun t f => exists d c z,
             t = mkTransaction (Str d) (Str c) (Int z) /\
             f = fields3 d c z /\ plain3 f /\ whole_double z)
          transaction_list triples ->
  exists loaded,
    comprehension (to_rows (map dict_of triples)) = Return loaded /\
    Forall2 same_record transaction_list loaded.
Proof.
  induction 1 as [|t f ts fs (d & c & z & -> & -> & Hp & Hz) Hrest
                    (loaded & Hl & Hsame)].
  - exists []. split; [reflexivity|constructor].
  - exists (loaded_record d c z :: loaded). split.
    + cbn [map to_rows fold_right comprehension].
      rewrite (row_to_transaction_written d c Hz). cbn [bind].
      fold (to_rows (map dict_of fs)). rewrite Hl. reflexivity.
    + constructor; [|exact Hsame].
      repeat split. apply number_eqb_int_float.
Qed.

Lemma fs_get_put (fs : filesystem) (path : pystr) (f : file) :
  fs_get (fs_put fs path f) path = Some f.
Proof.
  unfold fs_get, fs_put.
  induction fs as [|[k v] fs IH]; cbn [dict_set dict_get].
  - rewrite pystr_eqb_refl. reflexivity.
  - destruct (pystr_eqb k path) eqn:E; cbn [dict_get]; rewrite E;
      [reflexivity|exact IH].
Qed.

Lemma valid_transaction_fields (t : transaction) :
  valid_transaction t ->
  exists d c z,
    t = mkTransaction (Str d) (Str c) (Int z) /\
    fields3 d c z = fields3 d c z /\ plain3 (fields3 d c z) /\ whole_double z.
Proof.
  intros (d & c & z & -> & Hd & Hc & text & Hz).
  exists d, c, z. split; [reflexivity|]. split; [reflexivity|].
  apply input_amount_attempt_whole in Hz.
  apply input_date_attempt_accepted in Hd. destruct Hd as [_ Hd].
  split; [|exact Hz].
  repeat split.
  - now apply lenient_date_plain.
  - now apply category_plain.
  - now apply str_of_Z_plain.
Qed.

Lemma valid_transactions_triples (transaction_list : list transaction) :
  Forall valid_transaction transaction_list ->
  exists triples,
    Forall2 (fun t f => exists d c z,
               t = mkTransaction (Str d) (Str c) (Int z) /\
               f = fields3 d c z /\ plain3 f /\ whole_double z)
            transaction_list triples /\
    Forall plain3 triples.
Proof.
  induction 1 as [|t ts Ht Hts (triples & H2 & Hp)].
  - exists []. split; constructor.
  - destruct (valid_transaction_fields Ht) as (d & c & z & -> & _ & Hp3 & Hz).
    exists (fields3 d c z :: triples). split; constructor; try assumption.
    exists d, c, z. split; [reflexivity|]. split; [reflexivity|].
    split; assumption.
Qed.

Lemma prompt_loop_returns (A : Type) (prompt : pystr)
  (body : pystr -> attempt A) (lines : list pystr) :
  forall out a lines' out',
    prompt_loop prompt body lines out = (Return a, lines', out') ->
    exists line, In line lines /\ body line = Accepted a.
Proof.
  induction lines as [|line rest IH]; intros out a lines' out' H.
  - discriminate H.
  - cbn [prompt_loop] in H. destruct (body line) as [x|notice|e] eqn:E.
    + injection H as <- _ _. exists line. split; [now left|exact E].
    + apply IH in H. destruct H as (l & Hl & Hb).
      exists l. split; [now right|exact Hb].
    + discriminate H.
Qed.

(** The records [add_transaction] returns are the valid ones. *)
Lemma add_transaction_valid (lines : list pystr) (out : list item)
  (t : transaction) (lines' : list pystr) (out' : list item) :
  add_transaction lines out = (Return t, lines', out') ->
  valid_transaction t.
Proof.
  unfold add_transaction, input_date, input_category, input_amount.
  destruct (prompt_loop date_prompt _ lines out) as [[[d|e] l1] o1] eqn:E1;
    [|discriminate].
  destruct (prompt_loop number_prompt _ l1 _) as [[[c|e] l2] o2] eqn:E2;
    [|discriminate].
  destruct (prompt_loop amount_prompt _ l2 o2) as [[[z|e] l3] o3] eqn:E3;
    [|discriminate].
  intros [= <- _ _]. exists d, c, z. split; [reflexivity|].
  apply prompt_loop_returns in E1, E2, E3.
  destruct E1 as (line1 & _ & H1), E2 as (line2 & _ & H2),
           E3 as (line3 & _ & H3).
  split; [|split].
  - pose proof (input_date_attempt_accepted _ H1) as [-> _]. exact H1.
  - unfold input_category_attempt in H2.
    destruct (py_int line2) as [i|e]; [|destruct (isinstance_ValueError e); discriminate].
    destruct ((0 <=? i - 1)%Z && (i - 1 <? Z.of_nat (length categories))%Z);
      [|discriminate].
    destruct (nth_error categories (Z.to_nat (i - 1))) as [c'|] eqn:En;
      [|discriminate].
    injection H2 as <-. eapply nth_error_In; eassumption.
  - now exists line3.
Qed.

(** ** The input consumed *)

Lemma prompt_loop_shrinks (A : Type) (prompt : pystr)
  (body : pystr -> attempt A) (lines : list pystr) :
  forall out r lines' out',
    prompt_loop prompt body lines out = (r, lines', out') ->
    (length lines' <= length lines)%nat.
Proof.
  induction lines as [|line rest IH]; intros out r lines' out' H.
  - injection H as _ <- _. apply Nat.le_refl.
  - cbn [prompt_loop] in H. cbn [length].
    destruct (body line) as [x|notice|e].
    + injection H as _ <- _. apply Nat.le_succ_diag_r.
    + apply IH in H. apply Nat.le_le_succ_r. exact H.
    + injection H as _ <- _. apply Nat.le_succ_diag_r.
Qed.

Lemma add_transaction_shrinks (lines : list pystr) (out : list item)
  (r : result transaction) (lines' : list pystr) (out' : list item) :
  add_transaction lines out = (r, lines', out') ->
  (length lines' <= length lines)%nat.
Proof.
  unfold add_transaction, input_date, input_category, input_amount.
  destruct (prompt_loop date_prompt _ lines out) as [[r1 l1] o1] eqn:E1.
  apply prompt_loop_shrinks in E1.
  destruct r1 as [d|e]; [|intros [= _ <- _]; exact E1].
  destruct (prompt_loop number_prompt _ l1 _) as [[r2 l2] o2] eqn:E2.
  apply prompt_loop_shrinks in E2.
  destruct r2 as [c|e];
    [|intros [= _ <- _]; eapply Nat.le_trans; eassumption].
  destruct (prompt_loop amount_prompt _ l2 o2) as [[r3 l3] o3] eqn:E3.
  apply prompt_loop_shrinks in E3.
  assert (length l3 <= length lines)%nat
    by (eapply Nat.le_trans; [exact E3|eapply Nat.le_trans; eassumption]).
  destruct r3 as [z|e]; intros [= _ <- _]; assumption.
Qed.

(** ** The input loops *)

Lemma prompt_loop_rejects (A : Type) (prompt : pystr)
  (body : pystr -> attempt A) (rejected notices : list pystr) :
  Forall2 (fun line notice => body line = Rejected notice) rejected notices ->
  forall rest out,
    prompt_loop prompt body (rejected ++ rest) out =
    prompt_loop prompt body rest (out ++ reprompts prompt notices).
Proof.
  induction 1 as [|line notice rejected notices Hline _ IH]; intros rest out.
  - cbn. now rewrite app_nil_r.
  - cbn [app prompt_loop]. rewrite Hline, IH.
    unfold reprompts. cbn [map concat]. now rewrite <- app_assoc.
Qed.

Lemma prompt_loop_raises (A : Type) (prompt : pystr)
  (body : pystr -> attempt A) (lines : list pystr) :
  forall out e lines' out',
    prompt_loop prompt body lines out = (Raise e, lines', out') ->
    (e = eof_error /\ lines' = [] /\
     Forall (fun line => exists notice, body line = Rejected notice) lines) \/
    exists line, In line lines /\ body line = Escaped e.
Proof.
  induction lines as [|line rest IH]; intros out e lines' out' H.
  - injection H as <- <- _. left. repeat split. constructor.
  - cbn [prompt_loop] in H. destruct (body line) as [x|notice|e'] eqn:E.
    + discriminate H.
    + apply IH in H. destruct H as [(-> & -> & Hall)|(l & Hl & Hb)].
      * left. repeat split. constructor; [now exists notice|exact Hall].
      * right. exists l. split; [now right|exact Hb].
    + injection H as <- _ _. right. exists line. split; [now left|exact E].
Qed.

Lemma prompt_loop_prints (A : Type) (prompt : pystr)
  (body : pystr -> attempt A) (lines : list pystr) :
  forall out r lines' out',
    prompt_loop prompt body lines out = (r, lines', out') ->
    exists tail, out' = out ++ tail.
Proof.
  induction lines as [|line rest IH]; intros out r lines' out' H.
  - injection H as _ _ <-. now eexists.
  - cbn [prompt_loop] in H. destruct (body line) as [x|notice|e'].
    + injection H as _ _ <-. now eexists.
    + apply IH in H. destruct H as [tail ->].
      rewrite <- app_assoc. now eexists.
    + injection H as _ _ <-. now eexists.
Qed.

Lemma input_date_attempt_rejects (s : pystr) :
  ~ lenient_date s -> input_date_attempt s = Rejected date_notice.
Proof.
  intros H. unfold input_date_attempt.
  destruct (strptime_Ymd s) as [r|e] eqn:E.
  - exfalso. apply H. apply strptime_Ymd_returns. now exists r.
  - apply strptime_Ymd_raises_ValueError in E.
    unfold isinstance_ValueError, date_notice. rewrite E. reflexivity.
Qed.

Lemma input_date_attempt_takes (s : pystr) :
  lenient_date s -> input_date_attempt s = Accepted s.
Proof.
  intros H. apply strptime_Ymd_returns in H. destruct H as [r H].
  unfold input_date_attempt. now rewrite H.
Qed.

Lemma input_date_attempt_not_escaped (s : pystr) (e : exn) :
  input_date_attempt s <> Escaped e.
Proof.
  unfold input_date_attempt. destruct (strptime_Ymd s) as [r|e'] eqn:E.
  - discriminate.
  - apply strptime_Ymd_raises_ValueError in E.
    unfold isinstance_ValueError. rewrite E. discriminate.
Qed.

Lemma rejected_dates (lines : list pystr) :
  Forall (fun line => ~ lenient_date line) lines ->
  Forall2 (fun line notice => input_date_attempt line = Rejected notice)
    lines (map (fun _ => date_notice) lines).
Proof.
  induction 1 as [|line lines H _ IH]; constructor.
  - now apply input_date_attempt_rejects.
  - exact IH.
Qed.

(** X1. [input_date] asks again until a line is a date: it goes past
    the lines that are no dates, printing the prompt and the notice
    once for each, and returns the first line that is a date, as it
    was typed; the lines after it are left for the next [input()]. *)
Theorem input_date_first_date (rejected : list pystr) (line : pystr)
  (rest : list pystr) (out : list item) :
  Forall (fun l => ~ lenient_date l) rejected ->
  lenient_date line ->
  input_date (rejected ++ line :: rest) out =
  (Return line, rest,
   out ++ reprompts date_prompt (map (fun _ => date_notice) rejected)
       ++ [Prompt date_prompt]).
Proof.
  intros Hrej Hline. unfold input_date.
  rewrite (prompt_loop_rejects _ _ (rejected_dates Hrej)).
  cbn [prompt_loop]. rewrite (input_date_attempt_takes Hline).
  now rewrite <- app_assoc.
Qed.

(** X2. [input_date] raises nothing of its own: it ends without a
    date only when the input ends, with the EOFError of [input()],
    after every line typed was refused; and on lines none of which is
    a date this is what happens, one notice a line. *)
Theorem input_date_gives_up (lines : list pystr) (out : list item) :
  (forall e lines' out',
      input_date lines out = (Raise e, lines', out') ->
      e = eof_error /\ lines' = [] /\
      Forall (fun l => ~ lenient_date l) lines) /\
  (Forall (fun l => ~ lenient_date l) lines ->
   input_date lines out =
   (Raise eof_error, [],
    out ++ reprompts date_prompt (map (fun _ => date_notice) lines)
        ++ [Prompt date_prompt])).
Proof.
  unfold input_date. split.
  - intros e lines' out' H. apply prompt_loop_raises in H.
    destruct H as [(-> & -> & Hall)|(l & _ & Hl)].
    + repeat split. eapply Forall_impl; [|exact Hall].
      intros l [notice Hl] Hdate.
      rewrite (input_date_attempt_takes Hdate) in Hl. discriminate Hl.
    + now apply input_date_attempt_not_escaped in Hl.
  - intros Hrej.
    rewrite <- (app_nil_r lines) at 1.
    rewrite (prompt_loop_rejects _ _ (rejected_dates Hrej)).
    cbn [prompt_loop]. now rewrite <- app_assoc.
Qed.
Lemma input_category_attempt_accepted (cats : list pystr) (text c : pystr) :
  input_category_attempt cats text = Accepted c ->
  exists i, py_int text = Return i /\
            (1 <= i <= Z.of_nat (length cats))%Z /\
            nth_error cats (Z.to_nat (i - 1)) = Some c.
Proof.
  unfold input_category_attempt.
  destruct (py_int text) as [i|e];
    [|destruct (isinstance_ValueError e); discriminate].
  destruct ((0 <=? i - 1)%Z && (i - 1 <? Z.of_nat (length cats))%Z) eqn:Hr;
    [|discriminate].
  destruct (nth_error cats (Z.to_nat (i - 1))) as [c'|] eqn:En; [|discriminate].
  intros [= <-]. exists i. apply andb_true_iff in Hr. destruct Hr as [H0 H1].
  apply Z.leb_le in H0. apply Z.ltb_lt in H1.
  split; [reflexivity|]. split; [lia|exact En].
Qed.

Lemma input_category_attempt_not_escaped (cats : list pystr) (text : pystr)
  (e : exn) :
  input_category_attempt cats text <> Escaped e.
Proof.
  unfold input_category_attempt. destruct (py_int text) as [i|e'] eqn:E.
  - destruct ((0 <=? i - 1)%Z && (i - 1 <? Z.of_nat (length cats))%Z) eqn:Hr;
      [|discriminate].
    apply andb_true_iff in Hr. destruct Hr as [H0 H1].
    apply Z.leb_le in H0. apply Z.ltb_lt in H1.
    destruct (nth_error cats (Z.to_nat (i - 1))) as [c|] eqn:En;
      [discriminate|].
    apply nth_error_None in En. lia.
  - apply py_int_raises_ValueError in E.
    unfold isinstance_ValueError. rewrite E. discriminate.
Qed.

(** X3. [input_category] prints the heading and the numbered menu
    once, before the first prompt; what it returns is always one of
    the categories it was given, the one at the place the accepted
    number names; and it ends without a category only with the
    EOFError of [input()] at the end of the input: the index it uses
    is never out of the list. *)
Theorem input_category_in_categories (cats : list pystr)
  (lines : list pystr) (out : list item) :
  (forall c lines' out',
      input_category cats lines out = (Return c, lines', out') ->
      In c cats /\
      (exists line i,
          In line lines /\ py_int line = Return i /\
          (1 <= i <= Z.of_nat (length cats))%Z /\
          nth_error cats (Z.to_nat (i - 1)) = Some c) /\
      exists tail,
        out' = out ++ Print category_heading :: print_menu 1 cats ++ tail) /\
  (forall e lines' out',
      input_category cats lines out = (Raise e, lines', out') ->
      e = eof_error /\ lines' = []).
Proof.
  unfold input_category. split.
  - intros c lines' out' H.
    pose proof (prompt_loop_prints _ _ _ _ H) as [tail ->].
    apply prompt_loop_returns in H. destruct H as (line & Hin & Hacc).
    apply input_category_attempt_accepted in Hacc.
    destruct Hacc as (i & Hi & Hrange & Hnth).
    split; [eapply nth_error_In; exact Hnth|].
    split; [now exists line, i|].
    exists tail. rewrite <- app_assoc. unfold category_heading.
    reflexivity.
  - intros e lines' out' H. apply prompt_loop_raises in H.
    destruct H as [(-> & -> & _)|(l & _ & Hl)]; [now split|].
    now apply input_category_attempt_not_escaped in Hl.
Qed.

Lemma print_menu_nth (cats : list pystr) :
  forall (i : Z) (k : nat) (c : pystr),
    nth_error cats k = Some c ->
    nth_error (print_menu i cats) k =
    Some (Print (str_of_Z (i + Z.of_nat k) ++ u8 ". " ++ c)).
Proof.
  induction cats as [|cat cats IH]; intros i k c H.
  - destruct k; discriminate H.
  - destruct k as [|k].
    + injection H as <-. cbn [print_menu nth_error].
      now rewrite Z.add_0_r.
    + cbn [print_menu nth_error]. cbn [nth_error] in H.
      rewrite (IH _ _ _ H).
      replace (i + Z.of_nat (S k))%Z with (i + 1 + Z.of_nat k)%Z by lia.
      reflexivity.
Qed.

(** X4. The numbers of the menu are the numbers that select: the
    line printed for the category at place [k] (counted from 0)
    shows the number [k + 1], and that number typed at the prompt
    selects that category. *)
Theorem menu_number_selects (cats : list pystr) (k : nat) (c : pystr) :
  (Z.of_nat (length cats) < 2 ^ 53)%Z ->
  nth_error cats k = Some c ->
  nth_error (print_menu 1 cats) k =
    Some (Print (str_of_Z (Z.of_nat k + 1) ++ u8 ". " ++ c)) /\
  input_category_attempt cats (str_of_Z (Z.of_nat k + 1)) = Accepted c.
Proof.
  intros Hlen Hnth. split.
  - rewrite (print_menu_nth _ 1 _ Hnth).
    replace (1 + Z.of_nat k)%Z with (Z.of_nat k + 1)%Z by lia.
    reflexivity.
  - assert (Hk : (k < length cats)%nat)
      by (apply nth_error_Some; rewrite Hnth; discriminate).
    assert (Hint : py_int (str_of_Z (Z.of_nat k + 1)) =
                   Return (Z.of_nat k + 1)%Z).
    { apply py_int_str_of_Z.
      eapply Nat.le_trans; [apply whole_double_digits|].
      - apply whole_double_small. lia.
      - unfold int_max_str_digits. lia. }
    destruct (input_category_attempt_in_range cats _ Hint) as (c' & Hc' & ->);
      [lia|].
    replace (Z.to_nat (Z.of_nat k + 1 - 1)) with k in Hc' by lia.
    congruence.
Qed.

Lemma input_amount_attempt_escaped (text : pystr) (e : exn) :
  input_amount_attempt text = Escaped e -> e = infinity_error.
Proof.
  unfold input_amount_attempt.
  destruct (py_float text) as [x|e'] eqn:E; cbn [bind].
  - destruct x as [neg k|neg|]; cbn; [discriminate| |discriminate].
    now intros [= <-].
  - apply py_float_raises_ValueError in E.
    unfold isinstance_ValueError. rewrite E. discriminate.
Qed.

(** X5. [input_amount] returns an integer that is a binary64 value
    (the float it came from, truncated). It ends without an amount
    in two ways only: with the EOFError of [input()] at the end of
    the input, or with the OverflowError of an infinite amount; no
    other exception leaves it. *)
Theorem input_amount_outcomes (lines : list pystr) (out : list item) :
  (forall z lines' out',
      input_amount lines out = (Return z, lines', out') ->
      whole_double z /\
      exists line x,
        In line lines /\ py_float line = Return x /\
        int_of_float x = Return z) /\
  (forall e lines' out',
      input_amount lines out = (Raise e, lines', out') ->
      (e = eof_error /\ lines' = []) \/ e = infinity_error).
Proof.
  unfold input_amount. split.
  - intros z lines' out' H.
    apply prompt_loop_returns in H. destruct H as (line & Hin & Hacc).
    split; [eapply input_amount_attempt_whole; exact Hacc|].
    apply input_amount_attempt_accepts in Hacc. destruct Hacc as (x & Hx & Hz).
    now exists line, x.
  - intros e lines' out' H. apply prompt_loop_raises in H.
    destruct H as [(-> & -> & _)|(l & _ & Hl)]; [left; now split|].
    right. eapply input_amount_attempt_escaped; exact Hl.
Qed.

(** X6. An integer typed in decimal is taken as it is, whatever its
    sign, as long as it is a binary64 value, which every integer
    below 2^53 in size is: [input_amount] checks no sign and no
    range, so zero and negative amounts enter the ledger. *)
Theorem input_amount_takes_integers (z : Z) :
  (whole_double z -> input_amount_attempt (str_of_Z z) = Accepted z) /\
  ((Z.abs z < 2 ^ 53)%Z -> input_amount_attempt (str_of_Z z) = Accepted z).
Proof.
  assert (H : whole_double z -> input_amount_attempt (str_of_Z z) = Accepted z).
  { intros Hz. rewrite (input_amount_attempt_finite _ (py_float_str_of_Z Hz)).
    pose proof one_in_units_pos.
    rewrite Z.div_mul by lia.
    destruct (Z.ltb_spec z 0); f_equal; lia. }
  split; [exact H|]. intros Hz. apply H. now apply whole_double_small.
Qed.
Lemma leap_day_text : u8 "/02/29" = [ch_slash; d0; d2; ch_slash; d2; d9].
Proof. vm_compute. reflexivity. Qed.

Lemma is_leap_spec (year : Z) :
  is_leap year = true <->
  (year mod 4 = 0 /\ (year mod 100 <> 0 \/ year mod 400 = 0))%Z.
Proof.
  unfold is_leap.
  rewrite andb_true_iff, orb_true_iff, negb_true_iff, !Z.eqb_eq, Z.eqb_neq.
  reflexivity.
Qed.

(** X7. The 29th of February is taken as a date exactly in the leap
    years of the Gregorian calendar (from the year 1 on): the years
    divisible by 4, those divisible by 100 and not by 400 apart. *)
Theorem input_date_leap_day (y1 y2 y3 y4 : char) :
  Forall (fun c => (d0 <= c <= d9)%N) [y1; y2; y3; y4] ->
  input_date_attempt ([y1; y2; y3; y4] ++ u8 "/02/29") =
    Accepted ([y1; y2; y3; y4] ++ u8 "/02/29") <->
  (1 <= year_of y1 y2 y3 y4 /\
   (year_of y1 y2 y3 y4) mod 4 = 0 /\
   ((year_of y1 y2 y3 y4) mod 100 <> 0 \/
    (year_of y1 y2 y3 y4) mod 400 = 0))%Z.
Proof.
  intros Hy. rewrite leap_day_text.
  repeat match goal with
         | H : Forall _ (_ :: _) |- _ => inversion_clear H
         end.
  assert (Hdec : forall c, (d0 <= c <= d9)%N ->
                           unicode_decimal c = Some (ascii_value c))
    by (intros c Hc; apply unicode_decimal_of_ascii_digit; exact Hc).
  rewrite <- is_leap_spec. split.
  - intros Hacc. apply input_date_attempt_accepted in Hacc.
    destruct Hacc as (_ & year & month & day &
                      (gY & gm & gd & Heq & HY & Hm & Hd) & Hyear & Hday).
    inversion HY as [a b c d va vb vc vd Ha Hb Hc Hd' EY Eyear]. subst gY year.
    cbn [app] in Heq. injection Heq as <- <- <- <- Hrest.
    rewrite Hdec in Ha, Hb, Hc, Hd' by assumption.
    injection Ha as <-. injection Hb as <-.
    injection Hc as <-. injection Hd' as <-.
    assert (Hmd : month = 2%Z /\ gd = [d2; d9]).
    { inversion Hm as [c Hc Eg Em|c Hc Eg Em|c Hc Eg Em]; subst gm;
        cbn [app] in Hrest.
      - injection Hrest as <- _. unfold d0, d1 in Hc. lia.
      - injection Hrest as <- <-. now split.
      - injection Hrest as E _. discriminate E. }
    destruct Hmd as [-> ->].
    assert (Hday29 : day = 29%Z).
    { inversion Hd as [c Hc Eg Em|c Hc Eg Em|c Hc Eg Em
                      |t u v Ht Hu Eg Em|c Hc Eg Em].
      - subst. rewrite (Hdec d9) in Hu by (unfold d0, d9; lia).
        injection Hu as <-. reflexivity. }
    subst day. unfold real_date, days_in_month in Hday.
    change (2 =? 2)%Z with true in Hday. cbv iota in Hday.
    fold (year_of y1 y2 y3 y4) in Hyear, Hday.
    destruct (is_leap (year_of y1 y2 y3 y4)); [split; [lia|reflexivity]|lia].
  - intros [Hyear Hleap]. apply input_date_attempt_takes.
    exists (year_of y1 y2 y3 y4), 2%Z, 29%Z. split.
    + exists [y1; y2; y3; y4], [d0; d2], [d2; d9]. split; [reflexivity|].
      split; [|split].
      * unfold year_of. constructor; apply Hdec; assumption.
      * apply (@month_padded d2). unfold d1, d2, d9. lia.
      * apply (@day_ten_to_twenty_nine d2 d9 9%Z).
        -- unfold d1, d2. lia.
        -- vm_compute. reflexivity.
    + unfold real_date, days_in_month.
      change (2 =? 2)%Z with true. cbv iota. rewrite Hleap. lia.
Qed.

(** ** add_transaction *)

Lemma prompt_loop_consumes (A : Type) (prompt : pystr)
  (body : pystr -> attempt A) (lines : list pystr) :
  forall out a lines' out',
    prompt_loop prompt body lines out = (Return a, lines', out') ->
    exists used, lines = used ++ lines' /\ (1 <= length used)%nat.
Proof.
  induction lines as [|line rest IH]; intros out a lines' out' H.
  - discriminate H.
  - cbn [prompt_loop] in H. destruct (body line) as [x|notice|e].
    + injection H as _ <- _. exists [line]. split; [reflexivity|cbn; lia].
    + apply IH in H. destruct H as (used & -> & Hlen).
      exists (line :: used). split; [reflexivity|cbn; lia].
    + discriminate H.
Qed.

(** X8. What [add_transaction] returns is a record of a date that
    [input_date] takes, one of the five categories and an integer
    amount, and at least three of the lines typed went into it, the
    ones left being the end of the input. It ends without a record in
    two ways only: the input ended (EOFError) or an infinite amount
    was typed (OverflowError). *)
Theorem add_transaction_outcomes (lines : list pystr) (out : list item) :
  (forall t lines' out',
      add_transaction lines out = (Return t, lines', out') ->
      valid_transaction t /\
      exists used, lines = used ++ lines' /\ (3 <= length used)%nat) /\
  (forall e lines' out',
      add_transaction lines out = (Raise e, lines', out') ->
      (e = eof_error /\ lines' = []) \/ e = infinity_error).
Proof.
  split.
  - intros t lines' out' H.
    split; [eapply add_transaction_valid; exact H|].
    revert H. unfold add_transaction.
    destruct (input_date lines out) as [[[d|e] l1] o1] eqn:E1;
      [|discriminate].
    destruct (input_category categories l1 o1) as [[[c|e] l2] o2] eqn:E2;
      [|discriminate].
    destruct (input_amount l2 o2) as [[[z|e] l3] o3] eqn:E3; [|discriminate].
    intros [= _ <- _].
    apply prompt_loop_consumes in E1, E2, E3.
    destruct E1 as (u1 & -> & H1), E2 as (u2 & -> & H2),
             E3 as (u3 & -> & H3).
    exists (u1 ++ u2 ++ u3). split.
    + now rewrite <- !app_assoc.
    + rewrite !length_app. lia.
  - intros e lines' out'.
    unfold add_transaction, input_date, input_category, input_amount.
    destruct (prompt_loop date_prompt _ lines out) as [[[d|e1] l1] o1] eqn:E1.
    + destruct (prompt_loop number_prompt _ l1 _) as [[[c|e2] l2] o2] eqn:E2.
      * destruct (prompt_loop amount_prompt _ l2 o2) as [[[z|e3] l3] o3] eqn:E3;
          [discriminate|].
        intros [= <- <- _]. apply prompt_loop_raises in E3.
        destruct E3 as [(-> & -> & _)|(l & _ & Hl)]; [left; now split|].
        right. eapply input_amount_attempt_escaped; exact Hl.
      * intros [= <- <- _]. left. apply prompt_loop_raises in E2.
        destruct E2 as [(-> & -> & _)|(l & _ & Hl)]; [now split|].
        now apply input_category_attempt_not_escaped in Hl.
    + intros [= <- <- _]. left. apply prompt_loop_raises in E1.
      destruct E1 as [(-> & -> & _)|(l & _ & Hl)]; [now split|].
      now apply input_date_attempt_not_escaped in Hl.
Qed.

(** X9. The three questions in their order. On an input made of
    lines that are no dates, then a date, then lines [input_category]
    refuses, then a number of the menu, then lines [input_amount]
    refuses, then an amount, [add_transaction] returns the record of
    that date, that category and that amount, leaves the rest of the
    input, and has printed: the date prompt (with the notice after
    each refusal), the heading and the menu once, the number prompt
    (with its notices), the amount prompt (with its notices). *)
Theorem add_transaction_dialogue
  (no_dates : list pystr) (d : pystr)
  (no_numbers number_notices : list pystr) (n c : pystr)
  (no_amounts amount_notices : list pystr) (a : pystr) (z : Z)
  (rest : list pystr) (out : list item) :
  Forall (fun l => ~ lenient_date l) no_dates ->
  lenient_date d ->
  Forall2 (fun l notice => input_category_attempt categories l = Rejected notice)
    no_numbers number_notices ->
  input_category_attempt categories n = Accepted c ->
  Forall2 (fun l notice => input_amount_attempt l = Rejected notice)
    no_amounts amount_notices ->
  input_amount_attempt a = Accepted z ->
  add_transaction
    (no_dates ++ d :: no_numbers ++ n :: no_amounts ++ a :: rest) out =
  (Return (mkTransaction (Str d) (Str c) (Int z)), rest,
   out ++ reprompts date_prompt (map (fun _ => date_notice) no_dates)
       ++ [Prompt date_prompt]
       ++ Print category_heading :: print_menu 1 categories
       ++ reprompts number_prompt number_notices ++ [Prompt number_prompt]
       ++ reprompts amount_prompt amount_notices ++ [Prompt amount_prompt]).
Proof.
  intros Hnd Hd Hnn Hn Hna Ha.
  unfold add_transaction, input_date, input_category, input_amount.
  rewrite (prompt_loop_rejects _ _ (rejected_dates Hnd)).
  cbn [prompt_loop]. rewrite (input_date_attempt_takes Hd).
  rewrite (prompt_loop_rejects _ _ Hnn).
  cbn [prompt_loop]. rewrite Hn.
  rewrite (prompt_loop_rejects _ _ Hna).
  cbn [prompt_loop]. rewrite Ha.
  unfold category_heading. repeat rewrite <- app_assoc. cbn [app].
  reflexivity.
Qed.

(** ** Reading a ledger *)

Lemma row_to_transaction_fields (f : pystr * pystr * pystr) :
  row_to_transaction (dict_of f) =
  (x <- py_float (third f) ;; Return (record_of_fields f x)).
Proof.
  destruct f as [[d c] s]. unfold row_to_transaction, dict_of, third.
  change (getitem [(key_date, Str d); (key_category, Str c);
                   (key_amount, Str s)] key_date)
    with (@Return strval (Str d)).
  change (getitem [(key_date, Str d); (key_category, Str c);
                   (key_amount, Str s)] key_category)
    with (@Return strval (Str c)).
  change (getitem [(key_date, Str d); (key_category, Str c);
                   (key_amount, Str s)] key_amount)
    with (@Return strval (Str s)).
  reflexivity.
Qed.

Lemma comprehension_fields (triples : list (pystr * pystr * pystr))
  (xs : list float) :
  Forall2 (fun f x => py_float (third f) = Return x) triples xs ->
  comprehension (to_rows (map dict_of triples)) =
  Return (map (fun p => record_of_fields (fst p) (snd p)) (combine triples xs)).
Proof.
  induction 1 as [|f x fs xs Hx _ IH]; [reflexivity|].
  cbn [map to_rows fold_right comprehension combine fst snd].
  rewrite row_to_transaction_fields, Hx. cbn [bind].
  fold (to_rows (map dict_of fs)). rewrite IH. reflexivity.
Qed.

Lemma handler_passes (r : result (list transaction)) :
  (forall e, r = Raise e -> exn_cls e <> FileNotFoundError) ->
  match r with
  | Return transactions => Return transactions
  | Raise e => if isinstance_FileNotFoundError e then Return [] else Raise e
  end = r.
Proof.
  intros H. destruct r as [ts|e]; [reflexivity|].
  specialize (H e eq_refl). unfold isinstance_FileNotFoundError.
  destruct (exn_cls e); try reflexivity. now contradiction H.
Qed.

Lemma comprehension_fields_raises (triples : list (pystr * pystr * pystr))
  (e : exn) :
  comprehension (to_rows (map dict_of triples)) = Raise e ->
  exn_cls e <> FileNotFoundError.
Proof.
  revert e. induction triples as [|f fs' IH]; intros e E; [discriminate E|].
  cbn [map to_rows fold_right comprehension] in E.
  fold (to_rows (map dict_of fs')) in E.
  destruct (row_to_transaction (dict_of f)) as [t|e1] eqn:E1; cbn [bind] in E.
  - destruct (comprehension (to_rows (map dict_of fs'))) as [ts|e2];
      [discriminate E|].
    injection E as <-. now apply IH.
  - injection E as <-. apply row_to_transaction_classes in E1.
    destruct E1 as [H|[H|H]]; rewrite H; discriminate.
Qed.

Lemma load_from_csv_text (fs : filesystem) (filename content : pystr)
  (triples : list (pystr * pystr * pystr)) :
  fs_get fs filename = Some (TextFile content) ->
  text_lines content = map lf_line (header3 :: triples) ->
  Forall plain3 triples ->
  load_from_csv filename fs =
  comprehension (to_rows (map dict_of triples)).
Proof.
  intros Hfile Htext Hplain. unfold load_from_csv, read_text.
  rewrite Hfile. cbn [bind].
  rewrite Htext, (DictReader_written Hplain).
  apply handler_passes. intros e. apply comprehension_fields_raises.
Qed.

Lemma load_from_csv_lines (fs : filesystem) (filename : pystr)
  (triples : list (pystr * pystr * pystr)) :
  fs_get fs filename =
    Some (TextFile (concat (map crlf_line (header3 :: triples)))) ->
  Forall plain3 triples ->
  load_from_csv filename fs =
  comprehension (to_rows (map dict_of triples)).
Proof.
  intros Hfile Hplain.
  apply (load_from_csv_text _ _ Hfile); [|exact Hplain].
  apply text_lines_written. constructor; [exact header_plain|exact Hplain].
Qed.

Lemma comprehension_floats (rs : rows (list (pystr * strval))) :
  forall transactions,
    comprehension rs = Return transactions ->
    Forall (fun t => exists x, amount t = Float x /\ float_wf x) transactions.
Proof.
  induction rs as [|row rest IH|e]; intros ts H.
  - injection H as <-. constructor.
  - cbn [comprehension] in H.
    destruct (row_to_transaction row) as [t|e] eqn:Et; [|discriminate H].
    cbn [bind] in H.
    destruct (comprehension rest) as [ts'|e]; [|discriminate H].
    injection H as <-. constructor; [|now apply IH].
    unfold row_to_transaction in Et.
    destruct (getitem row key_date) as [d|]; [|discriminate Et].
    destruct (getitem row key_category) as [c|]; [|discriminate Et].
    destruct (getitem row key_amount) as [[s|]|]; try discriminate Et.
    cbn [bind float_of_strval] in Et.
    destruct (py_float s) as [x|] eqn:Ex; [|discriminate Et].
    injection Et as <-. exists x. split; [reflexivity|].
    eapply py_float_wf; exact Ex.
  - discriminate H.
Qed.

(** X13. Every amount in a list that [load_from_csv] returns is a
    float, a value of binary64, never an int: a ledger read from the
    file holds 100.0 where 100 was entered. *)
Theorem load_from_csv_floats (fs : filesystem) (filename : pystr)
  (transactions : list transaction) :
  load_from_csv filename fs = Return transactions ->
  Forall (fun t => exists x, amount t = Float x /\ float_wf x) transactions.
Proof.
  unfold load_from_csv.
  destruct (read_text fs filename) as [content|e]; cbn [bind].
  - destruct (comprehension _) as [ts|e] eqn:E.
    + intros [= <-]. eapply comprehension_floats; exact E.
    + destruct (isinstance_FileNotFoundError e); [|discriminate].
      intros [= <-]. constructor.
  - destruct (isinstance_FileNotFoundError e); [|discriminate].
    intros [= <-]. constructor.
Qed.

(** ** The chart *)

Lemma categorized_chartable (transaction_list : list transaction) :
  Forall chartable transaction_list ->
  exists pairs, categorized transaction_list = Return pairs.
Proof.
  induction 1 as [|t ts Ht _ [pairs IH]]; [now exists []|].
  cbn [categorized]. unfold chartable in Ht.
  destruct (amount t) as [z|x]; cbn [float_of_number].
  - rewrite (float_of_int_whole Ht), IH. cbn [bind]. now eexists.
  - rewrite IH. cbn [bind]. now eexists.
Qed.

Lemma float_of_number_raises (a : number) (e : exn) :
  float_of_number a = Raise e ->
  exn_cls e = OverflowError /\ exists z, a = Int z /\ ~ whole_double z.
Proof.
  destruct a as [z|x]; [|discriminate]. cbn [float_of_number].
  intros H. split.
  - unfold float_of_int in H.
    destruct (float_of_ratio _ _ _); try discriminate H.
    now injection H as <-.
  - exists z. split; [reflexivity|]. intros Hz.
    rewrite (float_of_int_whole Hz) in H. discriminate H.
Qed.

Lemma aggregate_raises (transaction_list : list transaction) :
  forall category_totals e,
    aggregate category_totals transaction_list = Raise e ->
    exn_cls e = OverflowError /\
    exists t z, In t transaction_list /\ amount t = Int z /\ ~ whole_double z.
Proof.
  induction transaction_list as [|t ts IH]; intros acc e H; [discriminate H|].
  cbn [aggregate] in H.
  destruct (float_of_number (amount t)) as [x|e'] eqn:Ex; cbn [bind] in H.
  - assert (Hrec : exn_cls e = OverflowError /\
                   exists t z, In t ts /\ amount t = Int z /\ ~ whole_double z).
    { destruct (dict_get strval_eqb acc (category t)); eapply IH; exact H. }
    destruct Hrec as (Hc & t' & z & Hin & Ht').
    split; [exact Hc|]. exists t', z. split; [now right|exact Ht'].
  - injection H as <-. apply float_of_number_raises in Ex.
    destruct Ex as (Hc & z & Hz & Hnw).
    split; [exact Hc|]. exists t, z. split; [now left|now split].
Qed.

Lemma first_appearances_length (keys : list strval) :
  (length (first_appearances keys) <= length keys)%nat.
Proof.
  induction keys as [|k keys IH]; [apply Nat.le_refl|].
  cbn [first_appearances length]. apply le_n_S.
  eapply Nat.le_trans; [apply filter_length_le|exact IH].
Qed.

(** X15. What [plot_graph] draws. On the empty ledger it prints the
    notice and draws nothing. On any other ledger whose amounts
    [float()] converts (floats, and ints that are binary64 values,
    as all amounts of a run are) it hands one chart to matplotlib
    and prints nothing: one bar for each category that occurs, no
    category twice, in the order of first appearance, as high as the
    sum of the amounts of that category; there are no more bars than
    records. The only exception its own code can raise is the
    OverflowError of an int amount too large for a float. *)
Theorem plot_graph_chart (transaction_list : list transaction) :
  plot_graph [] =
    Return [Print (u8 "家計簿の登録がないため、グラフを表示できません。")] /\
  (transaction_list <> [] -> Forall chartable transaction_list ->
   exists pairs,
     categorized transaction_list = Return pairs /\
     let bars := first_appearances (map category transaction_list) in
     plot_graph transaction_list =
       Return [BarChart bars (map (fun c => total_of c pairs) bars)] /\
     NoDup bars /\
     (forall c, In c bars <-> In c (map category transaction_list)) /\
     (length bars <= length transaction_list)%nat) /\
  (forall e, plot_graph transaction_list = Raise e ->
     exn_cls e = OverflowError /\
     exists t z,
       In t transaction_list /\ amount t = Int z /\ ~ whole_double z).
Proof.
  split; [reflexivity|]. split.
  - intros Hne Hall.
    destruct (categorized_chartable Hall) as [pairs Hp].
    exists pairs. split; [exact Hp|]. cbv zeta.
    split; [|split; [|split]].
    + destruct transaction_list as [|t ts]; [contradiction|].
      unfold plot_graph. rewrite aggregate_fold, Hp. cbn [bind].
      rewrite fold_add_amount_sums. unfold category_sums.
      rewrite (categorized_categories _ Hp).
      unfold dict_keys, dict_values. rewrite !map_map. cbn [fst snd].
      rewrite map_id. reflexivity.
    + apply first_appearances_NoDup.
    + intros c. apply first_appearances_In.
    + eapply Nat.le_trans; [apply first_appearances_length|].
      rewrite length_map. apply Nat.le_refl.
  - intros e H. destruct transaction_list as [|t ts]; [discriminate H|].
    unfold plot_graph in H.
    destruct (aggregate [] (t :: ts)) as [totals|e'] eqn:E;
      [discriminate H|].
    injection H as <-. eapply aggregate_raises; exact E.
Qed.
Lemma sum_floats_whole (zs : list Z) :
  forall a,
    (Z.abs a + sum_Z (map Z.abs zs) < 2 ^ 53)%Z ->
    fold_left float_add (map float_of_whole zs) (float_of_whole a) =
    float_of_whole (a + sum_Z zs).
Proof.
  induction zs as [|z zs IH]; intros a Hsum.
  - cbn. now rewrite Z.add_0_r.
  - cbn [map fold_left sum_Z fold_right] in *.
    fold (sum_Z (map Z.abs zs)) in Hsum. fold (sum_Z zs).
    assert (Hnn : (0 <= sum_Z (map Z.abs zs))%Z).
    { clear. induction zs as [|y ys IH]; cbn; [lia|].
      fold (sum_Z (map Z.abs ys)). lia. }
    rewrite float_add_whole by (apply whole_double_small; lia).
    rewrite IH by lia. f_equal. lia.
Qed.

Lemma total_of_whole (zs : list Z) :
  (sum_Z (map Z.abs zs) < 2 ^ 53)%Z ->
  match map float_of_whole zs with
  | [] => Finite false 0
  | x :: rest => fold_left float_add rest x
  end = float_of_whole (sum_Z zs).
Proof.
  destruct zs as [|z zs]; intros H; [reflexivity|].
  cbn [map sum_Z fold_right] in *. apply sum_floats_whole. exact H.
Qed.

Lemma sum_abs_filter (f : transaction -> bool)
  (transaction_list : list transaction) :
  (0 <= sum_Z (map Z.abs (map int_amount (filter f transaction_list)))
     <= abs_total transaction_list)%Z.
Proof.
  unfold abs_total.
  induction transaction_list as [|t ts IH]; cbn [filter map sum_Z fold_right].
  - lia.
  - fold (sum_Z (map (fun t => Z.abs (int_amount t)) ts)).
    destruct (f t); cbn [map sum_Z fold_right];
      fold (sum_Z (map Z.abs (map int_amount (filter f ts)))) in *; lia.
Qed.

Lemma categorized_ints (transaction_list : list transaction) :
  Forall (fun t => exists z, amount t = Int z) transaction_list ->
  (abs_total transaction_list < 2 ^ 53)%Z ->
  categorized transaction_list =
  Return (map (fun t => (category t, float_of_whole (int_amount t)))
            transaction_list).
Proof.
  unfold abs_total.
  induction 1 as [|t ts [z Hz] Hts IH]; intros Hsum; [reflexivity|].
  cbn [map sum_Z fold_right] in Hsum.
  fold (sum_Z (map (fun t => Z.abs (int_amount t)) ts)) in Hsum.
  pose proof (sum_abs_filter (fun _ => true) ts) as Hnn.
  unfold abs_total in Hnn.
  cbn [categorized map]. unfold int_amount at 1. unfold int_amount at 1 in Hsum.
  rewrite Hz in *. cbn [float_of_number].
  rewrite float_of_int_whole by (apply whole_double_small; lia).
  rewrite IH by lia. reflexivity.
Qed.

Lemma aggregate_ints_exact (transaction_list : list transaction) :
  Forall (fun t => exists z, amount t = Int z) transaction_list ->
  (abs_total transaction_list < 2 ^ 53)%Z ->
  aggregate [] transaction_list =
  Return (map (fun c => (c, float_of_whole (int_total c transaction_list)))
            (first_appearances (map category transaction_list))).
Proof.
  intros Hint Hsum.
  rewrite aggregate_fold, (categorized_ints Hint Hsum). cbn [bind].
  rewrite fold_add_amount_sums. unfold category_sums.
  rewrite map_map. cbn [fst]. f_equal.
  apply map_ext. intros c. f_equal.
  unfold total_of, amounts_of, int_total.
  assert (Hfilter :
    forall ts,
      map snd (filter (fun p : strval * float => strval_eqb (fst p) c)
                 (map (fun t => (category t, float_of_whole (int_amount t))) ts)) =
      map float_of_whole
        (map int_amount (filter (fun t => strval_eqb (category t) c) ts))).
  { induction ts as [|t ts IH]; [reflexivity|].
    cbn [map filter fst]. destruct (strval_eqb (category t) c);
      cbn [map snd]; now rewrite IH. }
  rewrite Hfilter. apply total_of_whole.
  pose proof (sum_abs_filter (fun t => strval_eqb (category t) c)
                transaction_list). lia.
Qed.

(** X16. The totals are exact on the ledgers of everyday use. When
    every amount is an int, as entered by the user, and the sizes of
    the amounts add up to less than 2^53, the loop of [plot_graph]
    gives each category the sum of its amounts as integers, without
    any rounding (the float of that integer), and these sums are the
    heights of the bars that [plot_graph] draws. *)
Theorem aggregate_exact (transaction_list : list transaction) :
  Forall (fun t => exists z, amount t = Int z) transaction_list ->
  (abs_total transaction_list < 2 ^ 53)%Z ->
  let bars := first_appearances (map category transaction_list) in
  aggregate [] transaction_list =
    Return (map (fun c => (c, float_of_whole (int_total c transaction_list)))
              bars) /\
  (transaction_list <> [] ->
   plot_graph transaction_list =
   Return [BarChart bars
             (map (fun c => float_of_whole (int_total c transaction_list))
                bars)]).
Proof.
  intros Hint Hsum. cbv zeta.
  pose proof (aggregate_ints_exact Hint Hsum) as H.
  split; [exact H|]. intros Hne.
  destruct transaction_list as [|t ts]; [contradiction|].
  unfold plot_graph. rewrite H. cbn [bind].
  unfold dict_keys, dict_values. rewrite !map_map. cbn [fst snd].
  now rewrite map_id.
Qed.

(** ** The order of the records *)

Lemma int_total_permutation (c : strval) (ts ts' : list transaction) :
  Permutation ts ts' -> int_total c ts = int_total c ts'.
Proof.
  unfold int_total.
  induction 1 as [|t l l' _ IH|x y l|l l' l'' _ IH1 _ IH2].
  - reflexivity.
  - cbn [filter]. destruct (strval_eqb (category t) c);
      cbn [map sum_Z fold_right]; fold sum_Z; unfold sum_Z in *; lia.
  - cbn [filter].
    destruct (strval_eqb (category x) c); destruct (strval_eqb (category y) c);
      cbn [map sum_Z fold_right]; lia.
  - lia.
Qed.

Lemma abs_total_permutation (ts ts' : list transaction) :
  Permutation ts ts' -> abs_total ts = abs_total ts'.
Proof.
  unfold abs_total.
  induction 1 as [|t l l' _ IH|x y l|l l' l'' _ IH1 _ IH2];
    cbn [map sum_Z fold_right] in *; unfold sum_Z in *; lia.
Qed.

Lemma any_of_category_permutation (c : strval) (ts ts' : list transaction) :
  Permutation ts ts' ->
  In c (map category ts) -> In c (map category ts').
Proof.
  intros H Hin. eapply Permutation_in; [|exact Hin].
  now apply Permutation_map.
Qed.

Lemma get_exact_total (c : strval) (ts : list transaction) :
  dict_get strval_eqb
    (map (fun k => (k, float_of_whole (int_total k ts)))
       (first_appearances (map category ts))) c =
  if existsb (strval_eqb c) (map category ts)
  then Some (float_of_whole (int_total c ts)) else None.
Proof.
  set (f := fun k => float_of_whole (int_total k ts)).
  assert (H : forall keys,
             dict_get strval_eqb (map (fun k => (k, f k)) keys) c =
             if existsb (strval_eqb c) keys then Some (f c) else None).
  { induction keys as [|k keys IH]; [reflexivity|].
    cbn [map dict_get existsb]. rewrite (strval_eqb_sym c k).
    destruct (strval_eqb k c) eqn:E; cbn [orb]; [|exact IH].
    apply strval_eqb_eq in E. now subst k. }
  rewrite H.
  assert (Hex : existsb (strval_eqb c) (first_appearances (map category ts)) =
                existsb (strval_eqb c) (map category ts)).
  { apply eq_true_iff_eq. rewrite !existsb_exists.
    split; intros (k & Hk & Hc); exists k; (split; [|exact Hc]);
      now apply first_appearances_In. }
  now rewrite Hex.
Qed.

(** X25. The order of the records and the totals. When every amount
    is an int and the sizes of the amounts add up to less than 2^53,
    the records taken in any other order give every category the
    same total. Without that bound the order can matter, as float
    addition rounds: 2^53, 1 and 1 of one category add up to 2^53 in
    this order and to 2^53 + 2 in the reverse order. *)
Theorem totals_any_order (transaction_list reordered : list transaction) :
  (Permutation transaction_list reordered ->
   Forall (fun t => exists z, amount t = Int z) transaction_list ->
   (abs_total transaction_list < 2 ^ 53)%Z ->
   exists totals totals',
     aggregate [] transaction_list = Return totals /\
     aggregate [] reordered = Return totals' /\
     forall c, dict_get strval_eqb totals c = dict_get strval_eqb totals' c) /\
  aggregate [] rounding_ledger =
    Return [(Str (u8 "食費"), float_of_whole (2 ^ 53))] /\
  aggregate [] (rev rounding_ledger) =
    Return [(Str (u8 "食費"), float_of_whole (2 ^ 53 + 2))].
Proof.
  split; [|split; vm_compute; reflexivity].
  intros Hperm Hint Hsum.
  assert (Hint' : Forall (fun t => exists z, amount t = Int z) reordered).
  { rewrite Forall_forall in *. intros t Ht. apply Hint.
    eapply Permutation_in; [apply Permutation_sym; exact Hperm|exact Ht]. }
  assert (Hsum' : (abs_total reordered < 2 ^ 53)%Z)
    by now rewrite <- (abs_total_permutation Hperm).
  eexists. eexists.
  split; [now apply aggregate_ints_exact|]. split; [now apply aggregate_ints_exact|].
  intros c. rewrite !get_exact_total, (int_total_permutation c Hperm).
  assert (Hex : existsb (strval_eqb c) (map category transaction_list) =
                existsb (strval_eqb c) (map category reordered)).
  { apply eq_true_iff_eq. rewrite !existsb_exists.
    split; intros (k & Hk & Hc); exists k; (split; [|exact Hc]).
    - eapply any_of_category_permutation; eassumption.
    - eapply any_of_category_permutation;
        [apply Permutation_sym|]; eassumption. }
  now rewrite Hex.
Qed.

(** ** Line ends *)

Lemma universal_newlines_body (body rest : pystr) :
  Forall (fun c => c <> ch_cr /\ c <> ch_lf) body ->
  universal_newlines (body ++ rest) = body ++ universal_newlines rest.
Proof.
  induction 1 as [|c body [Hc _] _ IH]; [reflexivity|].
  cbn [app universal_newlines].
  destruct (N.eqb_spec c ch_cr); [contradiction|]. now rewrite IH.
Qed.

Lemma line_body_starts (f : pystr * pystr * pystr) :
  plain3 f ->
  exists c rest, line_body f = c :: rest /\ c <> ch_lf.
Proof.
  intros Hp. pose proof (line_body_no_newline _ Hp) as Hall.
  destruct f as [[d c] s]. destruct Hp as (Hd & _ & _).
  unfold line_body in *. destruct d as [|x d]; [discriminate Hd|].
  cbn [app] in *. inversion_clear Hall as [|? ? [_ Hx] _].
  now exists x, (d ++ ch_comma :: c ++ ch_comma :: s).
Qed.

Lemma text_lines_ended (lines : list (pystr * pystr * pystr * newline)) :
  Forall plain3 (map fst lines) ->
  text_lines (concat (map ended_line lines)) = map lf_line (map fst lines).
Proof.
  unfold text_lines.
  induction lines as [|[f n] lines IH]; intros Hall; [reflexivity|].
  cbn [map fst] in Hall. inversion_clear Hall as [|? ? Hf Hrest].
  specialize (IH Hrest).
  cbn [map concat fst]. unfold ended_line at 1. cbn [fst snd].
  rewrite <- app_assoc.
  pose proof (line_body_no_newline _ Hf) as Hbody.
  rewrite (universal_newlines_body _ Hbody).
  assert (Hend : universal_newlines (ending n ++ concat (map ended_line lines)) =
                 ch_lf :: universal_newlines (concat (map ended_line lines))).
  { destruct n; cbn [ending app universal_newlines];
      rewrite ?N.eqb_refl; try reflexivity.
    destruct lines as [|[g m] lines']; [reflexivity|].
    cbn [map fst] in Hrest. inversion_clear Hrest as [|? ? Hg _].
    destruct (line_body_starts _ Hg) as (c & rest & Hc & Hne).
    cbn [map concat]. unfold ended_line at 1. cbn [fst snd].
    rewrite Hc. cbn [app].
    destruct (N.eqb_spec c ch_lf); [contradiction|reflexivity]. }
  rewrite Hend, (readlines_line _ Hbody). cbn [app].
  rewrite IH. reflexivity.
Qed.

(** X26. The line ends of the file do not matter. [load_from_csv]
    opens the file with universal newlines: from a file made of the
    header line and of lines of three unquoted fields, each line
    ended by CR LF, by LF or by CR alone, it returns what it returns
    from the same lines all ended by CR LF, as [save_to_csv] writes
    them. *)
Theorem load_from_csv_any_newline (filename : pystr)
  (lines : list (pystr * pystr * pystr * newline)) (header_end : newline) :
  Forall plain3 (map fst lines) ->
  load_from_csv filename
    [(filename,
      TextFile (concat (map ended_line ((header3, header_end) :: lines))))] =
  load_from_csv filename
    [(filename,
      TextFile (concat (map crlf_line (header3 :: map fst lines))))].
Proof.
  intros Hall.
  assert (Hget : forall content,
             fs_get [(filename, TextFile content)] filename =
             Some (TextFile content)).
  { intros content. unfold fs_get. cbn [dict_get].
    now rewrite pystr_eqb_refl. }
  rewrite (@load_from_csv_lines _ filename (map fst lines) (Hget _) Hall).
  apply (load_from_csv_text _ _ (Hget _)); [|exact Hall].
  apply (text_lines_ended ((header3, header_end) :: lines)).
  constructor; [exact header_plain|exact Hall].
Qed.

(** ** Columns *)

Lemma arrange_plain (o : column_order) (f : pystr * pystr * pystr) :
  plain3 f -> plain3 (arrange o f).
Proof.
  destruct f as [[d c] a]. intros (Hd & Hc & Ha).
  destruct o; cbn [arrange plain3]; repeat split; assumption.
Qed.

Lemma row_to_transaction_arranged (o : column_order)
  (f : pystr * pystr * pystr) :
  row_to_transaction
    (zip_row (row_of (arrange o header3)) (row_of (arrange o f)) []) =
  row_to_transaction (dict_of f).
Proof.
  destruct f as [[d c] a]. unfold row_to_transaction.
  assert (Hd : getitem (zip_row (row_of (arrange o header3))
                          (row_of (arrange o (d, c, a))) []) key_date =
               Return (Str d)) by (destruct o; reflexivity).
  assert (Hc : getitem (zip_row (row_of (arrange o header3))
                          (row_of (arrange o (d, c, a))) []) key_category =
               Return (Str c)) by (destruct o; reflexivity).
  assert (Ha : getitem (zip_row (row_of (arrange o header3))
                          (row_of (arrange o (d, c, a))) []) key_amount =
               Return (Str a)) by (destruct o; reflexivity).
  assert (Hd' : getitem (dict_of (d, c, a)) key_date = Return (Str d))
    by reflexivity.
  assert (Hc' : getitem (dict_of (d, c, a)) key_category = Return (Str c))
    by reflexivity.
  assert (Ha' : getitem (dict_of (d, c, a)) key_amount = Return (Str a))
    by reflexivity.
  rewrite Hd, Hc, Ha, Hd', Hc', Ha'. reflexivity.
Qed.

Lemma comprehension_arranged (o : column_order)
  (triples : list (pystr * pystr * pystr)) :
  comprehension
    (dict_rows (row_of (arrange o header3))
       (to_rows (map row_of (map (arrange o) triples)))) =
  comprehension (to_rows (map dict_of triples)).
Proof.
  induction triples as [|f fs IH]; [reflexivity|].
  cbn [map to_rows fold_right].
  fold (to_rows (map row_of (map (arrange o) fs))).
  fold (to_rows (map dict_of fs)).
  assert (Hrow : exists x xs, row_of (arrange o f) = x :: xs).
  { destruct f as [[d c] a]. destruct o; cbn; now eexists; eexists. }
  destruct Hrow as (x & xs & Hrow).
  rewrite Hrow. cbn [dict_rows comprehension]. rewrite <- Hrow.
  rewrite row_to_transaction_arranged, IH. reflexivity.
Qed.

(** X28. The columns are found by their names. [load_from_csv]
    reads each row through the header: a file whose three columns
    stand in another order, in the header line and in every data line
    alike, is loaded as the file with the columns in the order in
    which [save_to_csv] writes them. *)
Theorem load_from_csv_any_column_order (filename : pystr) (o : column_order)
  (triples : list (pystr * pystr * pystr)) :
  Forall plain3 triples ->
  load_from_csv filename
    [(filename,
      TextFile (concat (map crlf_line
                          (map (arrange o) (header3 :: triples)))))] =
  load_from_csv filename
    [(filename, TextFile (concat (map crlf_line (header3 :: triples))))].
Proof.
  intros Hall.
  assert (Hget : forall content,
             fs_get [(filename, TextFile content)] filename =
             Some (TextFile content)).
  { intros content. unfold fs_get. cbn [dict_get].
    now rewrite pystr_eqb_refl. }
  assert (Hall' : Forall plain3 (map (arrange o) (header3 :: triples))).
  { apply Forall_map. constructor.
    - apply arrange_plain. exact header_plain.
    - eapply Forall_impl; [|exact Hall]. intros f. apply arrange_plain. }
  rewrite (@load_from_csv_lines _ filename triples (Hget _) Hall).
  unfold load_from_csv, read_text. rewrite Hget. cbn [bind].
  rewrite (text_lines_written Hall').
  unfold DictReader. rewrite (csv_reader_written Hall').
  cbn [map to_rows fold_right].
  fold (to_rows (map row_of (map (arrange o) triples))).
  rewrite comprehension_arranged.
  apply handler_passes. intros e. apply comprehension_fields_raises.
Qed.

(** ** Quoted fields *)

Lemma text_char_spec (c : char) :
  text_char c = true <->
  c <> ch_cr /\ c <> ch_lf /\ utf8_encodable c = true.
Proof.
  unfold text_char, is_newline.
  rewrite andb_true_iff, negb_true_iff, orb_false_iff, !N.eqb_neq. tauto.
Qed.

Lemma text_field_spec (s : pystr) :
  text_field s <->
  Forall (fun c => text_char c = true) s /\
  (N.of_nat (length s) <= field_limit)%N.
Proof.
  unfold text_field, textb.
  rewrite andb_true_iff, N.leb_le, forallb_forall, Forall_forall. reflexivity.
Qed.

Lemma plain_text_field (s : pystr) : plain s -> text_field s.
Proof.
  intros H. apply plain_spec in H. destruct H as (_ & Hall & Hlen).
  apply text_field_spec. split; [|exact Hlen].
  eapply Forall_impl; [|exact Hall]. intros c Hc.
  apply plain_char_spec in Hc. apply text_char_spec. tauto.
Qed.

Lemma plain_text3 (f : pystr * pystr * pystr) : plain3 f -> text3 f.
Proof.
  destruct f as [[d c] s]. intros (Hd & Hc & Hs).
  repeat split; now apply plain_text_field.
Qed.

Lemma unquoted_plain_chars (f : pystr) :
  Forall (fun c => text_char c = true) f ->
  existsb csv_special f = false ->
  Forall (fun c => plain_char c = true) f.
Proof.
  induction 1 as [|c f Hc _ IH]; intros Hsp; [constructor|].
  cbn [existsb] in Hsp. apply orb_false_iff in Hsp. destruct Hsp as [H1 H2].
  constructor; [|now apply IH].
  unfold plain_char. rewrite H1. apply text_char_spec in Hc.
  now destruct Hc as (_ & _ & ->).
Qed.

(** *** What is written *)

Lemma double_quotes_chars (P : char -> Prop) (f : pystr) :
  P ch_quote -> Forall P f -> Forall P (double_quotes f).
Proof.
  intros Hq. induction 1 as [|c f Hc _ IH]; [constructor|].
  cbn [double_quotes]. destruct (c =? ch_quote)%N;
    repeat (constructor; try assumption).
Qed.

Lemma join_append_chars (P : char -> Prop) (f : pystr) :
  P ch_quote -> Forall P f -> Forall P (join_append f).
Proof.
  intros Hq Hf. unfold join_append.
  destruct (existsb csv_special f); [|exact Hf].
  constructor; [exact Hq|]. apply Forall_app. split.
  - now apply double_quotes_chars.
  - now constructor.
Qed.

Lemma quoted_body_chars (P : char -> Prop) (f : pystr * pystr * pystr) :
  P ch_quote -> P ch_comma ->
  (let '(d, c, s) := f in Forall P d /\ Forall P c /\ Forall P s) ->
  Forall P (quoted_body f).
Proof.
  destruct f as [[d c] s]. intros Hq Hc (H1 & H2 & H3). unfold quoted_body.
  apply Forall_app. split; [now apply join_append_chars|].
  constructor; [exact Hc|].
  apply Forall_app. split; [now apply join_append_chars|].
  constructor; [exact Hc|now apply join_append_chars].
Qed.

Lemma text3_chars (P : char -> Prop) (f : pystr * pystr * pystr) :
  (forall c, text_char c = true -> P c) -> text3 f ->
  let '(d, c, s) := f in Forall P d /\ Forall P c /\ Forall P s.
Proof.
  destruct f as [[d c] s]. intros HP (Hd & Hc & Hs).
  apply text_field_spec in Hd, Hc, Hs.
  repeat split; eapply Forall_impl; try apply HP; tauto.
Qed.

Lemma quoted_body_no_newline (f : pystr * pystr * pystr) :
  text3 f ->
  Forall (fun c => c <> ch_cr /\ c <> ch_lf) (quoted_body f).
Proof.
  intros Hf. apply quoted_body_chars; try (split; discriminate).
  apply text3_chars; [|exact Hf].
  intros c Hc. apply text_char_spec in Hc. tauto.
Qed.

Lemma csv_line_quoted (f : pystr * pystr * pystr) :
  csv_line (row_of f) = written_line f.
Proof.
  destruct f as [[d c] s].
  unfold csv_line, written_line, quoted_body, row_of. cbn [join_fields].
  destruct (join_append d ++ ch_comma :: join_append c ++ ch_comma :: join_append s)
    eqn:E; [|reflexivity].
  apply app_eq_nil in E. destruct E as [_ E]. discriminate E.
Qed.

Lemma file_write_quoted (content : pystr) (f : pystr * pystr * pystr) :
  text3 f ->
  file_write content (written_line f) = Return (content ++ written_line f).
Proof.
  intros Hf. unfold file_write.
  replace (forallb utf8_encodable (written_line f)) with true; [reflexivity|].
  symmetry. apply forallb_forall. apply Forall_forall.
  unfold written_line. apply Forall_app. split.
  - apply quoted_body_chars; try reflexivity.
    apply text3_chars; [|exact Hf].
    intros c Hc. apply text_char_spec in Hc. tauto.
  - repeat constructor.
Qed.

Lemma text_lines_quoted (triples : list (pystr * pystr * pystr)) :
  Forall text3 triples ->
  text_lines (concat (map written_line triples)) = map read_line triples.
Proof.
  unfold text_lines. induction 1 as [|f fs Hf Hfs IH]; [reflexivity|].
  cbn [map concat]. unfold written_line at 1. rewrite <- app_assoc.
  cbn [app].
  rewrite (universal_newlines_line _ (quoted_body_no_newline _ Hf)).
  rewrite (readlines_line _ (quoted_body_no_newline _ Hf)).
  cbn [app]. rewrite IH. reflexivity.
Qed.

(** *** What is read *)

Lemma process_chars_quoted (f rest : pystr) :
  Forall (fun c => text_char c = true) f ->
  forall flds buf,
    (N.of_nat (length buf + length f) <= field_limit)%N ->
    process_chars (mkReader IN_QUOTED_FIELD flds buf) (double_quotes f ++ rest) =
    process_chars (mkReader IN_QUOTED_FIELD flds (buf ++ f)) rest.
Proof.
  induction 1 as [|c f Hc Hf IH]; intros flds buf Hlen.
  - cbn [double_quotes app]. now rewrite app_nil_r.
  - cbn [double_quotes length] in *.
    assert (Hroom : (N.of_nat (length buf) < field_limit)%N) by lia.
    assert (Hnext : process_chars (mkReader IN_QUOTED_FIELD flds (buf ++ [c]))
                      (double_quotes f ++ rest) =
                    process_chars (mkReader IN_QUOTED_FIELD flds (buf ++ c :: f))
                      rest).
    { rewrite IH by (rewrite length_app; cbn [length]; lia).
      now rewrite <- app_assoc. }
    destruct (N.eqb_spec c ch_quote) as [->|Hne].
    + assert (H1 : parse_process_char (mkReader IN_QUOTED_FIELD flds buf)
                     (Some ch_quote) =
                   Return (mkReader QUOTE_IN_QUOTED_FIELD flds buf))
        by reflexivity.
      assert (H2 : parse_process_char (mkReader QUOTE_IN_QUOTED_FIELD flds buf)
                     (Some ch_quote) =
                   Return (mkReader IN_QUOTED_FIELD flds (buf ++ [ch_quote]))).
      { unfold parse_process_char. cbn [state].
        change (ch_quote =? ch_quote)%N with true. cbv iota.
        rewrite parse_add_char_room by exact Hroom. reflexivity. }
      cbn [app process_chars]. rewrite H1. cbn [bind]. rewrite H2.
      cbn [bind]. exact Hnext.
    + assert (H1 : parse_process_char (mkReader IN_QUOTED_FIELD flds buf)
                     (Some c) =
                   Return (mkReader IN_QUOTED_FIELD flds (buf ++ [c]))).
      { unfold parse_process_char. cbn [state].
        apply N.eqb_neq in Hne. rewrite Hne.
        now apply parse_add_char_room. }
      cbn [app process_chars]. rewrite H1. cbn [bind]. exact Hnext.
Qed.

(** A field as written, read from the start of a field up to the
    comma or the line break that follows it. *)
Lemma process_chars_written (st : parser_state) (flds : list pystr)
  (f : pystr) (sep : char) (rest : pystr) :
  st = START_RECORD \/ st = START_FIELD ->
  text_field f ->
  sep = ch_comma \/ (sep = ch_lf /\ st = START_FIELD) ->
  process_chars (mkReader st flds []) (join_append f ++ sep :: rest) =
  process_chars
    (mkReader (if (sep =? ch_comma)%N then START_FIELD else EAT_CRNL)
       (flds ++ [f]) []) rest.
Proof.
  intros Hst Hf Hsep. apply text_field_spec in Hf. destruct Hf as [Hall Hlen].
  unfold join_append. destruct (existsb csv_special f) eqn:Hsp.
  - (* quoted *)
    cbn [app process_chars].
    assert (Hopen : parse_process_char (mkReader st flds []) (Some ch_quote) =
                    Return (mkReader IN_QUOTED_FIELD flds []))
      by (destruct Hst as [-> | ->]; reflexivity).
    rewrite Hopen. cbn [bind]. rewrite <- app_assoc.
    rewrite (process_chars_quoted _ Hall) by (cbn [length]; lia).
    cbn [app process_chars].
    assert (Hclose : parse_process_char (mkReader IN_QUOTED_FIELD flds f)
                       (Some ch_quote) =
                     Return (mkReader QUOTE_IN_QUOTED_FIELD flds f))
      by reflexivity.
    rewrite Hclose. cbn [bind].
    destruct Hsep as [-> | [-> _]]; reflexivity.
  - (* as it is *)
    pose proof (unquoted_plain_chars Hall Hsp) as Hplain.
    destruct f as [|c f].
    + cbn [app process_chars].
      destruct Hsep as [-> | [-> ->]]; [|reflexivity].
      destruct Hst as [-> | ->]; reflexivity.
    + inversion Hplain as [|? ? Hc Hf']; subst.
      cbn [app process_chars].
      rewrite (@process_char_start st flds c Hst Hc). cbn [bind].
      rewrite process_chars_in_field by (try assumption; cbn [length] in *; lia).
      cbn [process_chars app].
      destruct Hsep as [-> | [-> _]]; reflexivity.
Qed.

Lemma process_line_quoted (f : pystr * pystr * pystr) :
  text3 f ->
  process_line parse_reset (read_line f) =
  Return (mkReader START_RECORD (row_of f) []).
Proof.
  destruct f as [[d c] s]. intros (Hd & Hc & Hs).
  unfold process_line, read_line, quoted_body, parse_reset, row_of.
  rewrite <- !app_assoc. cbn [app]. rewrite <- !app_assoc. cbn [app].
  rewrite (@process_chars_written START_RECORD [] d ch_comma)
    by (try assumption; now left).
  rewrite (@process_chars_written START_FIELD _ c ch_comma)
    by (try assumption; try (now left); now right).
  rewrite (@process_chars_written START_FIELD _ s ch_lf)
    by (try assumption; right; now split).
  reflexivity.
Qed.

Lemma csv_reader_quoted (triples : list (pystr * pystr * pystr)) :
  Forall text3 triples ->
  csv_reader (map read_line triples) = to_rows (map row_of triples).
Proof.
  unfold csv_reader. induction 1 as [|f fs Hf Hfs IH]; [reflexivity|].
  cbn [map reader_rows to_rows fold_right].
  rewrite (process_line_quoted _ Hf). cbn [state is_start_record fields].
  fold (to_rows (map row_of fs)). rewrite <- IH. reflexivity.
Qed.

Lemma DictReader_quoted (triples : list (pystr * pystr * pystr)) :
  Forall text3 triples ->
  DictReader (map read_line (header3 :: triples)) =
  to_rows (map dict_of triples).
Proof.
  intros H. unfold DictReader.
  rewrite csv_reader_quoted
    by (constructor; [apply plain_text3; exact header_plain|exact H]).
  cbn [map to_rows fold_right].
  change (row_of header3) with fieldnames.
  clear H. induction triples as [|[[d c] s] fs IH]; [reflexivity|].
  cbn [map fold_right dict_rows row_of]. rewrite IH. reflexivity.
Qed.

Lemma load_from_csv_quoted (fs : filesystem) (filename : pystr)
  (triples : list (pystr * pystr * pystr)) :
  fs_get fs filename =
    Some (TextFile (concat (map written_line (header3 :: triples)))) ->
  Forall text3 triples ->
  load_from_csv filename fs =
  comprehension (to_rows (map dict_of triples)).
Proof.
  intros Hfile Hall. unfold load_from_csv, read_text.
  rewrite Hfile. cbn [bind].
  rewrite text_lines_quoted
    by (constructor; [apply plain_text3; exact header_plain|exact Hall]).
  rewrite (DictReader_quoted Hall).
  apply handler_passes. intros e. apply comprehension_fields_raises.
Qed.

(** X12. [load_from_csv] trusts the file. From a file made of the
    header line and of lines of three fields as csv writes them
    (fields without line breaks, quoted where they hold a comma or a
    quote), it returns one record for each line, in order, holding
    the first field as the date and the second as the category,
    whatever their text, and the float that [float()] reads from the
    third: neither the form of the date nor the category is
    checked. *)
Theorem load_from_csv_trusts (fs : filesystem) (filename : pystr)
  (triples : list (pystr * pystr * pystr)) (xs : list float) :
  fs_get fs filename =
    Some (TextFile (concat (map written_line (header3 :: triples)))) ->
  Forall text3 triples ->
  Forall2 (fun f x => py_float (third f) = Return x) triples xs ->
  load_from_csv filename fs =
  Return (map (fun p => record_of_fields (fst p) (snd p)) (combine triples xs)).
Proof.
  intros Hfile Hplain Hxs.
  rewrite (load_from_csv_quoted _ _ Hfile Hplain).
  now apply comprehension_fields.
Qed.

(** * Properties of the program in its environment *)

Section WalletProperties.

Variable float_repr : float -> pystr.
Variable open_write_error : pystr -> option exn.
Variable xl_bind : cell -> result cell.
Variable wb_save_error : pystr -> workbook -> option exn.

Set Default Proof Using "Type".

(** ** Saving, then loading *)

Lemma writerows_valid (transaction_list : list transaction)
  (triples : list (pystr * pystr * pystr)) :
  Forall2 (fun t f => exists d c z,
             t = mkTransaction (Str d) (Str c) (Int z) /\
             f = fields3 d c z /\ plain3 f /\ whole_double z)
          transaction_list triples ->
  forall content,
    writerows float_repr content transaction_list =
    (Return tt, content ++ concat (map crlf_line triples)).
Proof.
  induction 1 as [|t f ts fs (d & c & z & -> & -> & Hp & Hz) Hrest IH];
    intros content.
  - cbn. now rewrite app_nil_r.
  - cbn [writerows map concat]. unfold writerow, dict_to_list.
    cbn [date category amount cell_of_strval fields_text field_text bind].
    rewrite (py_str_int_whole Hz). cbn [bind].
    change [d; c; str_of_Z z] with (row_of (fields3 d c z)).
    rewrite (csv_line_plain _ Hp), (file_write_plain content _ Hp), IH.
    rewrite <- app_assoc. reflexivity.
Qed.

Lemma writeheader_content :
  writerow float_repr [] (map CStr fieldnames) = Return (crlf_line header3).
Proof.
  unfold writerow. cbn [map fieldnames fields_text field_text bind].
  change [key_date; key_category; key_amount] with (row_of header3).
  rewrite (csv_line_plain _ header_plain), (file_write_plain [] _ header_plain).
  reflexivity.
Qed.

(** C1. For every sequence R of valid records, that is of records
    [add_transaction] can return (the empty sequence included),
    saving R to a path that can be written and loading that path
    gives a sequence equal to R in order and in content: the same
    date string, the same category string, and an amount equal as a
    number to the one saved. *)
Theorem save_then_load (transaction_list : list transaction)
  (filename : pystr) (fs : filesystem) :
  open_write_error filename = None ->
  Forall valid_transaction transaction_list ->
  exists fs' loaded,
    save_to_csv float_repr open_write_error transaction_list filename fs = (Return tt, fs') /\
    load_from_csv filename fs' = Return loaded /\
    Forall2 same_record transaction_list loaded.
Proof.
  intros Hopen Hvalid.
  destruct (valid_transactions_triples Hvalid) as (triples & H2 & Hplain).
  destruct (comprehension_written H2) as (loaded & Hload & Hsame).
  set (content := crlf_line header3 ++ concat (map crlf_line triples)).
  exists (fs_put fs filename (TextFile content)), loaded.
  split; [|split; [|exact Hsame]].
  - unfold save_to_csv. rewrite Hopen, writeheader_content.
    rewrite (writerows_valid H2). reflexivity.
  - unfold load_from_csv, read_text. rewrite fs_get_put. cbn [bind].
    change content with (concat (map crlf_line (header3 :: triples))).
    rewrite text_lines_written
      by (constructor; [exact header_plain|exact Hplain]).
    rewrite (DictReader_written Hplain), Hload. reflexivity.
Qed.

(** ** Loading a missing file *)

(** C6. For every path that names no file, [load_from_csv] returns
    the empty list and raises nothing; the program then starts its
    menu with that empty list as the ledger. *)
Theorem load_from_csv_missing_file :
  (forall (filename : pystr) (fs : filesystem),
      fs_get fs filename = None ->
      load_from_csv filename fs = Return []) /\
  (forall w : world,
      fs_get (files w) csv_name = None ->
      main float_repr open_write_error xl_bind wb_save_error w = menu_loop float_repr open_write_error xl_bind wb_save_error (S (length (stdin w))) [] w).
Proof.
  assert (H : forall filename fs,
             fs_get fs filename = None -> load_from_csv filename fs = Return []).
  { intros filename fs Hmiss. unfold load_from_csv, read_text.
    rewrite Hmiss. reflexivity. }
  split; [exact H|].
  intros w Hmiss. unfold main. rewrite (H _ _ Hmiss). reflexivity.
Qed.

(** ** An amount that escapes the handler *)

Lemma menu_loop_uncaught (passes : nat) (transactions : list transaction)
  (w : world) (e : exn) (transactions' : list transaction) (w' : world) :
  menu_pass float_repr open_write_error xl_bind wb_save_error transactions w = Uncaught e transactions' w' ->
  menu_loop float_repr open_write_error xl_bind wb_save_error (S passes) transactions w = Uncaught e transactions' w'.
Proof. intros H. cbn [menu_loop]. rewrite H. reflexivity. Qed.

(** C9. The line inf makes [int(float(text))] raise OverflowError,
    which is not a ValueError: the attempt is neither taken nor
    rejected, the handler of [input_amount] is passed by, and a run
    in which the user registers a transaction and types inf as the
    amount ends there with the exception uncaught. The line nan, for
    which [int()] raises ValueError, is rejected like any
    non-number. *)
Theorem input_amount_overflow_escapes :
  input_amount_attempt (u8 "inf") = Escaped infinity_error /\
  exn_cls infinity_error = OverflowError /\
  isinstance_ValueError infinity_error = false /\
  (exists notice, input_amount_attempt (u8 "nan") = Rejected notice) /\
  (forall lines out,
      fst (fst (input_amount (u8 "inf" :: lines) out)) = Raise infinity_error) /\
  (forall (w : world) (transactions : list transaction) (rest : list pystr),
      load_from_csv csv_name (files w) = Return transactions ->
      stdin w = u8 "1" :: u8 "2025/01/01" :: u8 "1" :: u8 "inf" :: rest ->
      exists out,
        main float_repr open_write_error xl_bind wb_save_error w = Uncaught infinity_error transactions
                   (mkWorld rest out (files w))).
Proof.
  split; [exact amount_inf|]. split; [reflexivity|]. split; [reflexivity|].
  split; [eexists; exact amount_nan|]. split.
  - intros lines out. unfold input_amount. cbn [prompt_loop].
    rewrite amount_inf. reflexivity.
  - intros w transactions rest Hload Hin. unfold main. rewrite Hload.
    eexists. apply menu_loop_uncaught.
    unfold menu_pass. rewrite Hin.
    change (pystr_eqb (u8 "1") (u8 "1")) with true. cbv iota.
    unfold add_transaction, input_date, input_category, input_amount.
    cbn [prompt_loop]. rewrite date_example.
    cbn [prompt_loop]. rewrite category_example.
    cbn [prompt_loop]. rewrite amount_inf.
    reflexivity.
Qed.


(** ** Export to a spreadsheet *)

Lemma append_rows_spec (transaction_list : list transaction) :
  forall ws dc ws' dc',
    append_rows xl_bind ws dc transaction_list = Return (ws', dc') ->
    dc' = (dc + Z.of_nat (length transaction_list))%Z /\
    exists body, ws' = ws ++ body /\ Forall2 (exported_row xl_bind) transaction_list body.
Proof.
  induction transaction_list as [|row rest IH]; intros ws dc ws' dc' H.
  - injection H as <- <-. split; [cbn [length]; lia|].
    exists []. rewrite app_nil_r. split; [reflexivity|constructor].
  - cbn [append_rows] in H. unfold bind at 1 in H.
    destruct (float_of_number (amount row)) as [x|e] eqn:Ex; [|discriminate H].
    unfold ws_append, bind in H.
    destruct (bind_cells xl_bind _) as [stored|e] eqn:Eb; [|discriminate H].
    apply IH in H. destruct H as [-> (body & -> & Hbody)]. split.
    + cbn [length]. lia.
    + exists (stored :: body). rewrite <- app_assoc. split; [reflexivity|].
      constructor; [|exact Hbody]. exists x. split; assumption.
Qed.

Lemma export_workbook_spec (transaction_list : list transaction)
  (filename : pystr) (fs fs' : filesystem) (wb : workbook) (dc : Z) :
  export_workbook xl_bind wb_save_error transaction_list filename fs =
    Return (wb, dc, fs') ->
  dc = Z.of_nat (length transaction_list) /\
  fs' = fs_put fs filename (XlsxFile wb) /\
  title wb = sheet_title /\
  exists header body,
    sheet wb = header :: body /\
    bind_cells xl_bind (map CStr fieldnames) = Return header /\
    Forall2 (exported_row xl_bind) transaction_list body.
Proof.
  unfold export_workbook, ws_append, wb_save, bind. intros H.
  destruct (bind_cells xl_bind (map CStr fieldnames)) as [header|e] eqn:Eh;
    [|discriminate H].
  destruct (append_rows xl_bind _ 0 transaction_list) as [[ws dc']|e] eqn:Ea;
    [|discriminate H].
  cbn [fst snd] in H.
  destruct (wb_save_error filename _) as [e|]; [discriminate H|].
  injection H as <- <- <-.
  apply append_rows_spec in Ea. destruct Ea as [-> (body & -> & Hbody)].
  split; [lia|]. split; [reflexivity|]. split; [reflexivity|].
  exists header, body. cbn [sheet app].
  split; [reflexivity|]. split; [reflexivity|exact Hbody].
Qed.

(** C7. When an export succeeds, that is when the [try] body of
    [save_to_excel] reaches the end of [wb.save], the sheet saved
    holds the header row followed by exactly one row for each of the
    N records, in order, and the count the function then reports is
    N. *)
Theorem save_to_excel_counts_rows (transaction_list : list transaction)
  (filename : pystr) (fs fs' : filesystem) (wb : workbook) (dc : Z) :
  export_workbook xl_bind wb_save_error transaction_list filename fs =
    Return (wb, dc, fs') ->
  dc = Z.of_nat (length transaction_list) /\
  fs_get fs' filename = Some (XlsxFile wb) /\
  (exists header body,
      sheet wb = header :: body /\
      bind_cells xl_bind (map CStr fieldnames) = Return header /\
      Forall2 (exported_row xl_bind) transaction_list body /\
      length body = length transaction_list) /\
  (forall n, py_str_int dc = Return n ->
     save_to_excel xl_bind wb_save_error transaction_list filename fs =
     ([Print (saved_notice filename);
       Print (count_notice (str_of_Z (Z.of_nat (length transaction_list))))],
      fs')).
Proof.
  intros H. pose proof (export_workbook_spec _ _ _ H)
    as (Hdc & Hfs & _ & header & body & Hsheet & Hheader & Hbody).
  split; [exact Hdc|]. split.
  - rewrite Hfs. unfold fs_get, fs_put. clear.
    induction fs as [|[k v] fs IH]; cbn [dict_set dict_get].
    + rewrite pystr_eqb_refl. reflexivity.
    + destruct (pystr_eqb k filename) eqn:E; cbn [dict_get]; rewrite E;
        [reflexivity|exact IH].
  - split.
    + exists header, body. repeat split; try assumption.
      symmetry. eapply Forall2_length; eassumption.
    + intros n Hn. unfold save_to_excel. rewrite H, Hn.
      unfold py_str_int in Hn.
      destruct (int_max_str_digits <? _)%nat; [discriminate Hn|].
      injection Hn as <-. rewrite Hdc. reflexivity.
Qed.

Lemma save_to_excel_total (transaction_list : list transaction)
  (filename : pystr) (fs : filesystem) :
  exists shown fs', save_to_excel xl_bind wb_save_error transaction_list filename fs = (shown, fs').
Proof.
  destruct (save_to_excel xl_bind wb_save_error transaction_list filename fs) as [shown fs'].
  now exists shown, fs'.
Qed.

(** C8. Whatever exception the export raises, while a row is built,
    while a cell is stored or in [wb.save], [save_to_excel] catches
    it: it prints the notice followed by the text of that exception,
    returns normally and leaves the files as they were. Chosen from
    the menu, a failed export hands the same ledger to the next pass
    of the loop; the menu entry 4 never ends the run. *)
Theorem save_to_excel_catches (transaction_list : list transaction) :
  (forall (filename : pystr) (fs : filesystem) (e : exn),
      export_workbook xl_bind wb_save_error transaction_list filename fs = Raise e ->
      save_to_excel xl_bind wb_save_error transaction_list filename fs =
      ([PrintExn excel_error_prefix e], fs)) /\
  (forall (w : world) (lines : list pystr) (e : exn),
      stdin w = u8 "4" :: lines ->
      export_workbook xl_bind wb_save_error transaction_list xlsx_name (files w) = Raise e ->
      menu_pass float_repr open_write_error xl_bind wb_save_error transaction_list w =
      Running transaction_list
        (mkWorld lines
           (stdout w ++ menu_text ++ [PrintExn excel_error_prefix e])
           (files w))) /\
  (forall (w : world) (lines : list pystr),
      stdin w = u8 "4" :: lines ->
      exists shown fs',
        menu_pass float_repr open_write_error xl_bind wb_save_error transaction_list w =
        Running transaction_list
          (mkWorld lines (stdout w ++ menu_text ++ shown) fs')).
Proof.
  assert (Hcatch : forall filename fs e,
             export_workbook xl_bind wb_save_error transaction_list filename fs = Raise e ->
             save_to_excel xl_bind wb_save_error transaction_list filename fs =
             ([PrintExn excel_error_prefix e], fs)).
  { intros filename fs e H. unfold save_to_excel. rewrite H. reflexivity. }
  assert (Hpass : forall w lines,
             stdin w = u8 "4" :: lines ->
             menu_pass float_repr open_write_error xl_bind wb_save_error transaction_list w =
             let (shown, fs') :=
               save_to_excel xl_bind wb_save_error transaction_list xlsx_name (files w) in
             Running transaction_list
               (mkWorld lines ((stdout w ++ menu_text) ++ shown) fs')).
  { intros w lines Hin. unfold menu_pass. rewrite Hin.
    change (pystr_eqb (u8 "4") (u8 "1")) with false.
    change (pystr_eqb (u8 "4") (u8 "2")) with false.
    change (pystr_eqb (u8 "4") (u8 "3")) with false.
    change (pystr_eqb (u8 "4") (u8 "4")) with true. reflexivity. }
  split; [exact Hcatch|]. split.
  - intros w lines e Hin H. rewrite (Hpass _ _ Hin), (Hcatch _ _ _ H).
    rewrite <- app_assoc. reflexivity.
  - intros w lines Hin. rewrite (Hpass _ _ Hin).
    destruct (save_to_excel xl_bind wb_save_error transaction_list xlsx_name (files w))
      as [shown fs'].
    exists shown, fs'. rewrite <- app_assoc. reflexivity.
Qed.


(** ** The end of a run *)

Lemma menu_pass_consumes (transactions transactions' : list transaction)
  (w w' : world) :
  menu_pass float_repr open_write_error xl_bind wb_save_error transactions w =
    Running transactions' w' ->
  (length (stdin w') < length (stdin w))%nat.
Proof.
  unfold menu_pass. destruct (stdin w) as [|choice lines]; [discriminate|].
  cbn [length].
  destruct (pystr_eqb choice (u8 "1")).
  { destruct (add_transaction lines _) as [[r lines'] out'] eqn:E.
    apply add_transaction_shrinks in E.
    destruct r as [t|e]; [|discriminate].
    destruct (save_to_csv _ _ _ _ _) as [[[]|e] fs']; [|discriminate].
    intros [= _ <-]. cbn [stdin]. apply Nat.lt_succ_r. exact E. }
  destruct (pystr_eqb choice (u8 "2"));
    [intros [= _ <-]; apply Nat.lt_succ_diag_r|].
  destruct (pystr_eqb choice (u8 "3")).
  { destruct (plot_graph transactions); [|discriminate].
    intros [= _ <-]. apply Nat.lt_succ_diag_r. }
  destruct (pystr_eqb choice (u8 "4")).
  { destruct (save_to_excel _ _ _ _ _) as [shown fs'].
    intros [= _ <-]. apply Nat.lt_succ_diag_r. }
  destruct (pystr_eqb choice (u8 "5")).
  { destruct (save_to_csv _ _ _ _ _) as [[[]|e] fs']; discriminate. }
  intros [= _ <-]. apply Nat.lt_succ_diag_r.
Qed.

Lemma menu_loop_ends (passes : nat) :
  forall transactions w transactions' w',
    (length (stdin w) < passes)%nat ->
    menu_loop float_repr open_write_error xl_bind wb_save_error
      passes transactions w <> Running transactions' w'.
Proof.
  induction passes as [|n IH]; intros ts w ts' w' Hlen.
  - inversion Hlen.
  - cbn [menu_loop].
    destruct (menu_pass _ _ _ _ ts w) as [t1 w1|e t1 w1|t1 w1] eqn:E;
      try discriminate.
    apply IH. apply menu_pass_consumes in E.
    apply (proj1 (Nat.lt_succ_r _ _)) in Hlen.
    eapply Nat.lt_le_trans; eassumption.
Qed.

Lemma main_ends (w : world) (transactions : list transaction) (w' : world) :
  main float_repr open_write_error xl_bind wb_save_error w <>
  Running transactions w'.
Proof.
  unfold main. destruct (load_from_csv csv_name (files w)); [|discriminate].
  apply menu_loop_ends. apply Nat.lt_succ_diag_r.
Qed.

(** X23. Every run ends. Each pass of the menu that goes on to the
    next one has read at least one line of the input, so on an input
    of n lines the loop is left within n + 1 passes: the program
    ends by the menu entry 5 or by an exception that nothing
    catches, the EOFError of the exhausted input at the latest. *)
Theorem run_ends (w : world) :
  (forall transactions transactions' w1,
      menu_pass float_repr open_write_error xl_bind wb_save_error
        transactions w = Running transactions' w1 ->
      (length (stdin w1) < length (stdin w))%nat) /\
  ((exists transactions w',
       main float_repr open_write_error xl_bind wb_save_error w =
       Exited transactions w') \/
   (exists e transactions w',
       main float_repr open_write_error xl_bind wb_save_error w =
       Uncaught e transactions w')).
Proof.
  split.
  - intros ts ts' w1. apply menu_pass_consumes.
  - destruct (main float_repr open_write_error xl_bind wb_save_error w)
      as [t1 w1|e1 t1 w1|t1 w1] eqn:E.
    + left. now exists t1, w1.
    + right. now exists e1, t1, w1.
    + now apply main_ends in E.
Qed.

(** ** The file of a ledger *)

Lemma fs_get_put_other (fs : filesystem) (path other : pystr) (f : file) :
  other <> path -> fs_get (fs_put fs path f) other = fs_get fs other.
Proof.
  intros Hne. unfold fs_get, fs_put.
  induction fs as [|[k v] fs IH]; cbn [dict_set dict_get].
  - destruct (pystr_eqb path other) eqn:E; [|reflexivity].
    apply pystr_eqb_eq in E. congruence.
  - destruct (pystr_eqb k path) eqn:E; cbn [dict_get].
    + apply pystr_eqb_eq in E. subst k.
      destruct (pystr_eqb path other) eqn:E'; [|reflexivity].
      apply pystr_eqb_eq in E'. congruence.
    + rewrite IH. reflexivity.
Qed.

Lemma valid_storable (t : transaction) :
  valid_transaction t -> storable float_repr t.
Proof.
  intros H. apply valid_transaction_fields in H.
  destruct H as (d & c & z & -> & _ & Hp & Hz). split; assumption.
Qed.

Lemma writerows_storable (transaction_list : list transaction) :
  Forall (storable float_repr) transaction_list ->
  forall content,
    writerows float_repr content transaction_list =
    (Return tt,
     content ++ concat (map crlf_line
                          (map (record_fields float_repr) transaction_list))).
Proof.
  induction 1 as [|t ts [Hp Hz] _ IH]; intros content.
  - cbn. now rewrite app_nil_r.
  - cbn [writerows map concat]. unfold writerow, dict_to_list.
    assert (Htext : fields_text float_repr
                      [cell_of_strval (date t); cell_of_strval (category t);
                       CNum (amount t)] =
                    Return (row_of (record_fields float_repr t))).
    { destruct t as [[d|] [c|] [z|x]]; cbn in Hp, Hz;
        unfold record_fields;
        cbn [date category amount cell_of_strval fields_text field_text
             bind strval_text amount_text row_of];
        try rewrite (py_str_int_whole Hz); try reflexivity;
        unfold plain in Hp; cbn [plainb] in Hp;
        try (destruct Hp as (? & ? & ?); discriminate). }
    rewrite Htext. cbn [bind].
    rewrite (csv_line_plain _ Hp), (file_write_plain content _ Hp), IH.
    rewrite <- app_assoc. reflexivity.
Qed.

Lemma save_to_csv_storable (transaction_list : list transaction)
  (filename : pystr) (fs : filesystem) :
  open_write_error filename = None ->
  Forall (storable float_repr) transaction_list ->
  save_to_csv float_repr open_write_error transaction_list filename fs =
  (Return tt,
   fs_put fs filename (TextFile (csv_text float_repr transaction_list))).
Proof.
  intros Hopen Hall. unfold save_to_csv.
  rewrite Hopen, writeheader_content, (writerows_storable Hall).
  reflexivity.
Qed.

(** X10. The file [save_to_csv] writes. For a ledger of records
    whose fields need no quoting, and every record
    [add_transaction] returns is one, the file holds the header line
    and then one line for each record, in order, each made of the
    date, the category and the amount separated by commas and ended
    by CR LF; nothing is raised. A ledger with one record more gives
    the same file with one line more. *)
Theorem save_to_csv_writes (transaction_list : list transaction)
  (filename : pystr) (fs : filesystem) :
  open_write_error filename = None ->
  (Forall (storable float_repr) transaction_list ->
   save_to_csv float_repr open_write_error transaction_list filename fs =
   (Return tt,
    fs_put fs filename (TextFile (csv_text float_repr transaction_list)))) /\
  (Forall valid_transaction transaction_list ->
   Forall (storable float_repr) transaction_list) /\
  (forall t,
      csv_text float_repr (transaction_list ++ [t]) =
      csv_text float_repr transaction_list ++
      crlf_line (record_fields float_repr t)).
Proof.
  intros Hopen. split; [|split].
  - now apply save_to_csv_storable.
  - intros H. eapply Forall_impl; [|exact H]. exact valid_storable.
  - intros t. unfold csv_text. cbn [map concat].
    rewrite !map_app, concat_app. cbn [map concat].
    now rewrite app_nil_r, app_assoc.
Qed.

(** X11. [save_to_csv] rewrites the file: what it raises and what
    the file holds afterwards depend on the list it is given and on
    nothing that was in the file before, and no other file is
    touched. *)
Theorem save_to_csv_overwrites (transaction_list : list transaction)
  (filename : pystr) :
  open_write_error filename = None ->
  exists r content,
    forall fs,
      exists fs',
        save_to_csv float_repr open_write_error transaction_list filename fs =
          (r, fs') /\
        fs_get fs' filename = Some (TextFile content) /\
        forall other, other <> filename -> fs_get fs' other = fs_get fs other.
Proof.
  intros Hopen. unfold save_to_csv. rewrite Hopen.
  destruct (writerow float_repr [] (map CStr fieldnames)) as [content|e].
  - destruct (writerows float_repr content transaction_list) as [r content'].
    exists r, content'. intros fs. eexists. split; [reflexivity|].
    split; [apply fs_get_put|]. intros other H. now apply fs_get_put_other.
  - exists (Raise e), []. intros fs. eexists. split; [reflexivity|].
    split; [apply fs_get_put|]. intros other H. now apply fs_get_put_other.
Qed.

Lemma storable_textual (t : transaction) :
  storable float_repr t -> textual float_repr t.
Proof.
  intros [Hp Hz]. split; [|split; [now apply plain_text3|exact Hz]].
  destruct t as [[d|] [c|] a]; unfold record_fields in Hp;
    cbn [date category strval_text plain3] in *;
    try (unfold plain in Hp; cbn [plainb] in Hp;
         destruct Hp as (? & ? & ?); discriminate).
  now exists d, c.
Qed.

Lemma writerows_textual (transaction_list : list transaction) :
  Forall (textual float_repr) transaction_list ->
  forall content,
    writerows float_repr content transaction_list =
    (Return tt,
     content ++ concat (map written_line
                          (map (record_fields float_repr) transaction_list))).
Proof.
  induction 1 as [|t ts ((d & c & Hd & Hc) & Hp & Hz) _ IH]; intros content.
  - cbn. now rewrite app_nil_r.
  - cbn [writerows map concat]. unfold writerow, dict_to_list.
    assert (Htext : fields_text float_repr
                      [cell_of_strval (date t); cell_of_strval (category t);
                       CNum (amount t)] =
                    Return (row_of (record_fields float_repr t))).
    { unfold record_fields, chartable in *. rewrite Hd, Hc.
      destruct (amount t) as [z|x];
        cbn [cell_of_strval fields_text field_text bind strval_text
             amount_text row_of];
        try rewrite (py_str_int_whole Hz); reflexivity. }
    rewrite Htext. cbn [bind].
    rewrite csv_line_quoted, (file_write_quoted content _ Hp), IH.
    rewrite <- app_assoc. reflexivity.
Qed.

Lemma save_to_csv_textual (transaction_list : list transaction)
  (filename : pystr) (fs : filesystem) :
  open_write_error filename = None ->
  Forall (textual float_repr) transaction_list ->
  save_to_csv float_repr open_write_error transaction_list filename fs =
  (Return tt,
   fs_put fs filename
     (TextFile (concat (map written_line
                          (header3 ::
                           map (record_fields float_repr) transaction_list))))).
Proof.
  intros Hopen Hall. unfold save_to_csv.
  rewrite Hopen, writeheader_content, (writerows_textual Hall).
  cbn [map concat]. rewrite <- csv_line_quoted, (csv_line_plain _ header_plain).
  reflexivity.
Qed.

Lemma comprehension_textual (transaction_list : list transaction) :
  Forall (textual float_repr) transaction_list ->
  Forall (repr_reads_back float_repr) transaction_list ->
  exists loaded,
    comprehension
      (to_rows (map dict_of
                  (map (record_fields float_repr) transaction_list))) =
      Return loaded /\
    Forall2 as_float transaction_list loaded /\
    (Forall (fun t => exists y, amount t = Float y) transaction_list ->
     loaded = transaction_list).
Proof.
  induction 1 as [|t ts ((d & c & Hd & Hc) & Hp & Hz) _ IH]; intros Hrepr.
  - exists []. split; [reflexivity|]. split; [constructor|reflexivity].
  - inversion_clear Hrepr as [|? ? Ht Hts].
    destruct (IH Hts) as (loaded & Hl & Has & Hsame).
    cbn [map to_rows fold_right comprehension].
    fold (to_rows (map dict_of (map (record_fields float_repr) ts))).
    rewrite row_to_transaction_fields, Hl.
    destruct t as [dt ct a]. cbn [date category] in Hd, Hc. subst dt ct.
    unfold record_fields, chartable, repr_reads_back in *.
    cbn [date category amount strval_text third snd] in *.
    destruct a as [z|y]; cbn [amount_text] in *.
    + rewrite (py_float_str_of_Z Hz). cbn [bind record_of_fields].
      eexists. split; [reflexivity|]. split.
      * constructor; [|exact Has]. repeat split.
        exists (float_of_whole z). split; [|reflexivity].
        now apply float_of_int_whole.
      * intros Hall. inversion_clear Hall as [|? ? [y Hy] _].
        discriminate Hy.
    + rewrite Ht. cbn [bind record_of_fields].
      eexists. split; [reflexivity|]. split.
      * constructor; [|exact Has]. repeat split. now exists y.
      * intros Hall. inversion_clear Hall as [|? ? _ Hall'].
        now rewrite (Hsame Hall').
Qed.

Lemma comprehension_storable (transaction_list : list transaction) :
  Forall (storable float_repr) transaction_list ->
  Forall (repr_reads_back float_repr) transaction_list ->
  exists loaded,
    comprehension
      (to_rows (map dict_of
                  (map (record_fields float_repr) transaction_list))) =
      Return loaded /\
    Forall2 as_float transaction_list loaded /\
    (Forall (fun t => exists y, amount t = Float y) transaction_list ->
     loaded = transaction_list).
Proof.
  intros Hst. apply comprehension_textual.
  eapply Forall_impl; [|exact Hst]. exact storable_textual.
Qed.

(** X14. Saving and loading again, for the ledgers a run can hold,
    records read from a file among them, whatever csv has to quote.
    Take records whose date and category are strings without line
    breaks (they may be empty and hold commas and quotes, which csv
    writes between quotes, the quotes doubled) and whose amount
    [float()] converts. When the text written for each float amount
    is read back as that float, [load_from_csv] after [save_to_csv]
    returns the records in order, each with its date and its
    category and with its amount made a float by [float()]; a ledger
    whose amounts are all floats, as one read from a file is, comes
    back as it was. The records [add_transaction] returns are among
    these records. *)
Theorem save_then_load_reloaded (transaction_list : list transaction)
  (filename : pystr) (fs : filesystem) :
  open_write_error filename = None ->
  (Forall (textual float_repr) transaction_list ->
   Forall (repr_reads_back float_repr) transaction_list ->
   exists fs' loaded,
     save_to_csv float_repr open_write_error transaction_list filename fs =
       (Return tt, fs') /\
     load_from_csv filename fs' = Return loaded /\
     Forall2 as_float transaction_list loaded /\
     (Forall (fun t => exists y, amount t = Float y) transaction_list ->
      loaded = transaction_list)) /\
  (Forall valid_transaction transaction_list ->
   Forall (textual float_repr) transaction_list /\
   Forall (repr_reads_back float_repr) transaction_list).
Proof.
  intros Hopen. split.
  - intros Hst Hrepr.
    destruct (comprehension_textual Hst Hrepr) as (loaded & Hl & Has & Hsame).
    eexists. exists loaded. split; [now apply save_to_csv_textual|].
    split; [|now split].
    rewrite (@load_from_csv_quoted _ _
               (map (record_fields float_repr) transaction_list)).
    + exact Hl.
    + apply fs_get_put.
    + clear -Hst.
      induction Hst as [|t ts (_ & Hp & _) _ IH]; constructor; assumption.
  - intros Hv. split; (eapply Forall_impl; [|exact Hv]); intros t Ht.
    + apply storable_textual. now apply valid_storable.
    + destruct Ht as (d & c & z & -> & _). exact I.
Qed.

(** ** The spreadsheet *)

Lemma bind_cells_accepts (values : list cell) :
  (forall v, exists c, xl_bind v = Return c) ->
  exists stored,
    bind_cells xl_bind values = Return stored /\
    length stored = length values.
Proof.
  intros Hbind. induction values as [|v values (stored & IH & Hlen)].
  - now exists [].
  - destruct (Hbind v) as [c Hc]. exists (c :: stored).
    cbn [bind_cells]. rewrite Hc, IH. cbn [bind length].
    now rewrite Hlen.
Qed.

Lemma append_rows_accepts (transaction_list : list transaction) :
  (forall v, exists c, xl_bind v = Return c) ->
  Forall chartable transaction_list ->
  forall ws dc,
    exists body,
      append_rows xl_bind ws dc transaction_list =
        Return (ws ++ body, (dc + Z.of_nat (length transaction_list))%Z) /\
      length body = length transaction_list.
Proof.
  intros Hbind. induction 1 as [|t ts Ht _ IH]; intros ws dc.
  - exists []. cbn. now rewrite app_nil_r, Z.add_0_r.
  - cbn [append_rows].
    assert (Hx : exists x, float_of_number (amount t) = Return x).
    { unfold chartable in Ht. destruct (amount t) as [z|x].
      - exists (float_of_whole z). now apply float_of_int_whole.
      - now exists x. }
    destruct Hx as [x ->]. cbn [bind]. unfold ws_append.
    destruct (bind_cells_accepts
                [cell_of_strval (date t); cell_of_strval (category t);
                 CNum (Float x)] Hbind) as (stored & -> & _).
    cbn [bind].
    destruct (IH (ws ++ [stored]) (dc + 1)%Z) as (body & -> & Hlen).
    exists (stored :: body). rewrite <- app_assoc. cbn [app length].
    split; [do 2 f_equal; lia|now rewrite Hlen].
Qed.

Lemma save_to_excel_frame_csv (transaction_list : list transaction)
  (fs : filesystem) :
  exists shown fs',
    save_to_excel xl_bind wb_save_error transaction_list xlsx_name fs =
      (shown, fs') /\
    fs_get fs' csv_name = fs_get fs csv_name.
Proof.
  assert (Hne : csv_name <> xlsx_name) by (vm_compute; discriminate).
  unfold save_to_excel.
  destruct (export_workbook xl_bind wb_save_error transaction_list xlsx_name fs)
    as [[[wb dc] fs']|e] eqn:E.
  - apply export_workbook_spec in E. destruct E as (_ & -> & _).
    destruct (py_str_int dc) as [n|e']; eexists; eexists;
      (split; [reflexivity|]); now apply fs_get_put_other.
  - exists [PrintExn excel_error_prefix e], fs. now split.
Qed.

(** X17. An export succeeds whenever the spreadsheet library takes
    every cell and the file can be written: on a ledger whose
    amounts [float()] converts, [save_to_excel] stores under the
    file name a workbook of one sheet, titled for the app, of one
    header row and one row for each record, and prints that the data
    were saved and how many records there are. *)
Theorem save_to_excel_succeeds (transaction_list : list transaction)
  (filename : pystr) (fs : filesystem) :
  (forall v, exists c, xl_bind v = Return c) ->
  (forall wb, wb_save_error filename wb = None) ->
  Forall chartable transaction_list ->
  (Z.of_nat (length transaction_list) < 2 ^ 53)%Z ->
  exists wb,
    save_to_excel xl_bind wb_save_error transaction_list filename fs =
      ([Print (saved_notice filename);
        Print (count_notice (str_of_Z (Z.of_nat (length transaction_list))))],
       fs_put fs filename (XlsxFile wb)) /\
    title wb = sheet_title /\
    length (sheet wb) = S (length transaction_list).
Proof.
  intros Hbind Hsave Hall Hlen.
  unfold save_to_excel, export_workbook, ws_append.
  destruct (bind_cells_accepts (map CStr fieldnames) Hbind)
    as (header & -> & _).
  cbn [bind app].
  destruct (append_rows_accepts Hbind Hall [header] 0)
    as (body & -> & Hbody).
  cbn [bind fst snd]. unfold wb_save. rewrite Hsave. cbn [bind].
  rewrite py_str_int_whole by (apply whole_double_small; lia).
  eexists. split; [reflexivity|]. cbn [title sheet app length].
  split; [reflexivity|]. now rewrite Hbody.
Qed.

(** X18. [save_to_excel] touches no file but the one it is asked to
    write: whether the export succeeds or fails, every other file, the
    CSV file of the ledger among them, is after the call what it was
    before (of the named file after a failed export nothing is said
    here). So the menu entry 4 hands the CSV file on to the next pass
    as it found it. *)
Theorem save_to_excel_frame (transaction_list : list transaction)
  (filename : pystr) (fs : filesystem) (shown : list item)
  (fs' : filesystem) :
  save_to_excel xl_bind wb_save_error transaction_list filename fs =
    (shown, fs') ->
  (forall other, other <> filename -> fs_get fs' other = fs_get fs other) /\
  (filename = xlsx_name -> fs_get fs' csv_name = fs_get fs csv_name) /\
  (forall (w : world) (lines : list pystr),
      stdin w = u8 "4" :: lines ->
      exists w',
        menu_pass float_repr open_write_error xl_bind wb_save_error
          transaction_list w = Running transaction_list w' /\
        stdin w' = lines /\
        fs_get (files w') csv_name = fs_get (files w) csv_name).
Proof.
  intros Hsave.
  assert (Hne : csv_name <> xlsx_name) by (vm_compute; discriminate).
  assert (Hframe : forall other, other <> filename ->
                     fs_get fs' other = fs_get fs other).
  { revert Hsave. unfold save_to_excel.
    destruct (export_workbook xl_bind wb_save_error transaction_list
                filename fs) as [[[wb dc] fs1]|e] eqn:E.
    - apply export_workbook_spec in E. destruct E as (_ & -> & _).
      destruct (py_str_int dc) as [n|e']; intros [= _ <-] other H;
        now apply fs_get_put_other.
    - intros [= _ <-]. reflexivity. }
  split; [exact Hframe|]. split; [intros ->; now apply Hframe|].
  intros w lines Hin. unfold menu_pass. rewrite Hin.
  change (pystr_eqb (u8 "4") (u8 "1")) with false.
  change (pystr_eqb (u8 "4") (u8 "2")) with false.
  change (pystr_eqb (u8 "4") (u8 "3")) with false.
  rewrite pystr_eqb_refl. cbv iota.
  destruct (save_to_excel_frame_csv transaction_list (files w))
    as (shown' & fs2 & -> & Hcsv).
  eexists. split; [reflexivity|]. split; [reflexivity|exact Hcsv].
Qed.

(** ** The ledger and its file during a run *)

Lemma add_transaction_raises (lines : list pystr) (out : list item)
  (e : exn) (lines' : list pystr) (out' : list item) :
  add_transaction lines out = (Raise e, lines', out') ->
  e = eof_error \/ e = infinity_error.
Proof.
  unfold add_transaction, input_date, input_category, input_amount.
  destruct (prompt_loop date_prompt _ lines out) as [[[d|e1] l1] o1] eqn:E1.
  - destruct (prompt_loop number_prompt _ l1 _) as [[[c|e2] l2] o2] eqn:E2.
    + destruct (prompt_loop amount_prompt _ l2 o2) as [[[z|e3] l3] o3] eqn:E3;
        [discriminate|].
      intros [= <- _ _]. apply prompt_loop_raises in E3.
      destruct E3 as [(-> & _)|(l & _ & Hl)]; [now left|].
      right. eapply input_amount_attempt_escaped; exact Hl.
    + intros [= <- _ _]. left. apply prompt_loop_raises in E2.
      destruct E2 as [(-> & _)|(l & _ & Hl)]; [reflexivity|].
      now apply input_category_attempt_not_escaped in Hl.
  - intros [= <- _ _]. left. apply prompt_loop_raises in E1.
    destruct E1 as [(-> & _)|(l & _ & Hl)]; [reflexivity|].
    now apply input_date_attempt_not_escaped in Hl.
Qed.

Lemma storable_chartable (t : transaction) :
  storable float_repr t -> chartable t.
Proof. intros [_ H]. exact H. Qed.

Lemma plot_graph_returns (transaction_list : list transaction) :
  Forall (storable float_repr) transaction_list ->
  exists shown, plot_graph transaction_list = Return shown.
Proof.
  intros Hall. destruct transaction_list as [|t ts]; [now eexists|].
  unfold plot_graph. rewrite aggregate_fold.
  destruct (@categorized_chartable (t :: ts)) as [pairs ->].
  - eapply Forall_impl; [|exact Hall]. exact storable_chartable.
  - cbn [bind]. now eexists.
Qed.

(** What one pass of the menu keeps. *)
Lemma menu_pass_keeps (transactions0 : list transaction) (fs0 : filesystem)
  (transactions : list transaction) (w : world) :
  open_write_error csv_name = None ->
  Forall (storable float_repr) transactions ->
  file_kept float_repr transactions0 fs0 transactions (files w) ->
  let o := menu_pass float_repr open_write_error xl_bind wb_save_error
             transactions w in
  Forall (storable float_repr) (ledger o) /\
  file_kept float_repr transactions0 fs0 (ledger o) (files (world_of o)) /\
  (exists added,
      ledger o = transactions ++ added /\ Forall valid_transaction added) /\
  (forall e, (exists transactions' w', o = Uncaught e transactions' w') ->
             e = eof_error \/ e = infinity_error).
Proof.
  intros Hopen Hst Hkept. cbv zeta.
  assert (Hsame : Forall (storable float_repr) transactions /\
                  file_kept float_repr transactions0 fs0 transactions (files w) /\
                  exists added, transactions = transactions ++ added /\
                                Forall valid_transaction added).
  { split; [exact Hst|]. split; [exact Hkept|].
    exists []. now rewrite app_nil_r. }
  destruct Hsame as (H1 & H2 & H3).
  unfold menu_pass. destruct (stdin w) as [|choice lines].
  { cbn [ledger world_of files]. repeat split; try assumption.
    intros e (ts' & w' & [= <- _ _]). now left. }
  destruct (pystr_eqb choice (u8 "1")).
  { destruct (add_transaction lines _) as [[[t|e] lines'] out'] eqn:E.
    - pose proof (add_transaction_valid _ _ E) as Hvalid.
      assert (Hst' : Forall (storable float_repr) (transactions ++ [t])).
      { apply Forall_app. split; [exact Hst|].
        constructor; [now apply valid_storable|constructor]. }
      rewrite (@save_to_csv_storable _ csv_name (files w) Hopen Hst').
      cbn [ledger world_of files]. split; [exact Hst'|].
      split; [right; apply fs_get_put|].
      split; [exists [t]; split; [reflexivity|now constructor]|].
      intros e (ts' & w' & [=]).
    - cbn [ledger world_of files]. repeat split; try assumption.
      intros e' (ts' & w' & [= <- _ _]).
      eapply add_transaction_raises; exact E. }
  destruct (pystr_eqb choice (u8 "2")).
  { cbn [ledger world_of files]. repeat split; try assumption.
    intros e (ts' & w' & [=]). }
  destruct (pystr_eqb choice (u8 "3")).
  { destruct (plot_graph_returns Hst) as [shown ->].
    cbn [ledger world_of files]. repeat split; try assumption.
    intros e (ts' & w' & [=]). }
  destruct (pystr_eqb choice (u8 "4")).
  { destruct (save_to_excel_frame_csv transactions (files w))
      as (shown & fs' & -> & Hcsv).
    cbn [ledger world_of files]. split; [exact Hst|]. split.
    - unfold file_kept in *. rewrite Hcsv. exact Hkept.
    - split; [exact H3|]. intros e (ts' & w' & [=]). }
  destruct (pystr_eqb choice (u8 "5")).
  { rewrite (@save_to_csv_storable _ csv_name (files w) Hopen Hst).
    cbn [ledger world_of files]. split; [exact Hst|].
    split; [right; apply fs_get_put|].
    split; [exact H3|]. intros e (ts' & w' & [=]). }
  cbn [ledger world_of files]. repeat split; try assumption.
  intros e (ts' & w' & [=]).
Qed.

Lemma menu_loop_keeps (passes : nat) :
  forall (transactions0 : list transaction) (fs0 : filesystem)
         (transactions : list transaction) (w : world),
    open_write_error csv_name = None ->
    Forall (storable float_repr) transactions ->
    file_kept float_repr transactions0 fs0 transactions (files w) ->
    let o := menu_loop float_repr open_write_error xl_bind wb_save_error
               passes transactions w in
    Forall (storable float_repr) (ledger o) /\
    file_kept float_repr transactions0 fs0 (ledger o) (files (world_of o)) /\
    (exists added,
        ledger o = transactions ++ added /\ Forall valid_transaction added) /\
    (forall e, (exists transactions' w', o = Uncaught e transactions' w') ->
               e = eof_error \/ e = infinity_error).
Proof.
  induction passes as [|n IH]; intros ts0 fs0 ts w Hopen Hst Hkept; cbv zeta.
  - cbn [menu_loop ledger world_of]. split; [exact Hst|].
    split; [exact Hkept|]. split.
    + exists []. now rewrite app_nil_r.
    + intros e (ts' & w' & [=]).
  - cbn [menu_loop].
    pose proof (@menu_pass_keeps ts0 fs0 ts w Hopen Hst Hkept) as Hpass.
    cbv zeta in Hpass.
    destruct (menu_pass float_repr open_write_error xl_bind wb_save_error ts w)
      as [t1 w1|e1 t1 w1|t1 w1]; try exact Hpass.
    cbn [ledger world_of] in Hpass.
    destruct Hpass as (Hst1 & Hkept1 & (added1 & -> & Hv1) & _).
    destruct (IH ts0 fs0 (ts ++ added1) w1 Hopen Hst1 Hkept1)
      as (Hst2 & Hkept2 & (added2 & Hl2 & Hv2) & Hun).
    split; [exact Hst2|]. split; [exact Hkept2|]. split; [|exact Hun].
    exists (added1 ++ added2). rewrite Hl2, <- app_assoc.
    split; [reflexivity|]. apply Forall_app. now split.
Qed.

Lemma menu_pass_appends (transactions : list transaction) (w : world) :
  exists added,
    ledger (menu_pass float_repr open_write_error xl_bind wb_save_error
              transactions w) = transactions ++ added /\
    Forall valid_transaction added /\ (length added <= 1)%nat.
Proof.
  assert (Hsame : exists added,
             transactions = transactions ++ added /\
             Forall valid_transaction added /\ (length added <= 1)%nat).
  { exists []. rewrite app_nil_r. repeat split; [constructor|cbn; lia]. }
  unfold menu_pass. destruct (stdin w) as [|choice lines]; [exact Hsame|].
  destruct (pystr_eqb choice (u8 "1")).
  { destruct (add_transaction lines _) as [[[t|e] lines'] out'] eqn:E;
      [|exact Hsame].
    apply add_transaction_valid in E.
    destruct (save_to_csv _ _ _ _ _) as [[[]|e] fs']; cbn [ledger];
      exists [t]; (split; [reflexivity|]);
      (split; [now constructor|apply Nat.le_refl]). }
  destruct (pystr_eqb choice (u8 "2")); [exact Hsame|].
  destruct (pystr_eqb choice (u8 "3")).
  { destruct (plot_graph transactions); exact Hsame. }
  destruct (pystr_eqb choice (u8 "4")).
  { destruct (save_to_excel _ _ _ _ _) as [shown fs']. exact Hsame. }
  destruct (pystr_eqb choice (u8 "5")).
  { destruct (save_to_csv _ _ _ _ _) as [[[]|e] fs']; exact Hsame. }
  exact Hsame.
Qed.

(** X19. Records are only ever added. Whatever is typed, and however
    a run of the menu stands or ends after any number of passes, its
    ledger is the ledger it started with followed by the records
    registered since, each of them a record [add_transaction]
    returned; one pass adds one record at most. No record is changed,
    moved or removed. *)
Theorem ledger_only_grows (passes : nat) (transactions : list transaction)
  (w : world) :
  (exists added,
      ledger (menu_loop float_repr open_write_error xl_bind wb_save_error
                passes transactions w) = transactions ++ added /\
      Forall valid_transaction added /\ (length added <= passes)%nat) /\
  (forall loaded,
      load_from_csv csv_name (files w) = Return loaded ->
      exists added,
        ledger (main float_repr open_write_error xl_bind wb_save_error w) =
          loaded ++ added /\
        Forall valid_transaction added).
Proof.
  assert (Hloop : forall n ts w0,
    exists added,
      ledger (menu_loop float_repr open_write_error xl_bind wb_save_error
                n ts w0) = ts ++ added /\
      Forall valid_transaction added /\ (length added <= n)%nat).
  { induction n as [|n IH]; intros ts w0.
    - exists []. cbn [menu_loop ledger length]. rewrite app_nil_r.
      repeat split; [constructor|apply Nat.le_refl].
    - cbn [menu_loop].
      destruct (menu_pass_appends ts w0) as (added1 & H1 & Hv1 & Hlen1).
      destruct (menu_pass float_repr open_write_error xl_bind wb_save_error
                  ts w0) as [t1 w1|e1 t1 w1|t1 w1];
        cbn [ledger] in H1;
        try (exists added1; cbn [ledger];
             repeat split; [exact H1|exact Hv1|lia]).
      destruct (IH t1 w1) as (added2 & H2 & Hv2 & Hlen2).
      exists (added1 ++ added2). rewrite H2, H1, <- app_assoc.
      split; [reflexivity|]. split; [apply Forall_app; now split|].
      rewrite length_app. lia. }
  split; [apply Hloop|].
  intros loaded Hload. unfold main. rewrite Hload.
  destruct (Hloop (S (length (stdin w))) loaded w) as (added & H & Hv & _).
  now exists added.
Qed.

(** X20. The file follows the ledger. When the CSV file can be
    opened for writing and the ledger a run starts with is one that
    csv writes without quoting, then after any number of passes of
    the menu, wherever the run stands and however it has ended, the
    ledger is still such a ledger and the CSV file holds exactly the
    text of the whole ledger, unless nothing was registered yet and
    the file is what it was at the start. In particular a run that
    starts without a CSV file ends with the file of its ledger or,
    when it registered nothing, without a file. *)
Theorem file_follows_ledger (passes : nat) (transactions : list transaction)
  (w : world) :
  open_write_error csv_name = None ->
  (Forall (storable float_repr) transactions ->
   let o := menu_loop float_repr open_write_error xl_bind wb_save_error
              passes transactions w in
   Forall (storable float_repr) (ledger o) /\
   file_kept float_repr transactions (files w)
     (ledger o) (files (world_of o))) /\
  (fs_get (files w) csv_name = None ->
   let o := main float_repr open_write_error xl_bind wb_save_error w in
   (ledger o = [] /\ fs_get (files (world_of o)) csv_name = None) \/
   fs_get (files (world_of o)) csv_name =
     Some (TextFile (csv_text float_repr (ledger o)))).
Proof.
  intros Hopen. split.
  - intros Hst. cbv zeta.
    destruct (@menu_loop_keeps passes transactions (files w) transactions w
                Hopen Hst) as (H1 & H2 & _).
    + left. now split.
    + now split.
  - intros Hnone. cbv zeta. unfold main.
    assert (Hload : load_from_csv csv_name (files w) = Return []).
    { unfold load_from_csv, read_text. rewrite Hnone. reflexivity. }
    rewrite Hload.
    destruct (@menu_loop_keeps (S (length (stdin w))) [] (files w) [] w
                Hopen (Forall_nil _)) as (_ & [[H1 H2]|H] & _).
    + left. now split.
    + left. split; [exact H1|]. now rewrite H2.
    + right. exact H.
Qed.

Lemma as_float_same_record (t l : transaction) :
  valid_transaction t -> as_float t l -> same_record t l.
Proof.
  intros Hv (Hd & Hc & x & Hx & Hl).
  apply valid_transaction_fields in Hv.
  destruct Hv as (d & c & z & -> & _ & _ & Hz).
  cbn [amount float_of_number] in Hx.
  rewrite (float_of_int_whole Hz) in Hx. injection Hx as <-.
  unfold same_record. cbn [date category amount] in *.
  rewrite Hd, Hc, Hl. repeat split. apply number_eqb_int_float.
Qed.

Lemma load_kept_file (transactions : list transaction) (fs : filesystem) :
  Forall valid_transaction transactions ->
  fs_get fs csv_name = Some (TextFile (csv_text float_repr transactions)) ->
  exists loaded,
    load_from_csv csv_name fs = Return loaded /\
    Forall2 same_record transactions loaded.
Proof.
  intros Hv Hfile.
  assert (Hst : Forall (storable float_repr) transactions)
    by (eapply Forall_impl; [|exact Hv]; exact valid_storable).
  assert (Hrepr : Forall (repr_reads_back float_repr) transactions).
  { eapply Forall_impl; [|exact Hv].
    intros t (d & c & z & -> & _). exact I. }
  destruct (comprehension_storable Hst Hrepr) as (loaded & Hl & Has & _).
  exists loaded. split.
  - rewrite (@load_from_csv_lines fs csv_name
               (map (record_fields float_repr) transactions) Hfile).
    + exact Hl.
    + clear -Hst. induction Hst as [|t ts [Hp _] _ IH]; constructor; assumption.
  - clear -Hv Has. induction Has as [|t l ts ls Htl _ IH]; constructor.
    + apply as_float_same_record; [|exact Htl]. now inversion Hv.
    + apply IH. now inversion Hv.
Qed.

(** X21. Nothing registered is lost. Take a run that starts without
    a CSV file, on a system where that file can be opened for
    writing. However the run ends, by the menu entry 5 or by an
    exception that nothing catches, the CSV file it leaves is read by
    [load_from_csv] as the ledger of the run: the same records in the
    same order, with equal amounts. So the next start of the program
    opens its menu on that ledger. *)
Theorem run_loses_nothing (w : world) :
  open_write_error csv_name = None ->
  fs_get (files w) csv_name = None ->
  let o := main float_repr open_write_error xl_bind wb_save_error w in
  exists loaded,
    load_from_csv csv_name (files (world_of o)) = Return loaded /\
    Forall2 same_record (ledger o) loaded /\
    forall w2,
      files w2 = files (world_of o) ->
      main float_repr open_write_error xl_bind wb_save_error w2 =
      menu_loop float_repr open_write_error xl_bind wb_save_error
        (S (length (stdin w2))) loaded w2.
Proof.
  intros Hopen Hnone. cbv zeta.
  assert (Hload : load_from_csv csv_name (files w) = Return []).
  { unfold load_from_csv, read_text. rewrite Hnone. reflexivity. }
  unfold main at 1 2 3. rewrite Hload.
  destruct (@menu_loop_keeps (S (length (stdin w))) [] (files w) [] w
              Hopen (Forall_nil _))
    as (_ & Hkept & (added & Hledger & Hvalid) & _);
    [left; now split|].
  set (o := menu_loop float_repr open_write_error xl_bind wb_save_error
              (S (length (stdin w))) [] w) in *.
  cbn [app] in Hledger.
  assert (Hl : exists loaded,
             load_from_csv csv_name (files (world_of o)) = Return loaded /\
             Forall2 same_record (ledger o) loaded).
  { destruct Hkept as [[H1 H2]|H].
    - exists []. rewrite H1. split; [|constructor].
      unfold load_from_csv, read_text. rewrite H2, Hnone. reflexivity.
    - apply load_kept_file; [|exact H]. now rewrite Hledger. }
  destruct Hl as (loaded & Hl & Hsame). exists loaded.
  split; [exact Hl|]. split; [exact Hsame|].
  intros w2 Hfiles. unfold main. now rewrite Hfiles, Hl.
Qed.

(** X22. What can end a run. When the CSV file can be opened for
    writing and the ledger is one that csv writes without quoting
    (the empty ledger of a first start is), the menu loop is left by
    an exception in two cases only: the input has ended (EOFError) or
    an infinite amount was typed (OverflowError). Handing the table
    to tabulate and the chart to matplotlib (their rendering is
    output here), exporting and saving raise nothing; in particular
    a run that starts without a CSV file ends by the menu entry 5 or
    by one of these two exceptions. *)
Theorem run_ends_by (passes : nat) (transactions : list transaction)
  (w : world) :
  open_write_error csv_name = None ->
  (Forall (storable float_repr) transactions ->
   forall e transactions' w',
     menu_loop float_repr open_write_error xl_bind wb_save_error
       passes transactions w = Uncaught e transactions' w' ->
     e = eof_error \/ e = infinity_error) /\
  (fs_get (files w) csv_name = None ->
   (exists transactions' w',
       main float_repr open_write_error xl_bind wb_save_error w =
       Exited transactions' w') \/
   (exists e transactions' w',
       main float_repr open_write_error xl_bind wb_save_error w =
       Uncaught e transactions' w' /\
       (e = eof_error \/ e = infinity_error))).
Proof.
  intros Hopen. split.
  - intros Hst e ts' w' H.
    destruct (@menu_loop_keeps passes transactions (files w) transactions w
                Hopen Hst) as (_ & _ & _ & Hun); [left; now split|].
    apply Hun. now exists ts', w'.
  - intros Hnone. unfold main.
    assert (Hload : load_from_csv csv_name (files w) = Return []).
    { unfold load_from_csv, read_text. rewrite Hnone. reflexivity. }
    rewrite Hload.
    destruct (@menu_loop_keeps (S (length (stdin w))) [] (files w) [] w
                Hopen (Forall_nil _)) as (_ & _ & _ & Hun);
      [left; now split|].
    destruct (menu_loop float_repr open_write_error xl_bind wb_save_error
                (S (length (stdin w))) [] w) as [t1 w1|e1 t1 w1|t1 w1] eqn:E.
    + left. now exists t1, w1.
    + right. exists e1, t1, w1. split; [reflexivity|].
      apply Hun. now exists t1, w1.
    + exfalso. revert E. apply menu_loop_ends. apply Nat.lt_succ_diag_r.
Qed.

(** ** A CSV file that cannot be written *)

Lemma menu_pass_unwritable (e : exn) (transactions : list transaction)
  (w : world) :
  open_write_error csv_name = Some e ->
  let o := menu_pass float_repr open_write_error xl_bind wb_save_error
             transactions w in
  fs_get (files (world_of o)) csv_name = fs_get (files w) csv_name /\
  match o with
  | Exited _ _ => False
  | Running transactions' _ => transactions' = transactions
  | Uncaught e' transactions' _ =>
    transactions' = transactions \/
    (e' = e /\ exists t, transactions' = transactions ++ [t] /\
                         valid_transaction t)
  end.
Proof.
  intros Hopen. cbv zeta. unfold menu_pass.
  destruct (stdin w) as [|choice lines].
  { cbn [world_of files]. split; [reflexivity|now left]. }
  destruct (pystr_eqb choice (u8 "1")).
  { destruct (add_transaction lines _) as [[[t|e'] lines'] out'] eqn:E.
    - unfold save_to_csv. rewrite Hopen. cbn [world_of files].
      split; [reflexivity|]. right. split; [reflexivity|].
      exists t. split; [reflexivity|].
      eapply add_transaction_valid; exact E.
    - cbn [world_of files]. split; [reflexivity|now left]. }
  destruct (pystr_eqb choice (u8 "2")); [now split|].
  destruct (pystr_eqb choice (u8 "3")).
  { destruct (plot_graph transactions); cbn [world_of files];
      split; try reflexivity. now left. }
  destruct (pystr_eqb choice (u8 "4")).
  { destruct (save_to_excel_frame_csv transactions (files w))
      as (shown & fs' & -> & Hcsv).
    cbn [world_of files]. now split. }
  destruct (pystr_eqb choice (u8 "5")).
  { unfold save_to_csv. rewrite Hopen. cbn [world_of files].
    split; [reflexivity|now left]. }
  now split.
Qed.

(** X24. A failure to open the CSV file for writing is caught
    nowhere. On a system where that file cannot be opened, no run of
    the menu ever changes the file or leaves by the menu entry 5: the
    first registration, like the entry 5 itself, ends the run with
    the exception of [open], and the record just entered, held in
    memory only, is lost with the process. *)
Theorem unwritable_file_ends_run (e : exn) (passes : nat)
  (transactions : list transaction) (w : world) :
  open_write_error csv_name = Some e ->
  let o := menu_loop float_repr open_write_error xl_bind wb_save_error
             passes transactions w in
  fs_get (files (world_of o)) csv_name = fs_get (files w) csv_name /\
  match o with
  | Exited _ _ => False
  | Running transactions' _ => transactions' = transactions
  | Uncaught e' transactions' _ =>
    transactions' = transactions \/
    (e' = e /\ exists t, transactions' = transactions ++ [t] /\
                         valid_transaction t)
  end.
Proof.
  intros Hopen. cbv zeta. revert transactions w.
  induction passes as [|n IH]; intros ts w; [now split|].
  cbn [menu_loop].
  pose proof (@menu_pass_unwritable e ts w Hopen) as Hpass. cbv zeta in Hpass.
  destruct (menu_pass float_repr open_write_error xl_bind wb_save_error ts w)
    as [t1 w1|e1 t1 w1|t1 w1]; try exact Hpass.
  cbn [world_of] in Hpass. destruct Hpass as [Hfile ->].
  destruct (IH ts w1) as [Hfile' H]. split; [|exact H].
  now rewrite Hfile'.
Qed.

(** ** The two passes that write the file *)

(** X27. A registration and the exit, from the menu to the file.
    When the CSV file opens for writing and the ledger needs no
    quoting: the menu entry 1 followed by a date, a number of the
    category menu and an amount, each taken at the first attempt,
    appends the record of that date, category and amount to the
    ledger, rewrites the CSV file as the text of the ledger so
    extended, prints the menu, the three prompts (the heading and
    the category menu before the second) and the confirmation, and
    goes on to the next pass with the rest of the input; the menu
    entry 5 prints the farewell, writes the text of the ledger to the
    CSV file and ends the run with the ledger as it was. *)
Theorem writing_passes (transactions : list transaction) (w : world)
  (rest : list pystr) :
  open_write_error csv_name = None ->
  Forall (storable float_repr) transactions ->
  (forall d n c a z,
      lenient_date d ->
      input_category_attempt categories n = Accepted c ->
      input_amount_attempt a = Accepted z ->
      stdin w = u8 "1" :: d :: n :: a :: rest ->
      let t := mkTransaction (Str d) (Str c) (Int z) in
      menu_pass float_repr open_write_error xl_bind wb_save_error
        transactions w =
      Running (transactions ++ [t])
        (mkWorld rest
           (stdout w ++ menu_text
              ++ [Prompt date_prompt]
              ++ Print category_heading :: print_menu 1 categories
              ++ [Prompt number_prompt; Prompt amount_prompt;
                  Print (u8 "収支を登録しました")])
           (fs_put (files w) csv_name
              (TextFile (csv_text float_repr (transactions ++ [t])))))) /\
  (stdin w = u8 "5" :: rest ->
   menu_pass float_repr open_write_error xl_bind wb_save_error
     transactions w =
   Exited transactions
     (mkWorld rest
        (stdout w ++ menu_text ++ [Print (u8 "アプリを終了します")])
        (fs_put (files w) csv_name
           (TextFile (csv_text float_repr transactions))))).
Proof.
  intros Hopen Hst. split.
  - intros d n c a z Hd Hn Ha Hin. cbv zeta.
    assert (Hvalid : valid_transaction
                       (mkTransaction (Str d) (Str c) (Int z))).
    { exists d, c, z. split; [reflexivity|].
      split; [now apply input_date_attempt_takes|].
      split; [|now exists a].
      apply input_category_attempt_accepted in Hn.
      destruct Hn as (i & _ & _ & Hnth). eapply nth_error_In; exact Hnth. }
    assert (Hst' : Forall (storable float_repr)
                     (transactions ++
                      [mkTransaction (Str d) (Str c) (Int z)])).
    { apply Forall_app. split; [exact Hst|].
      constructor; [now apply valid_storable|constructor]. }
    unfold menu_pass. rewrite Hin, pystr_eqb_refl.
    unfold add_transaction, input_date, input_category, input_amount.
    cbn [prompt_loop]. rewrite (input_date_attempt_takes Hd).
    cbn [prompt_loop]. rewrite Hn.
    cbn [prompt_loop]. rewrite Ha.
    rewrite (@save_to_csv_storable _ csv_name (files w) Hopen Hst').
    unfold category_heading. repeat rewrite <- app_assoc. cbn [app].
    reflexivity.
  - intros Hin. unfold menu_pass. rewrite Hin.
    change (pystr_eqb (u8 "5") (u8 "1")) with false.
    change (pystr_eqb (u8 "5") (u8 "2")) with false.
    change (pystr_eqb (u8 "5") (u8 "3")) with false.
    change (pystr_eqb (u8 "5") (u8 "4")) with false.
    rewrite pystr_eqb_refl. cbv iota.
    rewrite (@save_to_csv_storable _ csv_name (files w) Hopen Hst).
    repeat rewrite <- app_assoc. reflexivity.
Qed.

End WalletProperties.

(** * The theorems at work on examples *)

Lemma save_then_load_witness :
  exists fs' loaded,
    save_to_csv zero_repr writable example_ledger csv_name [] = (Return tt, fs') /\
    load_from_csv csv_name fs' = Return loaded /\
    Forall2 same_record example_ledger loaded.
Proof.
  apply (@save_then_load zero_repr writable example_ledger csv_name []).
  - reflexivity.
  - repeat constructor.
    + exists (u8 "2025/01/01"), (u8 "食費"), 100%Z.
      split; [reflexivity|]. split; [vm_compute; reflexivity|].
      split; [vm_compute; tauto|].
      exists (u8 "100"). vm_compute. reflexivity.
    + exists (u8 "2025/1/2"), (u8 "交通費"), 50%Z.
      split; [reflexivity|]. split; [vm_compute; reflexivity|].
      split; [vm_compute; tauto|].
      exists (u8 "50.9"). vm_compute. reflexivity.
Defined.

Lemma input_date_accepts_witness :
  input_date_attempt (u8 "2025/1/1") = Accepted (u8 "2025/1/1").
Proof.
  apply (proj1 (@input_date_accepts (u8 "2025/1/1"))).
  apply strptime_Ymd_returns. eexists. vm_compute. reflexivity.
Defined.

Lemma aggregate_by_category_witness :
  dict_keys [(Str (u8 "食費"), float_of_whole 100);
             (Str (u8 "交通費"), float_of_whole 50)] =
  first_appearances (map category example_ledger).
Proof.
  destruct (@aggregate_by_category example_ledger) as (_ & _ & _ & _ & _ & H).
  apply H. vm_compute. reflexivity.
Defined.

Lemma input_category_selects_witness :
  exists category,
    nth_error categories (Z.to_nat (3 - 1)) = Some category /\
    input_category_attempt categories (u8 "3") = Accepted category.
Proof.
  apply (proj1 (@input_category_selects categories (u8 "3")) 3%Z).
  - vm_compute. reflexivity.
  - vm_compute. split; discriminate.
Defined.

Lemma input_amount_truncates_witness :
  input_amount_attempt (u8 "123.9") = Accepted (exact_trunc false 1239 (-1)).
Proof.
  apply (proj1 (proj2 (proj2 (@input_amount_truncates (u8 "123.9"))))
           false 1239%Z (-1)%Z).
  - vm_compute. reflexivity.
  - reflexivity.
Defined.

Lemma load_from_csv_missing_file_witness :
  load_from_csv csv_name [] = Return [].
Proof.
  apply (proj1 (@load_from_csv_missing_file zero_repr writable store_cell saves)).
  reflexivity.
Defined.

Lemma save_to_excel_counts_rows_witness :
  exists wb fs',
    export_workbook store_cell saves example_ledger xlsx_name [] =
    Return (wb, Z.of_nat (length example_ledger), fs').
Proof.
  destruct (export_workbook store_cell saves example_ledger xlsx_name [])
    as [[[wb dc] fs']|e] eqn:E.
  - destruct (@save_to_excel_counts_rows store_cell saves example_ledger xlsx_name [] fs' wb dc E) as [-> _].
    now exists wb, fs'.
  - vm_compute in E. discriminate E.
Defined.

Lemma save_to_excel_catches_witness :
  save_to_excel refuse_cell saves example_ledger xlsx_name [] =
  ([PrintExn excel_error_prefix illegal_character], []).
Proof.
  apply (proj1 (@save_to_excel_catches zero_repr writable refuse_cell saves
                  example_ledger)).
  vm_compute. reflexivity.
Defined.

Lemma input_amount_overflow_escapes_witness :
  exists out,
    main zero_repr writable store_cell saves
      (mkWorld [u8 "1"; u8 "2025/01/01"; u8 "1"; u8 "inf"; u8 "5"] [] []) =
    Uncaught infinity_error [] (mkWorld [u8 "5"] out []).
Proof.
  destruct (@input_amount_overflow_escapes zero_repr writable store_cell saves)
    as (_ & _ & _ & _ & _ & H).
  apply (H (mkWorld [u8 "1"; u8 "2025/01/01"; u8 "1"; u8 "inf"; u8 "5"] [] [])
           [] [u8 "5"]); reflexivity.
Defined.

Lemma load_from_csv_malformed_witness :
  exists e,
    load_from_csv csv_name [(csv_name, TextFile short_row_file)] = Raise e /\
    (exn_cls e = KeyError \/ exn_cls e = TypeError \/ exn_cls e = ValueError).
Proof.
  apply (@load_from_csv_malformed
           [(csv_name, TextFile short_row_file)] csv_name short_row_file
           [(key_date, Str (u8 "2025/01/01"));
            (key_category, Str (u8 "食費")); (key_amount, PyNone)]).
  - reflexivity.
  - vm_compute. constructor.
  - right; right; right; left. reflexivity.
Defined.

Lemma not_a_date_example : ~ lenient_date (u8 "2025/02/30").
Proof.
  intros H. apply strptime_Ymd_returns in H. destruct H as [r H].
  vm_compute in H. discriminate H.
Qed.

Lemma a_date_example : lenient_date (u8 "2025/2/3").
Proof. apply strptime_Ymd_returns. eexists. vm_compute. reflexivity. Qed.

Lemma input_date_first_date_witness :
  input_date [u8 "2025/02/30"; u8 "2025/2/3"; u8 "1"] [] =
  (Return (u8 "2025/2/3"), [u8 "1"],
   [] ++ reprompts date_prompt (map (fun _ => date_notice) [u8 "2025/02/30"])
      ++ [Prompt date_prompt]).
Proof.
  apply (@input_date_first_date [u8 "2025/02/30"] (u8 "2025/2/3") [u8 "1"] []).
  - constructor; [exact not_a_date_example|constructor].
  - exact a_date_example.
Defined.

Lemma input_date_gives_up_witness :
  input_date [u8 "2025/02/30"] [] =
  (Raise eof_error, [],
   [] ++ reprompts date_prompt (map (fun _ => date_notice) [u8 "2025/02/30"])
      ++ [Prompt date_prompt]).
Proof.
  apply (proj2 (@input_date_gives_up [u8 "2025/02/30"] [])).
  constructor; [exact not_a_date_example|constructor].
Defined.

Lemma input_category_in_categories_witness :
  In (u8 "日用品") categories.
Proof.
  refine (proj1 (proj1 (@input_category_in_categories categories
                          [u8 "x"; u8 "3"] [])
                   (u8 "日用品") []
                   (snd (input_category categories [u8 "x"; u8 "3"] [])) _)).
  vm_compute. reflexivity.
Defined.

Lemma menu_number_selects_witness :
  nth_error (print_menu 1 categories) 2 =
    Some (Print (str_of_Z (Z.of_nat 2 + 1) ++ u8 ". " ++ u8 "日用品")) /\
  input_category_attempt categories (str_of_Z (Z.of_nat 2 + 1)) =
    Accepted (u8 "日用品").
Proof.
  apply (@menu_number_selects categories 2 (u8 "日用品")).
  - vm_compute. reflexivity.
  - vm_compute. reflexivity.
Defined.

Lemma input_amount_outcomes_witness : whole_double 12.
Proof.
  refine (proj1 (proj1 (@input_amount_outcomes [u8 "abc"; u8 "12.5"] [])
                   12%Z []
                   (snd (input_amount [u8 "abc"; u8 "12.5"] [])) _)).
  vm_compute. reflexivity.
Defined.

Lemma input_amount_takes_integers_witness :
  input_amount_attempt (str_of_Z (-5)) = Accepted (-5)%Z.
Proof.
  apply (proj2 (@input_amount_takes_integers (-5)%Z)). reflexivity.
Defined.

Lemma input_date_leap_day_witness :
  input_date_attempt ([d2; d0; d2; 52%N] ++ u8 "/02/29") =
  Accepted ([d2; d0; d2; 52%N] ++ u8 "/02/29").
Proof.
  apply (proj2 (@input_date_leap_day d2 d0 d2 52%N
                  ltac:(repeat constructor; discriminate))).
  vm_compute. split; [discriminate|]. split; [reflexivity|].
  left. discriminate.
Defined.

Lemma add_transaction_outcomes_witness :
  valid_transaction
    (mkTransaction (Str (u8 "2025/01/01")) (Str (u8 "食費")) (Int 100)).
Proof.
  refine (proj1 (proj1 (@add_transaction_outcomes
                          [u8 "2025/01/01"; u8 "1"; u8 "100"] [])
                   _ []
                   (snd (add_transaction
                           [u8 "2025/01/01"; u8 "1"; u8 "100"] [])) _)).
  vm_compute. reflexivity.
Defined.

Lemma add_transaction_dialogue_witness :
  add_transaction
    ([u8 "2025/02/30"] ++ u8 "2025/2/3" :: [u8 "9"] ++ u8 "1" ::
     [u8 "abc"] ++ u8 "100" :: [u8 "5"]) [] =
  (Return (mkTransaction (Str (u8 "2025/2/3")) (Str (u8 "食費")) (Int 100)),
   [u8 "5"],
   [] ++ reprompts date_prompt (map (fun _ => date_notice) [u8 "2025/02/30"])
      ++ [Prompt date_prompt]
      ++ Print category_heading :: print_menu 1 categories
      ++ reprompts number_prompt [u8 "番号が無効です。もう一度入力してください。"]
      ++ [Prompt number_prompt]
      ++ reprompts amount_prompt [u8 "金額は数字で入力してください。"]
      ++ [Prompt amount_prompt]).
Proof.
  apply (@add_transaction_dialogue
           [u8 "2025/02/30"] (u8 "2025/2/3")
           [u8 "9"] [u8 "番号が無効です。もう一度入力してください。"]
           (u8 "1") (u8 "食費")
           [u8 "abc"] [u8 "金額は数字で入力してください。"]
           (u8 "100") 100%Z [u8 "5"] []).
  - constructor; [exact not_a_date_example|constructor].
  - exact a_date_example.
  - constructor; [vm_compute; reflexivity|constructor].
  - vm_compute. reflexivity.
  - constructor; [vm_compute; reflexivity|constructor].
  - vm_compute. reflexivity.
Defined.
Lemma example_ledger_valid : Forall valid_transaction example_ledger.
Proof.
  repeat constructor.
  - exists (u8 "2025/01/01"), (u8 "食費"), 100%Z.
    split; [reflexivity|]. split; [vm_compute; reflexivity|].
    split; [vm_compute; tauto|].
    exists (u8 "100"). vm_compute. reflexivity.
  - exists (u8 "2025/1/2"), (u8 "交通費"), 50%Z.
    split; [reflexivity|]. split; [vm_compute; reflexivity|].
    split; [vm_compute; tauto|].
    exists (u8 "50.9"). vm_compute. reflexivity.
Qed.

Lemma example_ledger_chartable : Forall chartable example_ledger.
Proof.
  repeat constructor; apply whole_double_small; reflexivity.
Qed.


Lemma save_to_csv_writes_witness :
  Forall (storable zero_repr) example_ledger.
Proof.
  apply (proj1 (proj2 (@save_to_csv_writes zero_repr writable example_ledger
                         csv_name [] eq_refl))).
  exact example_ledger_valid.
Defined.

Lemma save_to_csv_overwrites_witness :
  exists r content,
    forall fs,
      exists fs',
        save_to_csv zero_repr writable example_ledger csv_name fs = (r, fs') /\
        fs_get fs' csv_name = Some (TextFile content) /\
        forall other, other <> csv_name -> fs_get fs' other = fs_get fs other.
Proof.
  apply (@save_to_csv_overwrites zero_repr writable example_ledger csv_name).
  reflexivity.
Defined.

Lemma load_from_csv_trusts_witness :
  load_from_csv csv_name [(csv_name, TextFile example_file)] =
  Return (map (fun p => record_of_fields (fst p) (snd p))
            (combine [example_fields] [Finite false (1000 * one_in_units)])).
Proof.
  apply (@load_from_csv_trusts [(csv_name, TextFile example_file)] csv_name
           [example_fields] [Finite false (1000 * one_in_units)]).
  - vm_compute. reflexivity.
  - constructor; [vm_compute; repeat split|constructor].
  - constructor; [vm_compute; reflexivity|constructor].
Defined.

Lemma load_from_csv_floats_witness :
  Forall (fun t => exists x, amount t = Float x /\ float_wf x)
    [mkTransaction (Str (u8 "someday")) (Str (u8 "whatever"))
       (Float (Finite false (1000 * one_in_units)))].
Proof.
  apply (@load_from_csv_floats [(csv_name, TextFile example_file)] csv_name).
  vm_compute. reflexivity.
Defined.

Lemma save_then_load_reloaded_witness :
  exists fs' loaded,
    save_to_csv zero_repr writable example_quoted csv_name [] =
      (Return tt, fs') /\
    load_from_csv csv_name fs' = Return loaded /\
    Forall2 as_float example_quoted loaded /\
    (Forall (fun t => exists y, amount t = Float y) example_quoted ->
     loaded = example_quoted).
Proof.
  apply (proj1 (@save_then_load_reloaded zero_repr writable example_quoted
                  csv_name [] eq_refl)).
  - constructor; [|constructor].
    split; [now exists (u8 "1/2, or 3"), [ch_quote]|].
    split; [vm_compute; repeat split|exact I].
  - constructor; [vm_compute; reflexivity|constructor].
Defined.

Lemma plot_graph_chart_witness :
  exists pairs,
    categorized example_ledger = Return pairs /\
    let bars := first_appearances (map category example_ledger) in
    plot_graph example_ledger =
      Return [BarChart bars (map (fun c => total_of c pairs) bars)] /\
    NoDup bars /\
    (forall c, In c bars <-> In c (map category example_ledger)) /\
    (length bars <= length example_ledger)%nat.
Proof.
  apply (proj1 (proj2 (@plot_graph_chart example_ledger))).
  - discriminate.
  - exact example_ledger_chartable.
Defined.

Lemma aggregate_exact_witness :
  let bars := first_appearances (map category example_ledger) in
  aggregate [] example_ledger =
    Return (map (fun c => (c, float_of_whole (int_total c example_ledger)))
              bars) /\
  (example_ledger <> [] ->
   plot_graph example_ledger =
   Return [BarChart bars
             (map (fun c => float_of_whole (int_total c example_ledger))
                bars)]).
Proof.
  apply (@aggregate_exact example_ledger).
  - repeat constructor; eexists; reflexivity.
  - reflexivity.
Defined.

Lemma save_to_excel_succeeds_witness :
  exists wb,
    save_to_excel store_cell saves example_ledger xlsx_name [] =
      ([Print (saved_notice xlsx_name);
        Print (count_notice (str_of_Z (Z.of_nat (length example_ledger))))],
       fs_put [] xlsx_name (XlsxFile wb)) /\
    title wb = sheet_title /\
    length (sheet wb) = S (length example_ledger).
Proof.
  apply (@save_to_excel_succeeds store_cell saves example_ledger xlsx_name []).
  - intros v. now exists v.
  - reflexivity.
  - exact example_ledger_chartable.
  - reflexivity.
Defined.

Lemma save_to_excel_frame_witness :
  fs_get (snd (save_to_excel store_cell saves example_ledger xlsx_name
                 [(csv_name, TextFile example_file)])) csv_name =
  Some (TextFile example_file).
Proof.
  refine (proj1 (proj2 (@save_to_excel_frame zero_repr writable store_cell
                          saves example_ledger xlsx_name
                          [(csv_name, TextFile example_file)]
                          (fst (save_to_excel store_cell saves example_ledger
                                  xlsx_name
                                  [(csv_name, TextFile example_file)]))
                          (snd (save_to_excel store_cell saves example_ledger
                                  xlsx_name
                                  [(csv_name, TextFile example_file)]))
                          _)) eq_refl).
  apply surjective_pairing.
Defined.

Lemma ledger_only_grows_witness :
  exists added,
    ledger (main zero_repr writable store_cell saves example_run) =
      [] ++ added /\
    Forall valid_transaction added.
Proof.
  apply (proj2 (@ledger_only_grows zero_repr writable store_cell saves
                  0 [] example_run)).
  reflexivity.
Defined.

Lemma file_follows_ledger_witness :
  let o := main zero_repr writable store_cell saves example_run in
  (ledger o = [] /\ fs_get (files (world_of o)) csv_name = None) \/
  fs_get (files (world_of o)) csv_name =
    Some (TextFile (csv_text zero_repr (ledger o))).
Proof.
  apply (proj2 (@file_follows_ledger zero_repr writable store_cell saves
                  0 [] example_run eq_refl)).
  reflexivity.
Defined.

Lemma run_loses_nothing_witness :
  let o := main zero_repr writable store_cell saves example_run in
  exists loaded,
    load_from_csv csv_name (files (world_of o)) = Return loaded /\
    Forall2 same_record (ledger o) loaded /\
    forall w2,
      files w2 = files (world_of o) ->
      main zero_repr writable store_cell saves w2 =
      menu_loop zero_repr writable store_cell saves
        (S (length (stdin w2))) loaded w2.
Proof.
  apply (@run_loses_nothing zero_repr writable store_cell saves example_run);
    reflexivity.
Defined.

Lemma run_ends_by_witness :
  (exists transactions' w',
      main zero_repr writable store_cell saves example_run =
      Exited transactions' w') \/
  (exists e transactions' w',
      main zero_repr writable store_cell saves example_run =
      Uncaught e transactions' w' /\
      (e = eof_error \/ e = infinity_error)).
Proof.
  apply (proj2 (@run_ends_by zero_repr writable store_cell saves
                  0 [] example_run eq_refl)).
  reflexivity.
Defined.

Lemma run_ends_witness :
  (exists transactions w',
      main zero_repr writable store_cell saves example_run =
      Exited transactions w') \/
  (exists e transactions w',
      main zero_repr writable store_cell saves example_run =
      Uncaught e transactions w').
Proof.
  apply (proj2 (@run_ends zero_repr writable store_cell saves example_run)).
Defined.

Lemma unwritable_file_ends_run_witness :
  let o := menu_loop zero_repr read_only store_cell saves 6 [] example_run in
  fs_get (files (world_of o)) csv_name = fs_get (files example_run) csv_name /\
  match o with
  | Exited _ _ => False
  | Running transactions' _ => transactions' = []
  | Uncaught e' transactions' _ =>
    transactions' = [] \/
    (e' = permission_denied /\
     exists t, transactions' = [] ++ [t] /\ valid_transaction t)
  end.
Proof.
  apply (@unwritable_file_ends_run zero_repr read_only store_cell saves
           permission_denied 6 [] example_run).
  reflexivity.
Defined.

Lemma totals_any_order_witness :
  exists totals totals',
    aggregate [] example_ledger = Return totals /\
    aggregate [] (rev example_ledger) = Return totals' /\
    forall c, dict_get strval_eqb totals c = dict_get strval_eqb totals' c.
Proof.
  apply (proj1 (@totals_any_order example_ledger (rev example_ledger))).
  - apply Permutation_rev.
  - repeat constructor; eexists; reflexivity.
  - reflexivity.
Defined.

Lemma load_from_csv_any_newline_witness :
  load_from_csv csv_name
    [(csv_name,
      TextFile (concat (map ended_line
                          ((header3, CR) :: [(example_fields, LF)]))))] =
  load_from_csv csv_name
    [(csv_name,
      TextFile (concat (map crlf_line
                          (header3 :: map fst [(example_fields, LF)]))))].
Proof.
  apply (@load_from_csv_any_newline csv_name [(example_fields, LF)] CR).
  constructor; [vm_compute; repeat split|constructor].
Defined.

Lemma example_run_ledger_storable :
  Forall (storable zero_repr) example_ledger.
Proof.
  eapply Forall_impl; [|exact example_ledger_valid].
  intros t. apply valid_storable.
Qed.

Lemma writing_passes_witness :
  menu_pass zero_repr writable store_cell saves example_ledger
    (mkWorld [u8 "5"; u8 "1"] [] []) =
  Exited example_ledger
    (mkWorld [u8 "1"]
       ([] ++ menu_text ++ [Print (u8 "アプリを終了します")])
       (fs_put [] csv_name (TextFile (csv_text zero_repr example_ledger)))).
Proof.
  apply (proj2 (@writing_passes zero_repr writable store_cell saves
                  example_ledger (mkWorld [u8 "5"; u8 "1"] [] []) [u8 "1"]
                  eq_refl example_run_ledger_storable)).
  reflexivity.
Defined.

Lemma load_from_csv_any_column_order_witness :
  load_from_csv csv_name
    [(csv_name,
      TextFile (concat (map crlf_line
                          (map (arrange ADC) (header3 :: [example_fields])))))] =
  load_from_csv csv_name
    [(csv_name,
      TextFile (concat (map crlf_line (header3 :: [example_fields]))))].
Proof.
  apply (@load_from_csv_any_column_order csv_name ADC [example_fields]).
  constructor; [vm_compute; repeat split|constructor].
Defined.
